(** * Cafenet: the inventory ledger and its undo engine

    A shallow embedding of [Cafenet.py].  The program keeps four SQLite
    tables (products, sales_log, undo_stack, logs) and drives them from the
    callbacks of a Tk form.  Every callback opens its own short-lived
    connections; each connection either commits what it did or raises and
    leaves the file as it was.  One connection is not short-lived: the one
    on which [undo_last] puts a deleted row back is not closed when its
    INSERT is refused, and keeps the file locked for writing while the
    callback runs on.

    Modelling choices:
    - a table with an INTEGER PRIMARY KEY AUTOINCREMENT is a finite map from
      row id to row, together with the counter SQLite keeps for it; foreign
      keys are on, as [get_connection] sets them;
    - integers are Python integers, taken as [Z]; the columns are assumed to
      hold them; where the engine multiplies or subtracts columns, it does
      so in 64-bit integers and goes over to doubles beyond them; an
      integer SUM beyond them raises, which is a failing connection;
    - the JSON text of an undo payload is the record it encodes;
    - timestamps are readings of a clock that never repeats;
    - a callback is a function in a state-and-exception monad over the
      application state [App]; a Python exception is the result [Raised];
    - storage failures come from a schedule carried by the state: one entry
      per connection, [true] meaning that this connection raises before it
      commits; an empty schedule means that nothing fails;
    - the answers the operator gives to yes/no dialogs are arguments of the
      callback that asks, and the contents of the form are arguments of
      [add_product];
    - the product list is kept as the ids of the rows it shows, since the id
      is all the callbacks read from it;
    - the engine's [LIKE] test on product names is a variable of the
      development;
    - the texts of the price helpers and the file names of the backups are
      Python strings, taken as lists of code points;
    - the backup folder is a finite map from file name to what the file
      holds, a copy of the database or the rest of a copy that raised; of
      the backup thread one pass of its loop is modelled, the way the copy
      ends and the failure of each removal being arguments;
    - the sales history window is the list of lines its query fills it
      with;
    - the text file written through [logging], the icons and the timing of
      the backup thread are left out. *)

From Stdlib Require Import ZArith Lia.
From stdpp Require Import gmap strings list fin_maps sorting.

Local Open Scope Z_scope.

(** ** Rows *)

(** A row of [products]; the id is the key of the table. *)
Record Product := mkProduct {
  name : string;
  qty : Z;
  buy_price : Z;
  sell_price : Z;
  sold_qty : Z
}.

(** A row of [sales_log]; [product_id] is nullable. *)
Record Sale := mkSale {
  product_id : option Z;
  sale_qty : Z;
  price_buy : Z;
  price_sell : Z;
  profit : Z;
  timestamp : Z
}.

(** The JSON object stored in [undo_stack.payload].  Each key the program
    ever writes is a field; a key that is absent reads as [None], which is
    what [payload.get] returns. *)
Record Payload := mkPayload {
  pl_product_id : option Z;
  pl_qty : option Z;
  pl_prev_qty : option Z;
  pl_prev_sold : option Z;
  pl_sales_log_id : option Z;
  pl_data : option Product
}.

(** A row of [undo_stack]. *)
Record UndoRow := mkUndoRow {
  action : string;
  payload : Payload;
  pushed_at : Z
}.

(** An element of the in-memory list [self._undo_stack]. *)
Record UndoEntry := mkUndoEntry {
  entry_id : Z;
  entry_action : string;
  entry_payload : Payload
}.

(** ** The database file *)

Record DB := mkDB {
  products : gmap Z Product;
  products_seq : Z;
  sales_log : gmap Z Sale;
  sales_log_seq : Z;
  undo_stack : gmap Z UndoRow;
  undo_stack_seq : Z;
  logs : list string
}.

(** [init_db] on a new file. *)
Definition init_db : DB := mkDB ∅ 0 ∅ 0 ∅ 0 [].

Definition set_products (m : gmap Z Product) (s : Z) (d : DB) : DB :=
  mkDB m s (sales_log d) (sales_log_seq d) (undo_stack d) (undo_stack_seq d) (logs d).

Definition set_sales_log (m : gmap Z Sale) (s : Z) (d : DB) : DB :=
  mkDB (products d) (products_seq d) m s (undo_stack d) (undo_stack_seq d) (logs d).

Definition set_undo_stack (m : gmap Z UndoRow) (s : Z) (d : DB) : DB :=
  mkDB (products d) (products_seq d) (sales_log d) (sales_log_seq d) m s (logs d).

Definition set_logs (l : list string) (d : DB) : DB :=
  mkDB (products d) (products_seq d) (sales_log d) (sales_log_seq d)
       (undo_stack d) (undo_stack_seq d) l.

(** ** Row ids *)

(** The largest row id of a table, 0 for an empty one. *)
Definition max_rowid {A} (m : gmap Z A) : Z :=
  map_fold (fun k _ acc => Z.max k acc) 0 m.

(** AUTOINCREMENT: one more than the largest id the table holds or has ever
    held. *)
Definition next_rowid {A} (m : gmap Z A) (seq : Z) : Z :=
  Z.max seq (max_rowid m) + 1.

(** [ORDER BY id DESC LIMIT 1]. *)
Definition last_row {A} (m : gmap Z A) : option (Z * A) :=
  map_fold (fun k v acc =>
              match acc with
              | Some (k', v') => if k' <? k then Some (k, v) else Some (k', v')
              | None => Some (k, v)
              end) None m.

(** A stable sort by an integer key, ascending. *)
Fixpoint insert_by {A} (key : A -> Z) (x : A) (l : list A) : list A :=
  match l with
  | [] => [x]
  | y :: l' => if key x <=? key y then x :: y :: l' else y :: insert_by key x l'
  end.

Definition sort_by {A} (key : A -> Z) (l : list A) : list A :=
  foldr (insert_by key) [] l.

(** The rows of a table in row id order. *)
Definition scan {A} (m : gmap Z A) : list (Z * A) :=
  sort_by fst (map_to_list m).

(** ** The engine's arithmetic *)

(** The integers of the engine. *)
Definition int64 (z : Z) : bool := (- 2 ^ 63 <=? z) && (z <? 2 ^ 63).

(** The double nearest to an integer, ties to the even mantissa: 53
    significant bits.  The doubles met here are whole numbers and are kept
    as the integers they equal. *)
Definition round53 (z : Z) : Z :=
  let a := Z.abs z in
  let e := Z.log2 a in
  if e <? 53 then z
  else
    let sh := e - 52 in
    let q := Z.shiftr a sh in
    let r := a - Z.shiftl q sh in
    let half := Z.shiftl 1 (sh - 1) in
    let q' := if (half <? r) || ((r =? half) && Z.odd q) then q + 1 else q in
    Z.sgn z * Z.shiftl q' sh.

(** A number the engine has computed. *)
Inductive Num := Integer (z : Z) | Real (z : Z).

Definition num_value (n : Num) : Z :=
  match n with Integer z => z | Real z => z end.

(** [a - b] and [a * n] on integer columns: in the integers while the
    result is one of them, in the doubles from there on. *)
Definition sql_sub (a b : Z) : Num :=
  if int64 (a - b) then Integer (a - b)
  else Real (round53 (round53 a - round53 b)).

Definition sql_mul (a : Z) (n : Num) : Num :=
  match n with
  | Integer b =>
      if int64 (a * b) then Integer (a * b)
      else Real (round53 (round53 a * round53 b))
  | Real b => Real (round53 (round53 a * b))
  end.

(** ** Statements *)

(** [INSERT INTO products (name, qty, buy_price, sell_price[, sold_qty])]:
    the id is assigned; the result carries [lastrowid]. *)
Definition insert_product (row : Product) (d : DB) : Z * DB :=
  let k := next_rowid (products d) (products_seq d) in
  (k, set_products (<[k := row]> (products d)) k d).

(** [INSERT INTO products (id, ...)] with the id given: a taken id violates
    the primary key, and the statement raises. *)
Definition insert_product_with_id (k : Z) (row : Product) (d : DB) : option DB :=
  match products d !! k with
  | Some _ => None
  | None => Some (set_products (<[k := row]> (products d))
                               (Z.max (products_seq d) k) d)
  end.

(** [UPDATE products SET qty=?, sold_qty=? WHERE id=?]. *)
Definition update_product (k : Z) (q s : Z) (d : DB) : DB :=
  set_products
    (alter (fun r => mkProduct (name r) q (buy_price r) (sell_price r) s) k (products d))
    (products_seq d) d.

(** [UPDATE products SET qty=qty + ?, sold_qty = MAX(sold_qty - ?, 0) WHERE id=?]. *)
Definition give_back_product (k : Z) (q : Z) (d : DB) : DB :=
  set_products
    (alter (fun r => mkProduct (name r) (qty r + q) (buy_price r) (sell_price r)
                               (Z.max (sold_qty r - q) 0)) k (products d))
    (products_seq d) d.

(** The foreign key of [sales_log]: ON DELETE SET NULL. *)
Definition forget_product (k : Z) (s : Sale) : Sale :=
  if bool_decide (product_id s = Some k)
  then mkSale None (sale_qty s) (price_buy s) (price_sell s) (profit s) (timestamp s)
  else s.

(** [DELETE FROM products WHERE id=?], with foreign keys on. *)
Definition delete_product (k : Z) (d : DB) : DB :=
  match products d !! k with
  | Some _ =>
      set_sales_log (forget_product k <$> sales_log d) (sales_log_seq d)
        (set_products (delete k (products d)) (products_seq d) d)
  | None => d
  end.

(** [INSERT INTO sales_log (...)]: the product must exist (foreign key). *)
Definition insert_sale (pid q buy sell prof ts : Z) (d : DB) : option (Z * DB) :=
  match products d !! pid with
  | Some _ =>
      let k := next_rowid (sales_log d) (sales_log_seq d) in
      Some (k, set_sales_log (<[k := mkSale (Some pid) q buy sell prof ts]> (sales_log d)) k d)
  | None => None
  end.

(** [DELETE FROM sales_log WHERE id=?]. *)
Definition delete_sale (k : Z) (d : DB) : DB :=
  set_sales_log (delete k (sales_log d)) (sales_log_seq d) d.

(** [SELECT id FROM sales_log WHERE product_id=? AND qty=?
     ORDER BY timestamp DESC LIMIT 1].  A NULL parameter matches no row.
    Among rows of equal timestamp the one with the largest id is taken. *)
Definition find_sale (pid : option Z) (q : Z) (d : DB) : option Z :=
  match pid with
  | None => None
  | Some p =>
      let hits := filter (fun kr => product_id kr.2 = Some p /\ sale_qty kr.2 = q)
                         (scan (sales_log d)) in
      fst <$> last (sort_by (fun kr => timestamp kr.2) hits)
  end.

(** [INSERT INTO undo_stack (action, payload, timestamp)]. *)
Definition insert_undo (a : string) (p : Payload) (ts : Z) (d : DB) : Z * DB :=
  let k := next_rowid (undo_stack d) (undo_stack_seq d) in
  (k, set_undo_stack (<[k := mkUndoRow a p ts]> (undo_stack d)) k d).

(** [DELETE FROM undo_stack WHERE id=?]. *)
Definition delete_undo (k : Z) (d : DB) : DB :=
  set_undo_stack (delete k (undo_stack d)) (undo_stack_seq d) d.

(** [INSERT INTO logs (action, details)]; the detail text is not kept. *)
Definition insert_log (a : string) (d : DB) : DB :=
  set_logs (logs d ++ [a]) d.

(** ** The application state *)

(** The choices of the stock filter menu. *)
Inductive Filter := FilterAll | FilterBelow5 | FilterLowest | FilterBestSeller | FilterMostProfit.

(** The text of the status line. *)
Inductive Status :=
| Ready
| Added (n : string)
| Sold (q : Z) (n : string)
| Removed (n : string)
| UndoneAdd
| UndoneSell
| UndoneDelete.

(** The message boxes the callbacks open. *)
Inductive Dialog :=
| WarnNoSelection
| WarnIncomplete
| ErrNotNumeric
| ErrAddFailed
| InfoOutOfStock (n : string)
| AskSellAll (available : Z)
| ErrSellFailed
| AskDelete (n : string)
| InfoNothingToUndo
| WarnNotUndoable
| ErrUndoFailed
| AskDeleteSale
| InfoSaleDeleted.

(** A figure that the engine computes with a multiplication: the exact
    integer, or, once a product has left the 64-bit integers, the float the
    engine goes on with, of which the model keeps no more than that it is
    one. *)
Inductive Amount := Exact (v : Z) | Approximate.

(** The figures of the summary line. *)
Record Report := mkReport {
  report_count : Z;
  report_qty : Z;
  report_value : Amount;
  report_sold : Z;
  report_profit : Z
}.

(** What a text entry of the form holds once cleaned: nothing, or a text
    with the value [int] gives it ([None] when [int] raises). *)
Inductive Entry := Blank | Text (value : option Z).

Record App := mkApp {
  db : DB;
  faults : list bool;
  clock : Z;
  var_search : string;
  var_filter : Filter;
  tree : list Z;
  selection : list Z;
  _undo_stack : list UndoEntry;
  status_label : Status;
  report_label : option Report;
  dialogs : list Dialog
}.

Definition set_db (d : DB) (st : App) : App :=
  mkApp d (faults st) (clock st) (var_search st) (var_filter st) (tree st)
        (selection st) (_undo_stack st) (status_label st) (report_label st) (dialogs st).

Definition set_faults (fs : list bool) (st : App) : App :=
  mkApp (db st) fs (clock st) (var_search st) (var_filter st) (tree st)
        (selection st) (_undo_stack st) (status_label st) (report_label st) (dialogs st).

Definition set_clock (t : Z) (st : App) : App :=
  mkApp (db st) (faults st) t (var_search st) (var_filter st) (tree st)
        (selection st) (_undo_stack st) (status_label st) (report_label st) (dialogs st).

Definition set_search (q : string) (f : Filter) (st : App) : App :=
  mkApp (db st) (faults st) (clock st) q f (tree st)
        (selection st) (_undo_stack st) (status_label st) (report_label st) (dialogs st).

Definition set_tree (t s : list Z) (st : App) : App :=
  mkApp (db st) (faults st) (clock st) (var_search st) (var_filter st) t
        s (_undo_stack st) (status_label st) (report_label st) (dialogs st).

Definition set_undo_list (l : list UndoEntry) (st : App) : App :=
  mkApp (db st) (faults st) (clock st) (var_search st) (var_filter st) (tree st)
        (selection st) l (status_label st) (report_label st) (dialogs st).

Definition set_status (s : Status) (st : App) : App :=
  mkApp (db st) (faults st) (clock st) (var_search st) (var_filter st) (tree st)
        (selection st) (_undo_stack st) s (report_label st) (dialogs st).

Definition set_report (r : option Report) (st : App) : App :=
  mkApp (db st) (faults st) (clock st) (var_search st) (var_filter st) (tree st)
        (selection st) (_undo_stack st) (status_label st) r (dialogs st).

Definition set_dialogs (l : list Dialog) (st : App) : App :=
  mkApp (db st) (faults st) (clock st) (var_search st) (var_filter st) (tree st)
        (selection st) (_undo_stack st) (status_label st) (report_label st) l.

(** ** Callbacks as computations *)

Inductive Res (A : Type) := Val (a : A) | Raised.
Arguments Val {A} a.
Arguments Raised {A}.

Definition M (A : Type) : Type := App -> Res A * App.

Definition ret {A} (a : A) : M A := fun st => (Val a, st).

Definition bind {A B} (m : M A) (k : A -> M B) : M B :=
  fun st => match m st with
            | (Val a, st') => k a st'
            | (Raised, st') => (Raised, st')
            end.

(** [try: m  except: h]. *)
Definition try_except {A} (m h : M A) : M A :=
  fun st => match m st with
            | (Val a, st') => (Val a, st')
            | (Raised, st') => h st'
            end.

Declare Scope cafe_scope.
Delimit Scope cafe_scope with cafe.
Notation "'do' x <- m ; k" := (bind m (fun x => k))
  (at level 10, x name, m at level 100, k at level 200) : cafe_scope.
Notation "m ;; k" := (bind m (fun _ => k))
  (at level 100, k at level 200, right associativity) : cafe_scope.
Local Open Scope cafe_scope.

(** Reading and changing the state of the form. *)
Definition gets {A} (f : App -> A) : M A := fun st => (Val (f st), st).

Definition modify (g : App -> App) : M unit := fun st => (Val tt, g st).

(** [try: m  except: pass]. *)
Definition attempt (m : M unit) : M unit := try_except m (ret tt).

(** One connection: [get_connection], the statements [f], [commit],
    [close].  It raises, leaving the file as it was, when the schedule says
    so or when a statement does ([f] gives [None]). *)
Definition connect {A} (f : DB -> option (A * DB)) : M A :=
  fun st =>
    let st' := set_faults (tail (faults st)) st in
    match faults st with
    | true :: _ => (Raised, st')
    | _ => match f (db st) with
           | Some (a, d) => (Val a, set_db d st')
           | None => (Raised, st')
           end
    end.

(** [self.db_execute(query, params)]. *)
Definition db_execute (stmt : DB -> DB) : M unit :=
  connect (fun d => Some (tt, stmt d)).

(** [self.db_query(query, params)]. *)
Definition db_query {A} (q : DB -> A) : M A :=
  connect (fun d => Some (q d, d)).

(** [datetime.now().isoformat()]: the clock never gives the same reading
    twice. *)
Definition now : M Z :=
  fun st => (Val (clock st), set_clock (clock st + 1) st).

(** [messagebox.show...] and [messagebox.askyesno]. *)
Definition show (dlg : Dialog) : M unit :=
  modify (fun st => set_dialogs (dialogs st ++ [dlg]) st).

(** [self.status_label.config(text=...)]. *)
Definition status (s : Status) : M unit :=
  modify (set_status s).

(** [log_action]: a failure to write the row is swallowed. *)
Definition log_action (a : string) : M unit :=
  attempt (db_execute (insert_log a)).

(** *** The persistent undo stack *)

(** [self._undo_stack.pop(i)] for the last [i] whose entry has the id. *)
Fixpoint remove_first (uid : Z) (l : list UndoEntry) : list UndoEntry :=
  match l with
  | [] => []
  | e :: l' => if entry_id e =? uid then l' else e :: remove_first uid l'
  end.

Definition forget_entry (uid : Z) (l : list UndoEntry) : list UndoEntry :=
  match last l with
  | Some e => if entry_id e =? uid then removelast l
              else reverse (remove_first uid (reverse l))
  | None => l
  end.

Definition _push_undo (a : string) (p : Payload) : M unit :=
  attempt (do ts <- now;
           do uid <- connect (fun d => Some (insert_undo a p ts d));
           modify (fun st => set_undo_list (_undo_stack st ++ [mkUndoEntry uid a p]) st)).

Definition _pop_undo_db : M (option UndoEntry) :=
  try_except
    (do row <- connect (fun d =>
                 match last_row (undo_stack d) with
                 | None => Some (None, d)
                 | Some (uid, r) => Some (Some (uid, r), delete_undo uid d)
                 end);
     match row with
     | None => ret None
     | Some (uid, r) =>
         modify (fun st => set_undo_list (forget_entry uid (_undo_stack st)) st) ;;
         ret (Some (mkUndoEntry uid (action r) (payload r)))
     end)
    (ret None).

Definition _load_undo_stack : M unit :=
  try_except
    (do rows <- db_query (fun d => scan (undo_stack d));
     modify (set_undo_list
               (map (fun kr => mkUndoEntry kr.1 (action kr.2) (payload kr.2)) rows)))
    (modify (set_undo_list [])).

(** *** The summary line *)

Definition sum_over {A} (f : A -> Z) (m : gmap Z A) : Z :=
  map_fold (fun _ r acc => f r + acc) 0 m.

(** [SUM(qty*buy_price)]: the sum of the products while each of them is a
    64-bit integer; a product beyond them is a float, and so is the sum. *)
Definition stock_value (m : gmap Z Product) : Amount :=
  if bool_decide (map_Forall (fun _ r => int64 (qty r * buy_price r) = true) m)
  then Exact (sum_over (fun r => qty r * buy_price r) m)
  else Approximate.

Definition update_report : M unit :=
  do totals <- db_query (fun d =>
                 (Z.of_nat (size (products d)),
                  sum_over qty (products d),
                  stock_value (products d),
                  sum_over sold_qty (products d)));
  do total_profit <- db_query (fun d => sum_over profit (sales_log d));
  let '(cnt, total_qty, total_value, total_sold) := totals in
  modify (set_report (Some (mkReport cnt total_qty total_value total_sold total_profit))).

Section Callbacks.

(** [name_like q n]: the engine's answer to [n LIKE '%q%']. *)
Variable name_like : string -> string -> bool.

(** *** The product list *)

(** The WHERE clause of the listing; [var_search] is the stripped text. *)
Definition listed (q : string) (r : Product) : bool :=
  if bool_decide (q = EmptyString) then true else name_like q (name r).

(** [sold_qty * (sell_price - buy_price)] as the engine computes it for the
    ORDER BY of the "most profitable" filter. *)
Definition profit_key (r : Product) : Z :=
  num_value (sql_mul (sold_qty r) (sql_sub (sell_price r) (buy_price r))).

(** The rows [refresh_list] walks: the query for the chosen filter, then
    the re-sort by stock for "lowest stock".  Rows of equal sort key keep
    their row id order. *)
Definition listing (q : string) (f : Filter) (d : DB) : list (Z * Product) :=
  let hits := filter (fun kr => listed q kr.2 = true) (scan (products d)) in
  match f with
  | FilterBestSeller => sort_by (fun kr => - sold_qty kr.2) hits
  | FilterMostProfit => sort_by (fun kr => - profit_key kr.2) hits
  | FilterLowest => sort_by (fun kr => qty kr.2) (sort_by (fun kr => - kr.1) hits)
  | _ => sort_by (fun kr => - kr.1) hits
  end.

(** The loop over the rows: a row out of stock is deleted from the table and
    not shown. *)
Fixpoint show_rows (f : Filter) (rows : list (Z * Product)) : M unit :=
  match rows with
  | [] => ret tt
  | (pid, r) :: rest =>
      if qty r <=? 0 then
        attempt (db_execute (delete_product pid)) ;; show_rows f rest
      else if match f with FilterBelow5 => 5 <=? qty r | _ => false end then
        show_rows f rest
      else
        modify (fun st => set_tree (tree st ++ [pid]) (selection st) st) ;;
        show_rows f rest
  end.

Definition refresh_list : M unit :=
  do q <- gets var_search;
  do filter_val <- gets var_filter;
  do rows <- db_query (listing q filter_val);
  modify (set_tree [] []) ;;
  show_rows filter_val rows ;;
  update_report.

(** A connection that writes while an earlier connection of the callback is
    still open inside its transaction: it opens, finds the file locked and
    raises. *)
Definition busy : M unit :=
  fun st => (Raised, set_faults (tail (faults st)) st).

(** [refresh_list] while the file is locked for writing: the queries read,
    the DELETE of a row out of stock raises and is passed over. *)
Fixpoint show_rows_locked (f : Filter) (rows : list (Z * Product)) : M unit :=
  match rows with
  | [] => ret tt
  | (pid, r) :: rest =>
      if qty r <=? 0 then
        attempt busy ;; show_rows_locked f rest
      else if match f with FilterBelow5 => 5 <=? qty r | _ => false end then
        show_rows_locked f rest
      else
        modify (fun st => set_tree (tree st ++ [pid]) (selection st) st) ;;
        show_rows_locked f rest
  end.

Definition refresh_list_locked : M unit :=
  do q <- gets var_search;
  do filter_val <- gets var_filter;
  do rows <- db_query (listing q filter_val);
  modify (set_tree [] []) ;;
  show_rows_locked filter_val rows ;;
  update_report.

(** [CafenetApp.__init__], from the tables on. *)
Definition startup : M unit :=
  db_execute (fun d => d) ;;
  _load_undo_stack ;;
  refresh_list.

(** *** Add *)

Definition add_product (n : string) (q b s : Entry) : M unit :=
  match q, b, s with
  | Text q', Text b', Text s' =>
      if bool_decide (n = EmptyString) then show WarnIncomplete
      else
        match q', b', s' with
        | Some qi, Some bi, Some si =>
            do inserted <- try_except
                 (do last_id <- connect (fun d => Some (insert_product (mkProduct n qi bi si 0) d));
                  ret (Some last_id))
                 (show ErrAddFailed ;; ret None);
            match inserted with
            | None => ret tt
            | Some last_id =>
                log_action "ADD" ;;
                _push_undo "ADD" (mkPayload (Some last_id) None None None None None) ;;
                refresh_list ;;
                status (Added n)
            end
        | _, _, _ => show ErrNotNumeric
        end
  | _, _, _ => show WarnIncomplete
  end.

(** *** Sell *)

(** [yes] is the operator's answer, should the program ask whether to sell
    what is left. *)
Definition sell_item (qty_to_sell : Z) (yes : bool) : M unit :=
  do sel <- gets selection;
  match sel with
  | [] => show WarnNoSelection
  | pid :: _ =>
      let qty_to_sell := if qty_to_sell <? 1 then 1 else qty_to_sell in
      do rows <- db_query (fun d => products d !! pid);
      match rows with
      | None => ret tt
      | Some r =>
          let sell := fun qty_to_sell =>
            let newq := qty r - qty_to_sell in
            let newsold := sold_qty r + qty_to_sell in
            do sold <- try_except
                 (do ts <- now;
                  do sales_log_id <- connect (fun d =>
                       insert_sale pid qty_to_sell (buy_price r) (sell_price r)
                                   ((sell_price r - buy_price r) * qty_to_sell) ts
                                   (update_product pid newq newsold d));
                  ret (Some sales_log_id))
                 (show ErrSellFailed ;; ret None);
            match sold with
            | None => ret tt
            | Some sales_log_id =>
                _push_undo "SELL"
                  (mkPayload (Some pid) (Some qty_to_sell) (Some (qty r)) (Some (sold_qty r))
                             (Some sales_log_id) None) ;;
                log_action "SELL" ;;
                refresh_list ;;
                status (Sold qty_to_sell (name r))
            end in
          if qty r <=? 0 then show (InfoOutOfStock (name r))
          else if qty r <? qty_to_sell then
            show (AskSellAll (qty r)) ;;
            if yes then sell (qty r) else ret tt
          else sell qty_to_sell
      end
  end.

(** *** Delete *)

Definition delete_item (yes : bool) : M unit :=
  do sel <- gets selection;
  match sel with
  | [] => show WarnNoSelection
  | pid :: _ =>
      do rows <- db_query (fun d => products d !! pid);
      match rows with
      | None => ret tt
      | Some r =>
          show (AskDelete (name r)) ;;
          if yes then
            _push_undo "DELETE" (mkPayload (Some pid) None None None None (Some r)) ;;
            db_execute (delete_product pid) ;;
            log_action "DELETE" ;;
            refresh_list ;;
            status (Removed (name r))
          else ret tt
      end
  end.

(** *** Undo *)

(** A statement whose WHERE compares the id with a parameter that may be
    NULL. *)
Definition where_id (k : option Z) (stmt : Z -> DB -> DB) (d : DB) : DB :=
  match k with
  | Some k' => stmt k' d
  | None => d
  end.

(** A Python integer or [None] taken as a condition. *)
Definition truthy (k : option Z) : bool :=
  match k with
  | Some k' => negb (k' =? 0)
  | None => false
  end.

Definition undo_add (p : Payload) : M unit :=
  db_execute (where_id (pl_product_id p) delete_product) ;;
  log_action "UNDO_ADD" ;;
  status UndoneAdd.

(** The quantities go back to the saved ones (or, without them, the sold
    quantity is given back); then the sales row with the saved id is
    deleted, and if that DELETE raises, the most recent row of the same
    product and quantity is looked for and deleted instead. *)
Definition undo_sell (p : Payload) : M unit :=
  let pid := pl_product_id p in
  let q := default 1 (pl_qty p) in
  match pl_prev_qty p, pl_prev_sold p with
  | Some prev_qty, Some prev_sold =>
      db_execute (where_id pid (fun k => update_product k prev_qty prev_sold))
  | _, _ =>
      db_execute (where_id pid (fun k => give_back_product k q))
  end ;;
  (if truthy (pl_sales_log_id p) then
     try_except
       (db_execute (where_id (pl_sales_log_id p) delete_sale))
       (attempt (connect (fun d =>
                   match find_sale pid q d with
                   | Some sid => Some (tt, delete_sale sid d)
                   | None => Some (tt, d)
                   end)))
   else ret tt) ;;
  log_action "UNDO_SELL" ;;
  status UndoneSell.

(** The INSERT that puts the row back under its old id, and the INSERT of
    the fallback, without an id.  A payload with no [data] gives a NULL
    name, which the column refuses. *)
Definition restore_row (p : Payload) (d : DB) : option (unit * DB) :=
  match pl_data p with
  | Some row =>
      match pl_product_id p with
      | Some pid => (fun d' => (tt, d')) <$> insert_product_with_id pid row d
      | None => Some (tt, (insert_product row d).2)
      end
  | None => None
  end.

Definition fallback_row (p : Payload) (d : DB) : option (unit * DB) :=
  match pl_data p with
  | Some row => Some (tt, (insert_product row d).2)
  | None => None
  end.

(** The engine will refuse the first INSERT: the schedule lets the
    connection through and the statement breaks a constraint. *)
Definition refused (p : Payload) (st : App) : bool :=
  match faults st with
  | true :: _ => false
  | _ => match restore_row p (db st) with None => true | Some _ => false end
  end.

(** An INSERT of [undo_delete] will be refused: the first one, or, when
    the schedule fails the first connection and lets the second one
    through, the fallback.  A refused statement leaves its transaction
    open, and nothing closes the connection: [conn.close()] is skipped by
    the exception, the first connection is a local of [undo_last], and the
    one of the fallback lives on with the exception that left it.  The
    file stays locked for writing for the rest of the callback.  When the
    connection is reclaimed after the callback has returned is not fixed;
    a lock that outlives the callback is a failure of the later
    connections and belongs to their schedule. *)
Definition held_after (p : Payload) (st : App) : bool :=
  match faults st with
  | true :: true :: _ => false
  | true :: _ => match pl_data p with None => true | Some _ => false end
  | _ => refused p st
  end.

(** The row goes back under its old id; when that INSERT raises, a second
    connection inserts it without an id.  After a refused first INSERT the
    fallback finds the file locked, and so does the write of the log row.
    When the first connection fails by the schedule, whether the fallback
    gets through is the schedule's to say. *)
Definition undo_delete (p : Payload) : M unit :=
  do first_refused <- gets (refused p);
  do held <- gets (held_after p);
  try_except
    (connect (restore_row p))
    (attempt (if first_refused then busy else connect (fallback_row p))) ;;
  (if held then attempt busy else log_action "UNDO_DELETE") ;;
  status UndoneDelete.

Definition undo_last : M unit :=
  do entry <- _pop_undo_db;
  match entry with
  | None => show InfoNothingToUndo
  | Some e =>
      let act := entry_action e in
      let p := entry_payload e in
      do held <- gets (fun st => bool_decide (act = "DELETE"%string) && held_after p st);
      try_except
        (if bool_decide (act = "ADD"%string) then undo_add p
         else if bool_decide (act = "SELL"%string) then undo_sell p
         else if bool_decide (act = "DELETE"%string) then undo_delete p
         else show WarnNotUndoable)
        (show ErrUndoFailed) ;;
      if held then refresh_list_locked else refresh_list
  end.

(** *** The sales history window *)

(** [sel] is the selection of the history list, by sale id. *)
Definition _delete_sales_record (sel : list Z) (yes : bool) : M unit :=
  match sel with
  | [] => ret tt
  | sid :: _ =>
      show AskDeleteSale ;;
      if yes then
        db_execute (delete_sale sid) ;;
        log_action "DELETE_SALE" ;;
        update_report ;;
        show InfoSaleDeleted
      else ret tt
  end.

(** A key released in the search box, whose text is now [q]. *)
Definition search_typed (q : string) : M unit :=
  modify (fun st => set_search q (var_filter st) st) ;;
  refresh_list.

(** A choice in the filter menu. *)
Definition filter_chosen (f : Filter) : M unit :=
  modify (fun st => set_search (var_search st) f st) ;;
  refresh_list.

(** The operator clicks a row of the product list. *)
Definition click_row (pid : Z) : M unit :=
  modify (fun st => if bool_decide (pid ∈ tree st) then set_tree (tree st) [pid] st else st).

End Callbacks.

(** A blank form over the database [d]. *)
Definition blank (d : DB) (fs : list bool) (t : Z) : App :=
  mkApp d fs t EmptyString FilterAll [] [] [] Ready None [].

(** ** Texts *)

(** A Python [str]: its code points. *)
Abbreviation str := (list N).

(** The text of an ASCII literal. *)
Fixpoint codes (s : string) : str :=
  match s with
  | EmptyString => []
  | String a s' => Ascii.N_of_ascii a :: codes s'
  end.

(** [s.startswith(pre)]. *)
Fixpoint starts_with (pre s : str) : bool :=
  match pre, s with
  | [], _ => true
  | _ :: _, [] => false
  | c :: pre', x :: s' => (c =? x)%N && starts_with pre' s'
  end.

(** [s.replace(old, new)]: the occurrences of [old] are found from the left
    and do not overlap; [skip] counts the characters of an occurrence still
    to be passed over.  An empty [old] matches before every character and
    at the end. *)
Fixpoint replace_go (old new : str) (skip : nat) (s : str) : str :=
  match s with
  | [] => []
  | c :: s' =>
      match skip with
      | S k => replace_go old new k s'
      | O => if starts_with old s
             then new ++ replace_go old new (length old - 1) s'
             else c :: replace_go old new O s'
      end
  end.

Definition replace (old new s : str) : str :=
  match old with
  | [] => new ++ flat_map (fun c => c :: new) s
  | _ => replace_go old new 0 s
  end.

(** [c.isspace()]: the white space of Unicode. *)
Definition isspace (c : N) : bool :=
  ((9 <=? c) && (c <=? 13) || (28 <=? c) && (c <=? 32) || (c =? 133) || (c =? 160)
   || (c =? 5760) || (8192 <=? c) && (c <=? 8202) || (c =? 8232) || (c =? 8233)
   || (c =? 8239) || (c =? 8287) || (c =? 12288))%N.

Fixpoint lstrip (s : str) : str :=
  match s with
  | c :: s' => if isspace c then lstrip s' else s
  | [] => []
  end.

(** [s.strip()]. *)
Definition strip (s : str) : str := reverse (lstrip (reverse (lstrip s))).

(** Python's order on [str]: by code point, a proper prefix first. *)
Fixpoint str_le (a b : str) : bool :=
  match a, b with
  | [], _ => true
  | _ :: _, [] => false
  | x :: a', y :: b' => (x <? y)%N || ((x =? y)%N && str_le a' b')
  end.

Fixpoint insert_name (x : str) (l : list str) : list str :=
  match l with
  | [] => [x]
  | y :: l' => if str_le x y then x :: y :: l' else y :: insert_name x l'
  end.

(** [sorted(l)] on texts. *)
Definition sorted (l : list str) : list str := foldr insert_name [] l.

(** ** Prices as texts *)

(** The currency suffix: a space and the word Toman in Persian script. *)
Definition toman : str := [32; 1578; 1608; 1605; 1575; 1606]%N.

(** The digits of a decimal numeral. *)
Fixpoint uint_codes (u : Decimal.uint) : str :=
  match u with
  | Decimal.Nil => []
  | Decimal.D0 u' => 48%N :: uint_codes u'
  | Decimal.D1 u' => 49%N :: uint_codes u'
  | Decimal.D2 u' => 50%N :: uint_codes u'
  | Decimal.D3 u' => 51%N :: uint_codes u'
  | Decimal.D4 u' => 52%N :: uint_codes u'
  | Decimal.D5 u' => 53%N :: uint_codes u'
  | Decimal.D6 u' => 54%N :: uint_codes u'
  | Decimal.D7 u' => 55%N :: uint_codes u'
  | Decimal.D8 u' => 56%N :: uint_codes u'
  | Decimal.D9 u' => 57%N :: uint_codes u'
  end.

(** [str(v)]: the plain decimal numeral of an integer. *)
Definition numeral (v : Z) : str :=
  match v with
  | Z0 => [48%N]
  | Zpos p => uint_codes (Pos.to_uint p)
  | Zneg p => 45%N :: uint_codes (Pos.to_uint p)
  end.

(** A comma after every third digit, on the digits from the last to the
    first. *)
Fixpoint group_rev (ds : str) : str :=
  match ds with
  | a :: b :: c :: ((_ :: _) as rest) => a :: b :: c :: 44%N :: group_rev rest
  | _ => ds
  end.

(** [f"{v:,}"]. *)
Definition grouped (v : Z) : str :=
  match v with
  | Z0 => [48%N]
  | Zpos p => reverse (group_rev (reverse (uint_codes (Pos.to_uint p))))
  | Zneg p => 45%N :: reverse (group_rev (reverse (uint_codes (Pos.to_uint p))))
  end.

(** [format_price_display], on the integers the callers pass: [int(value)]
    is the value and does not raise. *)
Definition format_price_display (value : Z) : str := grouped value ++ toman.

Definition clean_price_text (txt : str) : str :=
  strip (replace toman [] (replace [44%N] [] txt)).

(** ** The sales history window *)

(** A line of the history list.  [None] as the name stands for the text
    shown for a sale whose product is not known. *)
Record HistoryRow := mkHistoryRow {
  hist_id : Z;
  hist_name : option string;
  hist_qty : Z;
  hist_buy : str;
  hist_sell : str;
  hist_profit : str;
  hist_time : Z
}.

(** [p.name] of the LEFT JOIN, taken as a condition in [pname or ...]: an
    empty name counts as none. *)
Definition joined_name (d : DB) (x : Sale) : option string :=
  match product_id x with
  | Some k =>
      match products d !! k with
      | Some r => if bool_decide (name r = EmptyString) then None else Some (name r)
      | None => None
      end
  | None => None
  end.

Definition history_row (d : DB) (kr : Z * Sale) : HistoryRow :=
  mkHistoryRow kr.1 (joined_name d kr.2) (sale_qty kr.2)
               (format_price_display (price_buy kr.2))
               (format_price_display (price_sell kr.2))
               (format_price_display (profit kr.2))
               (timestamp kr.2).

(** The query of [open_sales_history], [ORDER BY s.timestamp DESC LIMIT
    2000], and the lines made of its rows.  Rows of equal time stamp keep
    their id order. *)
Definition sales_history (d : DB) : list HistoryRow :=
  map (history_row d)
      (take 2000 (sort_by (fun kr => - timestamp kr.2) (scan (sales_log d)))).

(** [open_sales_history]: the lines it fills the window with. *)
Definition open_sales_history : M (list HistoryRow) := db_query sales_history.

(** ** Backups *)

(** What a file of the backup folder holds: a copy of the database, or
    what a copy that raised half way has written. *)
Inductive Backup := Whole (d : DB) | Torn.

(** The backup folder: its files by name. *)
Abbreviation Folder := (gmap str Backup).

(** How [shutil.copy2] ends: it returns, the destination written in full;
    or it raises, before it has opened the destination ([None]) or with the
    destination created, whole or not ([Some]). *)
Inductive Copy := Copied | CopyRaised (written : option Backup).

Definition backup_prefix : str := codes "inventory_backup_".

(** [files] of [keep_last_n_backups]: the names that start with the prefix,
    sorted.  (The paths sorted there share the folder as a prefix.) *)
Definition backups (folder : Folder) : list str :=
  sorted (filter (fun f => starts_with backup_prefix f = true)
                 (map fst (map_to_list folder))).

(** [files[:-n]]: for a positive [n] all but the last [n]; [-0] is [0], so
    for [n = 0] the slice is empty; for a negative [n] it is the first
    [-n]. *)
Definition all_but_last (n : Z) (files : list str) : list str :=
  if 0 <? n then take (length files - Z.to_nat n) files
  else take (Z.to_nat (- n)) files.

(** The loop over the files to remove; [fails] says which calls of
    [os.remove] raise, and a call that raises is passed over. *)
Fixpoint remove_all (fs : list str) (fails : list bool) (folder : Folder) : Folder :=
  match fs with
  | [] => folder
  | f :: fs' =>
      match fails with
      | true :: fails' => remove_all fs' fails' folder
      | _ => remove_all fs' (tail fails) (delete f folder)
      end
  end.

Definition keep_last_n_backups (n : Z) (fails : list bool) (folder : Folder) : Folder :=
  let files := backups folder in
  if n <? Z.of_nat (length files)
  then remove_all (all_but_last n files) fails folder
  else folder.

(** The file name for the time stamp [ts]. *)
Definition backup_name (ts : str) : str := backup_prefix ++ ts ++ codes ".db".

(** One pass of the loop of [worker] in [make_backup_periodic], at the time
    stamp [ts], the database file holding [d]: the copy, then the retention
    of 20.  When the copy raises the retention is not reached, and the
    folder keeps what the copy has left. *)
Definition worker_round (ts : str) (copy : Copy) (fails : list bool) (d : DB)
    (folder : Folder) : Folder :=
  match copy with
  | Copied => keep_last_n_backups 20 fails (<[backup_name ts := Whole d]> folder)
  | CopyRaised None => folder
  | CopyRaised (Some b) => <[backup_name ts := b]> folder
  end.

(** ** Vocabulary of the statements *)

(** The final state of a callback. *)
Definition run {A} (m : M A) (st : App) : App := (m st).2.

(** What the loop of [refresh_list] does to the file when no connection
    fails: every row it meets with no stock left is deleted. *)
Definition sweep_rows (rows : list (Z * Product)) (d : DB) : DB :=
  foldl (fun d' kr => if qty kr.2 <=? 0 then delete_product kr.1 d' else d') d rows.

(** The product [pid] has a row, with stock left. *)
Definition in_stock (d : DB) (pid : Z) : Prop :=
  exists r, products d !! pid = Some r /\ 0 < qty r.

Section Vocabulary.

Variable name_like : string -> string -> bool.

Definition sweep (q : string) (f : Filter) (d : DB) : DB :=
  sweep_rows (listing name_like q f d) d.

(** No product the list would show is out of stock: the state every
    [refresh_list] leaves behind. *)
Definition clean (q : string) (d : DB) : Prop :=
  map_Forall (fun _ r => listed name_like q r = true -> 0 < qty r) (products d).

(** The state in which the program waits for the operator when nothing has
    failed: no listed product is out of stock, and every row the list shows
    is a product in stock. *)
Definition settled (st : App) : Prop :=
  faults st = [] /\ clean (var_search st) (db st) /\
  forall pid, pid ∈ tree st -> in_stock (db st) pid.

End Vocabulary.

(** Stock is never negative. *)
Definition nonneg (d : DB) : Prop :=
  map_Forall (fun _ r => 0 <= qty r) (products d).

(** The quantities [undo_sell] writes back. *)
Definition restore_stock (p : Payload) (d : DB) : DB :=
  match pl_prev_qty p, pl_prev_sold p with
  | Some prev_qty, Some prev_sold =>
      where_id (pl_product_id p) (fun k => update_product k prev_qty prev_sold) d
  | _, _ =>
      where_id (pl_product_id p) (fun k => give_back_product k (default 1 (pl_qty p))) d
  end.

(** The quantity [sell_item] sells from a stock of [stock] when asked for
    [q] and allowed to cap. *)
Definition sold_amount (q stock : Z) : Z :=
  let q1 := if q <? 1 then 1 else q in
  if stock <? q1 then stock else q1.

(** [keeps I m]: the callback [m] takes a file satisfying [I] to a file
    satisfying [I], under every schedule of failures. *)
Definition keeps {A} (I : DB -> Prop) (m : M A) : Prop :=
  forall st, I (db st) -> I (db (m st).2).

(** [leaves_list m]: the callback does not touch [self._undo_stack]. *)
Definition leaves_list {A} (m : M A) : Prop :=
  forall st, _undo_stack (m st).2 = _undo_stack st.

(** ** Scenarios *)

(** A matcher to run the scenarios with: plain containment. *)
Definition contains (q n : string) : bool :=
  match String.index 0 q n with
  | Some _ => true
  | None => false
  end.

(** The program started on a new file, nothing failing. *)
Definition opened : App := run (startup contains) (blank init_db [] 0).

Definition tea_row : Product := mkProduct "Tea" 2 500 800 0.
Definition coffee_row : Product := mkProduct "Coffee" 3 1000 1500 0.

(** Add("Tea", 2, 500, 800), then a click on its row. *)
Definition tea : App :=
  run (click_row 1)
      (run (add_product contains "Tea" (Text (Some 2)) (Text (Some 500)) (Text (Some 800)))
           opened).

(** Add("Coffee", 3, 1000, 1500), then a click on its row. *)
Definition coffee : App :=
  run (click_row 1)
      (run (add_product contains "Coffee" (Text (Some 3)) (Text (Some 1000))
                        (Text (Some 1500)))
           opened).

(** Coffee sold out in one sale. *)
Definition coffee_sold_out : App := run (sell_item contains 3 true) coffee.

(** Two sales of one Coffee each. *)
Definition coffee_sold_twice : App :=
  run (sell_item contains 1 true)
      (run (click_row 1) (run (sell_item contains 1 true) coffee)).

(** ... and the second sales row deleted by hand in the history window. *)
Definition second_sale_erased : App :=
  run (_delete_sales_record [2] true) coffee_sold_twice.

(** The program started with a schedule in which the sixteenth connection
    fails; Tea is added, clicked and deleted.  The failing connection is the
    query of the refresh that closes [delete_item], so the list still shows
    and selects row 1 although the product is gone. *)
Definition stale : App :=
  run (delete_item contains true)
      (run (click_row 1)
           (run (add_product contains "Tea" (Text (Some 2)) (Text (Some 500))
                             (Text (Some 800)))
                (run (startup contains)
                     (blank init_db (replicate 15 false ++ [true]) 0)))).

(** The opened program about to run a command whose third connection
    fails. *)
Definition third_fails : App := set_faults [false; false; true] opened.

(** Coffee and Tea on the shelf, Tea selected. *)
Definition shelf : App :=
  run (click_row 2)
      (run (add_product contains "Tea" (Text (Some 2)) (Text (Some 500)) (Text (Some 800)))
           coffee).

(** Coffee sold once, and selected again. *)
Definition coffee_sold_once : App :=
  run (click_row 1) (run (sell_item contains 1 true) coffee).

(** A product added with no stock: the refresh has deleted its row, the
    undo entry of the Add is on the stack. *)
Definition ghost : App :=
  run (add_product contains "Ghost" (Text (Some 0)) (Text (Some 500)) (Text (Some 800)))
      opened.

(** A file whose undo table holds an entry this program does not write. *)
Definition foreign : App :=
  blank (set_undo_stack {[ 1 := mkUndoRow "EDIT" (mkPayload (Some 1) None None None None None) 0 ]}
                        1 init_db) [] 1.

(** The shelf, about to run a command whose first connection fails. *)
Definition first_fails : App := set_faults [true] shelf.

(** Tea deleted from the shelf. *)
Definition tea_deleted : App := run (delete_item contains true) shelf.

(** Tea, selected, and a Delete whose DELETE statement fails: the undo
    entry is stored, the callback raises, Tea is still in the table. *)
Definition jammed : App :=
  run (delete_item contains true) (set_faults [false; false; true] tea).

(** The program started again on the file that leaves. *)
Definition reopened : App := run (startup contains) (blank (db jammed) [] 10).

(** Coffee sold once, about to run an Undo whose second connection
    fails. *)
Definition compensation_fails : App := set_faults [false; true] coffee_sold_once.

(** Three products whose gains are beyond the 64-bit integers, listed by
    gain: [2 * (2^62 + 1)], [2 * (2^62 + 2)] and [2 * (2^62 + 2000)]. *)
Definition fortune (n : string) (price : Z) : Product := mkProduct n 1 0 price 2.

Definition fortunes : App :=
  run (filter_chosen contains FilterMostProfit)
      (blank (set_products {[ 1 := fortune "A" (2 ^ 62 + 1);
                              2 := fortune "B" (2 ^ 62 + 2);
                              3 := fortune "C" (2 ^ 62 + 2000) ]} 3 init_db) [] 0).

(** A backup folder: three backups and a file of another name. *)
Definition backup_shelf : Folder :=
  {[ backup_name (codes "20240101_000000") := Whole init_db;
     backup_name (codes "20240102_000000") := Whole (db coffee);
     backup_name (codes "20240103_000000") := Whole (db shelf);
     codes "notes.txt" := Torn ]}.

(** ** Vocabulary of the further properties *)

(** [holds I m]: the callback [m] takes a state satisfying [I] to a state
    satisfying [I], under every schedule of failures. *)
Definition holds {A} (I : App -> Prop) (m : M A) : Prop :=
  forall st, I st -> I (m st).2.

(** The in-memory undo list as [_load_undo_stack] builds it from the table. *)
Definition mirror_of (d : DB) : list UndoEntry :=
  map (fun kr => mkUndoEntry kr.1 (action kr.2) (payload kr.2)) (scan (undo_stack d)).

(** [self._undo_stack] mirrors the table (the comment at its declaration). *)
Definition mirrored (st : App) : Prop := _undo_stack st = mirror_of (db st).

(** The figures [update_report] computes from the tables. *)
Definition report_of (d : DB) : Report :=
  mkReport (Z.of_nat (size (products d)))
           (sum_over qty (products d))
           (stock_value (products d))
           (sum_over sold_qty (products d))
           (sum_over profit (sales_log d)).

(** The summary line agrees with the tables. *)
Definition reported (st : App) : Prop := report_label st = Some (report_of (db st)).

(** The rows of a listing that [refresh_list] inserts into the list. *)
Definition shown (f : Filter) (kr : Z * Product) : bool :=
  (0 <? qty kr.2) && negb (match f with FilterBelow5 => 5 <=? qty kr.2 | _ => false end).

(** A column of the products table, read at the row [k]. *)
Definition column (f : Product -> Z) (d : DB) (k : Z) : Z :=
  from_option f 0 (products d !! k).

(** The sort key of the "most profitable" filter. *)
(** The gain of a product in exact arithmetic; [profit_key] is what the
    engine makes of it. *)
Definition gain (r : Product) : Z := sold_qty r * (sell_price r - buy_price r).

(** Ascending by [key]; among equal keys, in the order [R]. *)
Definition by_key {A} (key : A -> Z) (R : relation A) : relation A :=
  fun a b => key a < key b \/ (key a = key b /\ R a b).

(** A sales row whose product reference the foreign key has unset. *)
Definition unlink (x : Sale) : Sale :=
  mkSale None (sale_qty x) (price_buy x) (price_sell x) (profit x) (timestamp x).

(** The id [p] has been given out and has no row: with AUTOINCREMENT no
    later INSERT is given it. *)
Definition retired (p : Z) (d : DB) : Prop :=
  p <= products_seq d /\ products d !! p = None.

(** The order of the names, as a relation. *)
Definition le_name (a b : str) : Prop := str_le a b = true.

(** The foreign key of the sales log: a product reference that is set
    points to a row of the products table. *)
Definition linked (d : DB) : Prop :=
  map_Forall (fun _ x => forall k, product_id x = Some k -> is_Some (products d !! k))
             (sales_log d).

(** The AUTOINCREMENT counter of the products is not below any id in the
    table. *)
Definition covered (d : DB) : Prop :=
  map_Forall (fun k _ => k <= products_seq d) (products d).

Section MoreVocabulary.

Variable name_like : string -> string -> bool.

(** The ids the list shows after a refresh of the file [d]. *)
Definition list_of (q : string) (f : Filter) (d : DB) : list Z :=
  map fst (filter (fun kr => shown f kr = true) (listing name_like q f d)).

(** What [refresh_list] makes of the state [mid] when nothing fails. *)
Definition refreshed_from (mid st' : App) : Prop :=
  faults st' = [] /\
  var_search st' = var_search mid /\ var_filter st' = var_filter mid /\
  db st' = sweep name_like (var_search mid) (var_filter mid) (db mid) /\
  tree st' = list_of (var_search mid) (var_filter mid) (db mid) /\
  selection st' = [] /\
  reported st' /\
  dialogs st' = dialogs mid /\
  _undo_stack st' = _undo_stack mid.

(** What [refresh_list_locked] makes of it: the same list and summary, the
    file as it was. *)
Definition refreshed_locked (mid st' : App) : Prop :=
  faults st' = [] /\
  var_search st' = var_search mid /\ var_filter st' = var_filter mid /\
  db st' = db mid /\
  tree st' = list_of (var_search mid) (var_filter mid) (db mid) /\
  selection st' = [] /\
  reported st' /\
  dialogs st' = dialogs mid /\
  _undo_stack st' = _undo_stack mid.

End MoreVocabulary.

(** * Properties *)

(** ** Row ids *)

Lemma max_rowid_ge {A} (m : gmap Z A) (k : Z) :
  is_Some (m !! k) -> k <= max_rowid m.
Proof.
  unfold max_rowid.
  apply (map_fold_weak_ind
           (fun acc (m : gmap Z A) => is_Some (m !! k) -> k <= acc)).
  - rewrite lookup_empty. intros [x Hx]. discriminate.
  - intros i x m' acc _ IH Hk.
    destruct (decide (i = k)) as [->|Hne]; [lia|].
    rewrite lookup_insert_ne in Hk by done. specialize (IH Hk). lia.
Qed.

Lemma next_rowid_above {A} (m : gmap Z A) (s k : Z) :
  is_Some (m !! k) -> k < next_rowid m s.
Proof. intros Hk. apply max_rowid_ge in Hk. unfold next_rowid. lia. Qed.

Lemma next_rowid_fresh {A} (m : gmap Z A) (s : Z) :
  m !! next_rowid m s = None.
Proof.
  destruct (m !! next_rowid m s) eqn:E; [|done].
  assert (H : is_Some (m !! next_rowid m s)) by eauto.
  apply (next_rowid_above m s) in H. lia.
Qed.

Lemma last_row_max {A} (m : gmap Z A) :
  match last_row m with
  | Some (k, v) => m !! k = Some v /\ forall k', is_Some (m !! k') -> k' <= k
  | None => m = ∅
  end.
Proof.
  unfold last_row.
  apply (map_fold_weak_ind
           (fun acc (m : gmap Z A) =>
              match acc with
              | Some (k, v) => m !! k = Some v /\ forall k', is_Some (m !! k') -> k' <= k
              | None => m = ∅
              end)); [done|].
  intros i x m' acc Hi IH. destruct acc as [[k v]|].
  - destruct IH as [Hk Hmax]. destruct (k <? i) eqn:E.
    + apply Z.ltb_lt in E. split; [apply lookup_insert_eq|].
      intros k' Hk'. destruct (decide (i = k')) as [->|Hne]; [lia|].
      rewrite lookup_insert_ne in Hk' by done. specialize (Hmax _ Hk'). lia.
    + apply Z.ltb_ge in E. split.
      * rewrite lookup_insert_ne; [done|]. intros ->. rewrite Hi in Hk. discriminate.
      * intros k' Hk'. destruct (decide (i = k')) as [->|Hne]; [lia|].
        rewrite lookup_insert_ne in Hk' by done. auto.
  - subst m'. split; [apply lookup_insert_eq|].
    intros k' Hk'. destruct (decide (i = k')) as [->|Hne]; [lia|].
    rewrite lookup_insert_ne, lookup_empty in Hk' by done.
    destruct Hk' as [? ?]; discriminate.
Qed.

(** The row just appended under a new id is the one [ORDER BY id DESC
    LIMIT 1] returns. *)
Lemma last_row_insert_next {A} (m : gmap Z A) (s : Z) (v : A) :
  last_row (<[next_rowid m s := v]> m) = Some (next_rowid m s, v).
Proof.
  pose proof (last_row_max (<[next_rowid m s := v]> m)) as H.
  destruct (last_row (<[next_rowid m s := v]> m)) as [[k w]|].
  - destruct H as [Hk Hmax].
    destruct (decide (next_rowid m s = k)) as [<-|Hne].
    + rewrite lookup_insert_eq in Hk. congruence.
    + rewrite lookup_insert_ne in Hk by done.
      assert (Hlt : k < next_rowid m s) by (apply next_rowid_above; eauto).
      assert (Hle : next_rowid m s <= k).
      { apply Hmax. rewrite lookup_insert_eq. eauto. }
      lia.
  - exfalso. apply (insert_non_empty m (next_rowid m s) v). exact H.
Qed.

(** ** Listings *)

Lemma insert_by_perm {A} (key : A -> Z) (x : A) (l : list A) :
  insert_by key x l ≡ₚ x :: l.
Proof.
  induction l as [|y l IH]; simpl; [done|].
  destruct (key x <=? key y); [done|].
  rewrite IH. apply Permutation_swap.
Qed.

Lemma sort_by_perm {A} (key : A -> Z) (l : list A) : sort_by key l ≡ₚ l.
Proof.
  induction l as [|x l IH]; simpl; [done|].
  unfold sort_by in *. simpl. rewrite insert_by_perm. by rewrite IH.
Qed.

Lemma elem_of_sort_by {A} (key : A -> Z) (l : list A) (x : A) :
  x ∈ sort_by key l <-> x ∈ l.
Proof. by rewrite sort_by_perm. Qed.

Lemma elem_of_scan {A} (m : gmap Z A) (k : Z) (v : A) :
  (k, v) ∈ scan m <-> m !! k = Some v.
Proof. unfold scan. rewrite elem_of_sort_by. apply elem_of_map_to_list. Qed.

(** ** The sweep of the rows out of stock *)

Lemma delete_product_lookup (k k' : Z) (d : DB) :
  products (delete_product k d) !! k' =
  if bool_decide (k = k') then None else products d !! k'.
Proof.
  unfold delete_product. case_bool_decide as E.
  - subst k'. destruct (products d !! k) eqn:Hk; simpl; [apply lookup_delete_eq|done].
  - destruct (products d !! k) eqn:Hk; simpl; [by apply lookup_delete_ne|done].
Qed.

Lemma delete_product_undo_stack (k : Z) (d : DB) :
  undo_stack (delete_product k d) = undo_stack d.
Proof. unfold delete_product. by destruct (products d !! k). Qed.

Lemma delete_product_sale (k s : Z) (d : DB) (x : Sale) :
  sales_log d !! s = Some x -> product_id x <> Some k ->
  sales_log (delete_product k d) !! s = Some x.
Proof.
  intros Hs Hne. unfold delete_product. destruct (products d !! k); [|done].
  simpl. rewrite lookup_fmap, Hs. simpl. unfold forget_product.
  by rewrite bool_decide_eq_false_2.
Qed.

Lemma delete_product_sales_dom (k : Z) (d : DB) :
  dom (sales_log (delete_product k d)) = dom (sales_log d).
Proof.
  unfold delete_product. destruct (products d !! k); [|done].
  simpl. apply dom_fmap_L.
Qed.

Lemma sweep_rows_sub rows d k r :
  products (sweep_rows rows d) !! k = Some r -> products d !! k = Some r.
Proof.
  revert d. induction rows as [|[pid r1] rows IH]; intros d; simpl; [done|].
  intros H. apply IH in H. destruct (qty r1 <=? 0); [|done].
  rewrite delete_product_lookup in H. by case_bool_decide.
Qed.

Lemma sweep_rows_keep rows d k r :
  products d !! k = Some r ->
  (forall r', (k, r') ∈ rows -> 0 < qty r') ->
  products (sweep_rows rows d) !! k = Some r.
Proof.
  revert d. induction rows as [|[pid r1] rows IH]; intros d Hk Hpos; simpl; [done|].
  apply IH; [|intros r' Hr'; apply Hpos; by right].
  destruct (qty r1 <=? 0) eqn:E; [|done].
  rewrite delete_product_lookup. case_bool_decide as Hp; [|done].
  subst pid. apply Z.leb_le in E.
  assert (0 < qty r1) by (apply Hpos; left). lia.
Qed.

Lemma sweep_rows_gone rows d k r :
  (k, r) ∈ rows -> qty r <= 0 -> products (sweep_rows rows d) !! k = None.
Proof.
  revert d. induction rows as [|[pid r1] rows IH]; intros d Hin Hq; simpl.
  - by apply elem_of_nil in Hin.
  - apply elem_of_cons in Hin as [Heq|Hin]; [|by apply IH].
    inversion Heq; subst pid r1. apply Z.leb_le in Hq. rewrite Hq.
    destruct (products (sweep_rows rows (delete_product k d)) !! k) eqn:E; [|done].
    apply sweep_rows_sub in E. rewrite delete_product_lookup in E.
    by rewrite bool_decide_eq_true_2 in E.
Qed.

Lemma sweep_rows_id rows d :
  (forall k r, (k, r) ∈ rows -> 0 < qty r) -> sweep_rows rows d = d.
Proof.
  revert d. induction rows as [|[pid r1] rows IH]; intros d Hpos; simpl; [done|].
  assert (0 < qty r1) as H by (apply (Hpos pid); left).
  apply Z.leb_gt in H. rewrite H. apply IH. intros k r Hin. apply (Hpos k). by right.
Qed.

Lemma sweep_rows_undo_stack rows d :
  undo_stack (sweep_rows rows d) = undo_stack d.
Proof.
  revert d. induction rows as [|[pid r1] rows IH]; intros d; simpl; [done|].
  rewrite IH. destruct (qty r1 <=? 0); [apply delete_product_undo_stack|done].
Qed.

Lemma sweep_rows_sales_dom rows d :
  dom (sales_log (sweep_rows rows d)) = dom (sales_log d).
Proof.
  revert d. induction rows as [|[pid r1] rows IH]; intros d; simpl; [done|].
  rewrite IH. destruct (qty r1 <=? 0); [apply delete_product_sales_dom|done].
Qed.

Lemma sweep_rows_sale rows d s x k :
  sales_log d !! s = Some x -> product_id x = Some k ->
  (forall r', (k, r') ∈ rows -> 0 < qty r') ->
  sales_log (sweep_rows rows d) !! s = Some x.
Proof.
  revert d. induction rows as [|[pid r1] rows IH]; intros d Hs Hp Hpos; simpl; [done|].
  apply IH; [|done|intros r' Hr'; apply Hpos; by right].
  destruct (qty r1 <=? 0) eqn:E; [|done].
  apply delete_product_sale; [done|]. rewrite Hp. intros [= ->].
  apply Z.leb_le in E. assert (0 < qty r1) by (apply Hpos; left). lia.
Qed.

Lemma sweep_rows_sale_unset rows d s x :
  sales_log d !! s = Some x -> product_id x = None ->
  sales_log (sweep_rows rows d) !! s = Some x.
Proof.
  revert d. induction rows as [|[pid r1] rows IH]; intros d Hs Hp; simpl; [done|].
  apply IH; [|done]. destruct (qty r1 <=? 0); [|done].
  apply delete_product_sale; [done|]. by rewrite Hp.
Qed.

Lemma sweep_rows_sale_forgotten rows d s x k r r' :
  sales_log d !! s = Some x -> product_id x = Some k ->
  products d !! k = Some r' -> (k, r) ∈ rows -> qty r <= 0 ->
  sales_log (sweep_rows rows d) !! s = Some (forget_product k x).
Proof.
  revert d. induction rows as [|[pid r1] rows IH]; intros d Hs Hp Hk Hin Hq; simpl.
  - by apply elem_of_nil in Hin.
  - destruct (qty r1 <=? 0) eqn:E.
    + destruct (decide (pid = k)) as [->|Hne].
      * apply sweep_rows_sale_unset.
        -- unfold delete_product. rewrite Hk. simpl. by rewrite lookup_fmap, Hs.
        -- unfold forget_product. by rewrite bool_decide_eq_true_2.
      * apply elem_of_cons in Hin as [Heq|Hin]; [inversion Heq; congruence|].
        apply IH; [|done| |done..].
        -- apply delete_product_sale; [done|]. rewrite Hp. congruence.
        -- rewrite delete_product_lookup. by rewrite bool_decide_eq_false_2.
    + apply elem_of_cons in Hin as [Heq|Hin]; [|by apply IH].
      inversion Heq; subst. apply Z.leb_gt in E. lia.
Qed.

Lemma sweep_rows_nonneg rows d : nonneg d -> nonneg (sweep_rows rows d).
Proof. intros H k r Hk. apply sweep_rows_sub in Hk. by apply (H k). Qed.

Section Sweep.

Variable name_like : string -> string -> bool.

Lemma elem_of_listing q f d k r :
  (k, r) ∈ listing name_like q f d <->
  products d !! k = Some r /\ listed name_like q r = true.
Proof.
  unfold listing.
  destruct f; rewrite ?elem_of_sort_by, list_elem_of_filter, elem_of_scan; simpl; tauto.
Qed.

Lemma sweep_sub q f d k r :
  products (sweep name_like q f d) !! k = Some r -> products d !! k = Some r.
Proof. apply sweep_rows_sub. Qed.

(** Only a listed product that is out of stock is swept. *)
Lemma sweep_keep_unless q f d k r :
  products d !! k = Some r -> (listed name_like q r = true -> 0 < qty r) ->
  products (sweep name_like q f d) !! k = Some r.
Proof.
  intros Hk Hq. apply sweep_rows_keep; [done|].
  intros r' Hin. apply elem_of_listing in Hin as [Hin Hl].
  assert (r' = r) as -> by congruence. by apply Hq.
Qed.

(** A product in stock is never swept. *)
Lemma sweep_keep q f d k r :
  products d !! k = Some r -> 0 < qty r ->
  products (sweep name_like q f d) !! k = Some r.
Proof. intros Hk Hq. by apply sweep_keep_unless. Qed.

Lemma sweep_absent q f d k :
  products d !! k = None -> products (sweep name_like q f d) !! k = None.
Proof.
  intros Hk. destruct (products (sweep name_like q f d) !! k) eqn:E; [|done].
  apply sweep_sub in E. congruence.
Qed.

(** Row by row: the sweep removes the listed rows that are out of stock and
    keeps every other row as it is. *)
Lemma sweep_lookup q f d k :
  products (sweep name_like q f d) !! k =
  match products d !! k with
  | Some r => if listed name_like q r && (qty r <=? 0) then None else Some r
  | None => None
  end.
Proof.
  destruct (products d !! k) as [r|] eqn:Hk; [|by apply sweep_absent].
  destruct (listed name_like q r) eqn:Hl; simpl.
  - destruct (qty r <=? 0) eqn:Hq.
    + apply Z.leb_le in Hq. apply (sweep_rows_gone _ _ k r); [|done].
      by apply elem_of_listing.
    + apply Z.leb_gt in Hq. by apply sweep_keep.
  - apply sweep_keep_unless; [done|]. intros; congruence.
Qed.

(** A sale of a listed product that is out of stock loses its product
    reference. *)
Lemma sweep_sale_forgotten q f d s x k r :
  sales_log d !! s = Some x -> product_id x = Some k ->
  products d !! k = Some r -> listed name_like q r = true -> qty r <= 0 ->
  sales_log (sweep name_like q f d) !! s = Some (forget_product k x).
Proof.
  intros Hs Hp Hk Hl Hq. apply (sweep_rows_sale_forgotten _ _ _ _ _ r r); [done..| |done].
  by apply elem_of_listing.
Qed.

Lemma sweep_clean q f d : clean name_like q (sweep name_like q f d).
Proof.
  intros k r Hk Hl. destruct (Z_lt_le_dec 0 (qty r)) as [|Hle]; [done|].
  pose proof (sweep_sub _ _ _ _ _ Hk) as Hk0.
  unfold sweep in Hk.
  rewrite (sweep_rows_gone _ d k r) in Hk; [done| |done].
  by apply elem_of_listing.
Qed.

Lemma sweep_id q f d : clean name_like q d -> sweep name_like q f d = d.
Proof.
  intros Hc. apply sweep_rows_id. intros k r Hin.
  apply elem_of_listing in Hin as [Hk Hl]. by apply (Hc k).
Qed.

Lemma sweep_undo_stack q f d : undo_stack (sweep name_like q f d) = undo_stack d.
Proof. apply sweep_rows_undo_stack. Qed.

Lemma sweep_sales_dom q f d :
  dom (sales_log (sweep name_like q f d)) = dom (sales_log d).
Proof. apply sweep_rows_sales_dom. Qed.

(** A sale of a product in stock keeps its product reference. *)
Lemma sweep_sale q f d s x k r :
  sales_log d !! s = Some x -> product_id x = Some k ->
  products d !! k = Some r -> 0 < qty r ->
  sales_log (sweep name_like q f d) !! s = Some x.
Proof.
  intros Hs Hp Hk Hq. apply (sweep_rows_sale _ _ _ _ k); [done..|].
  intros r' Hin. apply elem_of_listing in Hin as [Hin _]. congruence.
Qed.

End Sweep.

(** ** Running a callback when no connection fails *)

Lemma set_faults_same st : set_faults (faults st) st = st.
Proof. by destruct st. Qed.

Lemma set_db_same st : set_db (db st) st = st.
Proof. by destruct st. Qed.

Lemma bind_val {A B} (m : M A) (k : A -> M B) st a st' :
  m st = (Val a, st') -> bind m k st = k a st'.
Proof. intros H. unfold bind. by rewrite H. Qed.

Lemma bind_raised {A B} (m : M A) (k : A -> M B) st st' :
  m st = (Raised, st') -> bind m k st = (Raised, st').
Proof. intros H. unfold bind. by rewrite H. Qed.

Lemma try_val {A} (m h : M A) st a st' :
  m st = (Val a, st') -> try_except m h st = (Val a, st').
Proof. intros H. unfold try_except. by rewrite H. Qed.

Lemma try_raised {A} (m h : M A) st st' :
  m st = (Raised, st') -> try_except m h st = h st'.
Proof. intros H. unfold try_except. by rewrite H. Qed.

(** One step of a run: the first computation of a [bind] is replaced by its
    result. *)
Ltac pure_step := erewrite bind_val; [|reflexivity].
Tactic Notation "exec" tactic3(t) := erewrite bind_val; [|solve [t]].

Lemma connect_ok {A} (f : DB -> option (A * DB)) st a d :
  faults st = [] -> f (db st) = Some (a, d) ->
  connect f st = (Val a, set_db d st).
Proof.
  intros Hf Hd. unfold connect. rewrite Hf, Hd. simpl.
  rewrite <- Hf. by rewrite set_faults_same.
Qed.

Lemma connect_refused {A} (f : DB -> option (A * DB)) st :
  faults st = [] -> f (db st) = None -> connect f st = (Raised, st).
Proof.
  intros Hf Hd. unfold connect. rewrite Hf, Hd. simpl.
  rewrite <- Hf. by rewrite set_faults_same.
Qed.

Lemma db_execute_ok stmt st :
  faults st = [] -> db_execute stmt st = (Val tt, set_db (stmt (db st)) st).
Proof. intros Hf. by apply connect_ok. Qed.

Lemma db_query_ok {A} (q : DB -> A) st :
  faults st = [] -> db_query q st = (Val (q (db st)), st).
Proof.
  intros Hf. unfold db_query. erewrite connect_ok; [|done..].
  by rewrite set_db_same.
Qed.

(** A query either answers or raises; it changes nothing but the schedule. *)
Lemma db_query_cases {A} (q : DB -> A) st :
  exists fs, db_query q st = (Val (q (db st)), set_faults fs st) \/
             db_query q st = (Raised, set_faults fs st).
Proof.
  exists (tail (faults st)). unfold db_query, connect.
  destruct (faults st) as [|[|] fs]; simpl; auto; left; by destruct st.
Qed.

Lemma log_action_ok a st :
  faults st = [] -> log_action a st = (Val tt, set_db (insert_log a (db st)) st).
Proof.
  intros Hf. unfold log_action, attempt.
  apply try_val. by apply db_execute_ok.
Qed.

Lemma _push_undo_ok a p st :
  faults st = [] ->
  _push_undo a p st =
  (Val tt,
   set_undo_list
     (_undo_stack st ++ [mkUndoEntry (insert_undo a p (clock st) (db st)).1 a p])
     (set_db (insert_undo a p (clock st) (db st)).2 (set_clock (clock st + 1) st))).
Proof.
  intros Hf. unfold _push_undo, attempt. apply try_val.
  pure_step.
  erewrite bind_val; [|apply connect_ok; [exact Hf|reflexivity]].
  reflexivity.
Qed.

Lemma update_report_ok st :
  faults st = [] -> exists rep, update_report st = (Val tt, set_report rep st).
Proof.
  intros Hf. unfold update_report.
  exec (by apply db_query_ok).
  exec (by apply db_query_ok).
  eexists. reflexivity.
Qed.

Lemma run_eq {A} (m : M A) st (a : Res A) st' : m st = (a, st') -> run m st = st'.
Proof. intros H. unfold run. by rewrite H. Qed.

Lemma attempt_execute_tree stmt st :
  exists st1, attempt (db_execute stmt) st = (Val tt, st1) /\ tree st1 = tree st.
Proof.
  unfold attempt, try_except, db_execute, connect.
  destruct (faults st) as [|[|] fs]; simpl; eexists; split; reflexivity.
Qed.

Section RefreshOk.

Variable name_like : string -> string -> bool.

Lemma show_rows_ok f rows st :
  faults st = [] ->
  exists t, show_rows f rows st =
            (Val tt, set_tree t (selection st) (set_db (sweep_rows rows (db st)) st)).
Proof.
  revert st. induction rows as [|[pid r] rows IH]; intros st Hf; simpl.
  - exists (tree st). unfold ret. by destruct st.
  - destruct (qty r <=? 0).
    + erewrite bind_val;
        [|unfold attempt; apply try_val; by apply db_execute_ok].
      destruct (IH (set_db (delete_product pid (db st)) st) Hf) as [t Ht].
      exists t. rewrite Ht. reflexivity.
    + destruct (match f with FilterBelow5 => 5 <=? qty r | _ => false end).
      * apply IH, Hf.
      * pure_step.
        destruct (IH (set_tree (tree st ++ [pid]) (selection st) st) Hf) as [t Ht].
        exists t. rewrite Ht. reflexivity.
Qed.

Lemma show_rows_tree f rows st pid :
  pid ∈ tree (run (show_rows f rows) st) ->
  pid ∈ tree st \/ exists r, (pid, r) ∈ rows /\ 0 < qty r.
Proof.
  revert st. induction rows as [|[k r] rows IH]; intros st; simpl; [by left|].
  destruct (qty r <=? 0) eqn:E.
  - destruct (attempt_execute_tree (delete_product k) st) as (st1 & H1 & Ht).
    unfold run. exec (exact H1). intros Hin.
    destruct (IH st1 Hin) as [Hin'|(r' & Hin' & Hq)].
    + left. by rewrite <- Ht.
    + right. exists r'. split; [by right|done].
  - apply Z.leb_gt in E.
    destruct (match f with FilterBelow5 => 5 <=? qty r | _ => false end).
    + intros Hin. destruct (IH st Hin) as [Hin'|(r' & Hin' & Hq)]; [by left|].
      right. exists r'. split; [by right|done].
    + unfold run. pure_step. intros Hin.
      destruct (IH _ Hin) as [Hin'|(r' & Hin' & Hq)].
      * simpl in Hin'. apply elem_of_app in Hin' as [Hin'|Hin']; [by left|].
        apply list_elem_of_singleton in Hin' as ->.
        right. exists r. split; [left|done].
      * right. exists r'. split; [by right|done].
Qed.

(** A refresh with no storage failure: the file is swept, the list is
    rebuilt from the rows in stock and nothing is selected. *)
Lemma refresh_list_ok st :
  faults st = [] ->
  exists t rep,
    refresh_list name_like st =
    (Val tt, set_report rep (set_tree t []
               (set_db (sweep name_like (var_search st) (var_filter st) (db st)) st))) /\
    forall pid, pid ∈ t ->
                in_stock (sweep name_like (var_search st) (var_filter st) (db st)) pid.
Proof.
  intros Hf. unfold refresh_list.
  pure_step.
  pure_step.
  exec (by apply db_query_ok).
  pure_step.
  set (rows := listing name_like (var_search st) (var_filter st) (db st)).
  destruct (show_rows_ok (var_filter st) rows (set_tree [] [] st) Hf) as [t Ht].
  pose proof (show_rows_tree (var_filter st) rows (set_tree [] [] st)) as Htree.
  rewrite (run_eq _ _ _ _ Ht) in Htree.
  exec (exact Ht).
  match goal with |- context [update_report ?s] =>
    destruct (update_report_ok s Hf) as [rep Hrep]; rewrite Hrep end.
  exists t, rep. split; [reflexivity|].
  intros pid Hin. destruct (Htree pid Hin) as [Hnil|(r & Hr & Hq)].
  - simpl in Hnil. by apply elem_of_nil in Hnil.
  - exists r. split; [|done]. apply elem_of_listing in Hr as [Hr _].
    by apply sweep_keep.
Qed.

(** On rows in stock the refresh writes nothing, and a locked file makes
    no difference to it. *)
Lemma show_rows_locked_in_stock f rows :
  (forall kr, kr ∈ rows -> 0 < qty kr.2) ->
  show_rows_locked f rows = show_rows f rows.
Proof.
  induction rows as [|[pid r] rows IH]; intros H; simpl; [done|].
  assert (Hq : (qty r <=? 0) = false).
  { apply Z.leb_gt. apply (H (pid, r)). apply elem_of_cons. by left. }
  rewrite Hq, IH; [done|]. intros kr Hkr. apply H. apply elem_of_cons. by right.
Qed.

Lemma refresh_list_locked_clean st :
  clean name_like (var_search st) (db st) ->
  refresh_list_locked name_like st = refresh_list name_like st.
Proof.
  intros Hc. unfold refresh_list_locked, refresh_list.
  pure_step. pure_step. symmetry. pure_step. pure_step. symmetry.
  destruct (db_query_cases (listing name_like (var_search st) (var_filter st)) st)
    as (fs & [Hq|Hq]).
  - erewrite bind_val; [|exact Hq]. symmetry. erewrite bind_val; [|exact Hq].
    rewrite show_rows_locked_in_stock; [done|].
    intros [k r] Hkr. apply elem_of_listing in Hkr as [Hk Hl]. by apply (Hc k).
  - erewrite bind_raised; [|exact Hq]. symmetry. by erewrite bind_raised; [|exact Hq].
Qed.

End RefreshOk.


Lemma _pop_undo_db_ok st uid row :
  faults st = [] -> last_row (undo_stack (db st)) = Some (uid, row) ->
  _pop_undo_db st =
  (Val (Some (mkUndoEntry uid (action row) (payload row))),
   set_undo_list (forget_entry uid (_undo_stack st)) (set_db (delete_undo uid (db st)) st)).
Proof.
  intros Hf Hl. unfold _pop_undo_db. apply try_val.
  erewrite bind_val; [|apply connect_ok; [exact Hf|]; rewrite Hl; reflexivity].
  reflexivity.
Qed.

Section CommandsOk.

Variable name_like : string -> string -> bool.

Local Abbreviation sweep := (sweep name_like).
Local Abbreviation clean := (clean name_like).

(** [undo_last] on a stack whose top is [row], whatever the action: the
    entry is popped, the branch for its action runs, and the list is
    refreshed, by the locked refresh when an INSERT of the restore was
    refused. *)
Lemma undo_last_unfold st uid row st2 :
  faults st = [] -> last_row (undo_stack (db st)) = Some (uid, row) ->
  (if bool_decide (action row = "ADD"%string) then undo_add (payload row)
   else if bool_decide (action row = "SELL"%string) then undo_sell (payload row)
   else if bool_decide (action row = "DELETE"%string) then undo_delete (payload row)
   else show WarnNotUndoable)
    (set_undo_list (forget_entry uid (_undo_stack st)) (set_db (delete_undo uid (db st)) st))
  = (Val tt, st2) ->
  undo_last name_like st =
  (if bool_decide (action row = "DELETE"%string) &&
      held_after (payload row)
        (set_undo_list (forget_entry uid (_undo_stack st))
                       (set_db (delete_undo uid (db st)) st))
   then refresh_list_locked name_like else refresh_list name_like) st2.
Proof.
  intros Hf Hl Hbody. unfold undo_last.
  exec (by apply _pop_undo_db_ok).
  cbn [entry_action entry_payload]. pure_step.
  erewrite bind_val; [|apply try_val; exact Hbody].
  reflexivity.
Qed.

Lemma undo_last_ok st uid row st2 :
  faults st = [] -> last_row (undo_stack (db st)) = Some (uid, row) ->
  (if bool_decide (action row = "ADD"%string) then undo_add (payload row)
   else if bool_decide (action row = "SELL"%string) then undo_sell (payload row)
   else if bool_decide (action row = "DELETE"%string) then undo_delete (payload row)
   else show WarnNotUndoable)
    (set_undo_list (forget_entry uid (_undo_stack st)) (set_db (delete_undo uid (db st)) st))
  = (Val tt, st2) ->
  bool_decide (action row = "DELETE"%string) &&
    held_after (payload row)
      (set_undo_list (forget_entry uid (_undo_stack st)) (set_db (delete_undo uid (db st)) st))
  = false ->
  faults st2 = [] ->
  exists t rep,
    undo_last name_like st =
    (Val tt, set_report rep (set_tree t []
               (set_db (sweep (var_search st2) (var_filter st2) (db st2)) st2))) /\
    forall pid, pid ∈ t -> in_stock (sweep (var_search st2) (var_filter st2) (db st2)) pid.
Proof.
  intros Hf Hl Hbody Hheld Hf2.
  rewrite (undo_last_unfold st uid row st2 Hf Hl Hbody), Hheld.
  by apply refresh_list_ok.
Qed.

(** The same from a state in which no listed product is out of stock,
    whether or not the file is locked: the branch leaves the products as
    they are when it is. *)
Lemma undo_last_ok_clean st uid row st2 :
  faults st = [] -> last_row (undo_stack (db st)) = Some (uid, row) ->
  (if bool_decide (action row = "ADD"%string) then undo_add (payload row)
   else if bool_decide (action row = "SELL"%string) then undo_sell (payload row)
   else if bool_decide (action row = "DELETE"%string) then undo_delete (payload row)
   else show WarnNotUndoable)
    (set_undo_list (forget_entry uid (_undo_stack st)) (set_db (delete_undo uid (db st)) st))
  = (Val tt, st2) ->
  (bool_decide (action row = "DELETE"%string) &&
     held_after (payload row)
       (set_undo_list (forget_entry uid (_undo_stack st)) (set_db (delete_undo uid (db st)) st))
   = true -> clean (var_search st2) (db st2)) ->
  faults st2 = [] ->
  exists t rep,
    undo_last name_like st =
    (Val tt, set_report rep (set_tree t []
               (set_db (sweep (var_search st2) (var_filter st2) (db st2)) st2))) /\
    forall pid, pid ∈ t -> in_stock (sweep (var_search st2) (var_filter st2) (db st2)) pid.
Proof.
  intros Hf Hl Hbody Hheld Hf2.
  rewrite (undo_last_unfold st uid row st2 Hf Hl Hbody).
  destruct (_ && _); [|by apply refresh_list_ok].
  rewrite refresh_list_locked_clean by (by apply Hheld).
  by apply refresh_list_ok.
Qed.

(** With the old id free and every connection working, neither INSERT of
    [undo_delete] is refused. *)
Lemma held_after_free p pid row st :
  faults st = [] -> pl_data p = Some row -> pl_product_id p = Some pid ->
  products (db st) !! pid = None ->
  refused p st = false /\ held_after p st = false.
Proof.
  intros Hf Hd Hp Hfree. unfold held_after, refused, restore_row.
  rewrite Hf, Hd, Hp. unfold insert_product_with_id. rewrite Hfree. done.
Qed.

Lemma undo_add_ok p st :
  faults st = [] ->
  undo_add p st =
  (Val tt, set_status UndoneAdd
             (set_db (insert_log "UNDO_ADD" (where_id (pl_product_id p) delete_product (db st))) st)).
Proof.
  intros Hf. unfold undo_add.
  exec (by apply db_execute_ok).
  exec (by apply log_action_ok).
  reflexivity.
Qed.


Lemma undo_sell_ok p st :
  faults st = [] ->
  undo_sell p st =
  (Val tt, set_status UndoneSell
             (set_db (insert_log "UNDO_SELL"
                        (if truthy (pl_sales_log_id p)
                         then where_id (pl_sales_log_id p) delete_sale (restore_stock p (db st))
                         else restore_stock p (db st))) st)).
Proof.
  intros Hf. unfold undo_sell, restore_stock.
  assert (Hup : forall stmt, db_execute stmt st = (Val tt, set_db (stmt (db st)) st))
    by (intros; by apply db_execute_ok).
  destruct (pl_prev_qty p) as [pq|], (pl_prev_sold p) as [ps|];
    (erewrite bind_val; [|apply Hup]);
    (destruct (truthy (pl_sales_log_id p));
     [erewrite bind_val; [|apply try_val; by apply db_execute_ok]
     |erewrite bind_val; [|reflexivity]]);
    (erewrite bind_val; [|by apply log_action_ok]); reflexivity.
Qed.

(** With every connection working, a write on the locked file changes
    nothing. *)
Lemma busy_quiet st : faults st = [] -> attempt busy st = (Val tt, st).
Proof.
  intros Hf. unfold attempt, try_except, busy, ret. rewrite Hf. simpl.
  rewrite <- Hf. by rewrite set_faults_same.
Qed.

(** The occupied id: the INSERT under the old id is refused, the fallback
    and the log row find the file locked, and [undo_delete] returns with
    nothing written. *)
Lemma undo_delete_held p st :
  faults st = [] -> held_after p st = true ->
  undo_delete p st = (Val tt, set_status UndoneDelete st).
Proof.
  intros Hf Hh.
  assert (Hr : refused p st = true) by (unfold held_after in Hh; by rewrite Hf in Hh).
  unfold undo_delete. pure_step. pure_step. rewrite Hr, Hh.
  unfold refused in Hr. rewrite Hf in Hr.
  destruct (restore_row p (db st)) eqn:Hrow; [done|].
  erewrite bind_val.
  2:{ erewrite try_raised; [|by apply connect_refused]. by apply busy_quiet. }
  erewrite bind_val; [|by apply busy_quiet].
  reflexivity.
Qed.

Lemma undo_delete_ok p pid row st :
  faults st = [] -> pl_data p = Some row -> pl_product_id p = Some pid ->
  products (db st) !! pid = None ->
  undo_delete p st =
  (Val tt, set_status UndoneDelete
             (set_db (insert_log "UNDO_DELETE"
                        (set_products (<[pid := row]> (products (db st)))
                                      (Z.max (products_seq (db st)) pid) (db st))) st)).
Proof.
  intros Hf Hd Hp Hfree. unfold undo_delete.
  destruct (held_after_free p pid row st Hf Hd Hp Hfree) as [Hr Hh].
  pure_step. rewrite Hr. pure_step. rewrite Hh.
  erewrite bind_val;
    [|apply try_val; apply connect_ok; [exact Hf|]; unfold restore_row;
      rewrite Hd, Hp; unfold insert_product_with_id; rewrite Hfree; reflexivity].
  exec (by apply log_action_ok).
  reflexivity.
Qed.


Lemma sell_item_ok st p sel r q yes :
  faults st = [] -> selection st = p :: sel ->
  products (db st) !! p = Some r -> 0 < qty r ->
  ((if q <? 1 then 1 else q) <= qty r \/ yes = true) ->
  let n := sold_amount q (qty r) in
  let sid := next_rowid (sales_log (db st)) (sales_log_seq (db st)) in
  let d1 := set_sales_log
              (<[sid := mkSale (Some p) n (buy_price r) (sell_price r)
                              ((sell_price r - buy_price r) * n) (clock st)]>
                 (sales_log (db st))) sid
              (update_product p (qty r - n) (sold_qty r + n) (db st)) in
  let d2 := (insert_undo "SELL"
               (mkPayload (Some p) (Some n) (Some (qty r)) (Some (sold_qty r)) (Some sid) None)
               (clock st + 1) d1).2 in
  exists st',
    sell_item name_like q yes st = (Val tt, st') /\
    faults st' = [] /\ var_search st' = var_search st /\ var_filter st' = var_filter st /\
    db st' = sweep (var_search st) (var_filter st) (insert_log "SELL" d2) /\
    status_label st' = Sold n (name r) /\
    forall k, k ∈ tree st' -> in_stock (db st') k.
Proof.
  intros Hf Hsel Hp Hq Hcap n sid d1 d2. unfold sell_item.
  pure_step. rewrite Hsel.
  exec (by apply db_query_ok). rewrite Hp.
  assert (Hnot : (qty r <=? 0) = false) by (apply Z.leb_gt; lia). rewrite Hnot.
  assert (Hsell :
    forall st0, faults st0 = [] -> db st0 = db st -> clock st0 = clock st ->
      var_search st0 = var_search st -> var_filter st0 = var_filter st ->
    exists st',
      (do sold <- try_except
           (do ts <- now;
            do sales_log_id <- connect (fun d =>
                 insert_sale p n (buy_price r) (sell_price r)
                             ((sell_price r - buy_price r) * n) ts
                             (update_product p (qty r - n) (sold_qty r + n) d));
            ret (Some sales_log_id))
           (show ErrSellFailed ;; ret None);
       match sold with
       | None => ret tt
       | Some sales_log_id =>
           _push_undo "SELL"
             (mkPayload (Some p) (Some n) (Some (qty r)) (Some (sold_qty r))
                        (Some sales_log_id) None) ;;
           log_action "SELL" ;;
           refresh_list name_like ;;
           status (Sold n (name r))
       end) st0 = (Val tt, st') /\
      faults st' = [] /\ var_search st' = var_search st /\ var_filter st' = var_filter st /\
      db st' = sweep (var_search st) (var_filter st) (insert_log "SELL" d2) /\
      status_label st' = Sold n (name r) /\
      forall k, k ∈ tree st' -> in_stock (db st') k).
  { intros st0 Hf0 Hd0 Hc0 Hs0 Hv0.
    erewrite bind_val.
    2:{ apply try_val. pure_step.
        erewrite bind_val; [reflexivity|].
        apply connect_ok; [exact Hf0|]. simpl. rewrite Hd0.
        unfold insert_sale. simpl. rewrite lookup_alter_eq, Hp. simpl.
        rewrite Hc0. reflexivity. }
    cbv beta iota.
    exec (by apply _push_undo_ok).
    exec (by apply log_action_ok).
    match goal with |- context [bind (refresh_list _) _ ?s] =>
      destruct (refresh_list_ok name_like s Hf0) as (t & rep & Href & Htree) end.
    exec (exact Href).
    eexists. split; [reflexivity|]. simpl.
    simpl in Htree. rewrite Hs0, Hv0, Hc0 in Htree.
    rewrite Hf0, Hs0, Hv0, Hc0. repeat split; try reflexivity. exact Htree. }
  unfold n, sold_amount in *.
  destruct (qty r <? (if q <? 1 then 1 else q)) eqn:Hlt.
  - destruct Hcap as [Hle| ->]; [apply Z.ltb_lt in Hlt; lia|].
    pure_step.
    apply Hsell; done.
  - by apply Hsell.
Qed.

Lemma add_product_ok st n qi bi si :
  faults st = [] -> n <> EmptyString ->
  let k := next_rowid (products (db st)) (products_seq (db st)) in
  let d1 := insert_log "ADD"
              (set_products (<[k := mkProduct n qi bi si 0]> (products (db st))) k (db st)) in
  let d2 := (insert_undo "ADD" (mkPayload (Some k) None None None None None)
                         (clock st) d1).2 in
  exists st',
    add_product name_like n (Text (Some qi)) (Text (Some bi)) (Text (Some si)) st =
      (Val tt, st') /\
    faults st' = [] /\ var_search st' = var_search st /\ var_filter st' = var_filter st /\
    db st' = sweep (var_search st) (var_filter st) d2 /\
    status_label st' = Added n /\
    forall k', k' ∈ tree st' -> in_stock (db st') k'.
Proof.
  intros Hf Hn k d1 d2. unfold add_product.
  rewrite bool_decide_eq_false_2 by done.
  erewrite bind_val; [|apply try_val; erewrite bind_val;
                       [reflexivity|apply connect_ok; [exact Hf|reflexivity]]].
  cbv beta iota.
  exec (by apply log_action_ok).
  exec (by apply _push_undo_ok).
  match goal with |- context [bind (refresh_list _) _ ?s] =>
    destruct (refresh_list_ok name_like s Hf) as (t & rep & Href & Htree) end.
  exec (exact Href).
  eexists. split; [reflexivity|]. simpl. rewrite Hf.
  repeat split; try reflexivity. exact Htree.
Qed.

Lemma delete_item_ok st p sel r :
  faults st = [] -> selection st = p :: sel -> products (db st) !! p = Some r ->
  let d1 := (insert_undo "DELETE" (mkPayload (Some p) None None None None (Some r))
                         (clock st) (db st)).2 in
  exists st',
    delete_item name_like true st = (Val tt, st') /\
    faults st' = [] /\ var_search st' = var_search st /\ var_filter st' = var_filter st /\
    db st' = sweep (var_search st) (var_filter st)
                   (insert_log "DELETE" (delete_product p d1)) /\
    status_label st' = Removed (name r) /\
    forall k, k ∈ tree st' -> in_stock (db st') k.
Proof.
  intros Hf Hsel Hp d1. unfold delete_item.
  pure_step. rewrite Hsel.
  exec (by apply db_query_ok). rewrite Hp.
  pure_step.
  exec (by apply _push_undo_ok).
  exec (by apply db_execute_ok).
  exec (by apply log_action_ok).
  match goal with |- context [bind (refresh_list _) _ ?s] =>
    destruct (refresh_list_ok name_like s Hf) as (t & rep & Href & Htree) end.
  exec (exact Href).
  eexists. split; [reflexivity|]. simpl. rewrite Hf.
  repeat split; try reflexivity. exact Htree.
Qed.

End CommandsOk.

Lemma max_rowid_nonneg {A} (m : gmap Z A) : 0 <= max_rowid m.
Proof.
  unfold max_rowid.
  apply (map_fold_weak_ind (fun acc (_ : gmap Z A) => 0 <= acc)); [done|].
  intros. lia.
Qed.

Lemma next_rowid_pos {A} (m : gmap Z A) (s : Z) : 0 < next_rowid m s.
Proof. pose proof (max_rowid_nonneg m). unfold next_rowid. lia. Qed.

Lemma truthy_next_rowid {A} (m : gmap Z A) (s : Z) :
  truthy (Some (next_rowid m s)) = true.
Proof.
  pose proof (next_rowid_pos m s). simpl.
  apply negb_true_iff, Z.eqb_neq. lia.
Qed.

Section RoundTrips.

Variable name_like : string -> string -> bool.

Lemma clean_update q d d' k x y :
  clean name_like q d -> 0 < x ->
  products d' =
    alter (fun r => mkProduct (name r) x (buy_price r) (sell_price r) y) k (products d) ->
  clean name_like q d'.
Proof.
  intros Hc Hx Hp k' r' Hk' Hl. rewrite Hp in Hk'.
  destruct (decide (k = k')) as [<-|Hne].
  - rewrite lookup_alter_eq in Hk'.
    destruct (products d !! k) as [r0|]; simpl in Hk'; [|done].
    inversion Hk'; subst r'. simpl. done.
  - rewrite lookup_alter_ne in Hk' by done. by apply (Hc k').
Qed.

Lemma clean_sub q d d' :
  clean name_like q d ->
  (forall k r, products d' !! k = Some r -> products d !! k = Some r) ->
  clean name_like q d'.
Proof. intros Hc Hsub k r Hk. apply (Hc k). by apply Hsub. Qed.

(** C1, as amended: a sale of fewer units than the stock holds, and its
    undo.  With no storage failure, selling [q] of product [p], where
    [1 <= q] and [q] is less than the stock [Q], leaves [p] with quantity
    [Q - q] and sold quantity [sold + q], and adds exactly one sales row,
    under a new id, holding the product's buy and sell price and the profit
    [q * (sell - buy)].  Undoing right after gives [p] back its row as it was
    and removes that sales row and nothing else. *)
Theorem sell_then_undo_restores st p sel r q yes :
  faults st = [] -> selection st = p :: sel -> products (db st) !! p = Some r ->
  1 <= q -> q < qty r ->
  let st1 := run (sell_item name_like q yes) st in
  let st2 := run (undo_last name_like) st1 in
  let sid := next_rowid (sales_log (db st)) (sales_log_seq (db st)) in
  products (db st1) !! p =
    Some (mkProduct (name r) (qty r - q) (buy_price r) (sell_price r) (sold_qty r + q)) /\
  sales_log (db st) !! sid = None /\
  sales_log (db st1) !! sid =
    Some (mkSale (Some p) q (buy_price r) (sell_price r)
                 (q * (sell_price r - buy_price r)) (clock st)) /\
  dom (sales_log (db st1)) = {[sid]} ∪ dom (sales_log (db st)) /\
  products (db st2) !! p = Some r /\
  sales_log (db st2) = delete sid (sales_log (db st1)) /\
  undo_stack (db st2) = undo_stack (db st).
Proof.
  intros Hf Hsel Hp Hq1 Hq2 st1 st2 sid.
  destruct (sell_item_ok name_like st p sel r q yes Hf Hsel Hp) as
    (st1' & Hrun1 & Hf1 & Hs1 & Hv1 & Hdb1 & _); [lia| |].
  { left. destruct (q <? 1); lia. }
  assert (Hn : sold_amount q (qty r) = q).
  { unfold sold_amount.
    assert ((q <? 1) = false) as -> by (apply Z.ltb_ge; lia).
    assert ((qty r <? q) = false) as -> by (apply Z.ltb_ge; lia). done. }
  rewrite Hn in Hdb1.
  assert (Hst1 : st1 = st1') by (eapply run_eq; exact Hrun1).
  clearbody st1. subst st1'. fold sid in Hdb1.
  set (r1 := mkProduct (name r) (qty r - q) (buy_price r) (sell_price r) (sold_qty r + q)).
  set (rec := mkSale (Some p) q (buy_price r) (sell_price r)
                     ((sell_price r - buy_price r) * q) (clock st)) in Hdb1.
  set (pl := mkPayload (Some p) (Some q) (Some (qty r)) (Some (sold_qty r)) (Some sid) None)
    in Hdb1.
  set (uid := next_rowid (undo_stack (db st)) (undo_stack_seq (db st))).
  match type of Hdb1 with _ = sweep _ _ _ ?d => set (D := d) in Hdb1 end.
  assert (HDp : products D !! p = Some r1).
  { unfold D. simpl. by rewrite lookup_alter_eq, Hp. }
  assert (HDs : sales_log D = <[sid := rec]> (sales_log (db st))) by reflexivity.
  assert (HDu : undo_stack D = <[uid := mkUndoRow "SELL" pl (clock st + 1)]> (undo_stack (db st)))
    by reflexivity.
  assert (Hp1 : products (db st1) !! p = Some r1).
  { rewrite Hdb1. apply sweep_keep; [done|]. simpl. lia. }
  assert (Hs1' : sales_log (db st1) !! sid = Some rec).
  { rewrite Hdb1. apply (sweep_sale _ _ _ _ _ _ p r1); [|done|done|simpl; lia].
    rewrite HDs. apply lookup_insert_eq. }
  assert (Hu1 : undo_stack (db st1) = <[uid := mkUndoRow "SELL" pl (clock st + 1)]> (undo_stack (db st))).
  { rewrite Hdb1, sweep_undo_stack. exact HDu. }
  assert (Hclean1 : clean name_like (var_search st1) (db st1)).
  { rewrite Hdb1, Hs1. apply sweep_clean. }
  (* the undo *)
  assert (Hlast : last_row (undo_stack (db st1)) = Some (uid, mkUndoRow "SELL" pl (clock st + 1))).
  { rewrite Hu1. apply last_row_insert_next. }
  pose proof (undo_sell_ok pl
                (set_undo_list (forget_entry uid (_undo_stack st1))
                               (set_db (delete_undo uid (db st1)) st1)) Hf1) as Hbody.
  destruct (undo_last_ok name_like st1 uid _ _ Hf1 Hlast Hbody eq_refl Hf1) as (t & rep & Hrun2 & _).
  assert (Hst2 : st2 = _) by (eapply run_eq; exact Hrun2).
  clearbody st2. clear Hrun2 Hbody.
  assert (Htr : truthy (pl_sales_log_id pl) = true) by apply truthy_next_rowid.
  rewrite Htr in Hst2. simpl in Hst2.
  rewrite sweep_id in Hst2.
  2:{ eapply clean_update; [exact Hclean1| |reflexivity]. lia. }
  subst st2. simpl.
  repeat split.
  - done.
  - apply next_rowid_fresh.
  - rewrite Hs1'. unfold rec. f_equal. f_equal. lia.
  - rewrite Hdb1, sweep_sales_dom, HDs. apply dom_insert_L.
  - rewrite lookup_alter_eq, Hp1. simpl. by destruct r.
  - rewrite Hu1. rewrite delete_insert_eq. apply delete_id, next_rowid_fresh.
Qed.

(** What the narrowing of C1 leaves out.  With no storage failure, a sale
    that takes the whole stock of a product the list shows leaves no row for
    the product: the refresh that closes the sale deletes it, and the sales
    row stays with its product reference unset.  The undo that follows
    deletes the sales row and pops the entry; it has no row to put the
    quantities back into. *)
Lemma sell_out_then_undo st p sel r q yes :
  faults st = [] -> selection st = p :: sel -> products (db st) !! p = Some r ->
  0 < qty r -> qty r <= q -> (qty r = q \/ yes = true) ->
  listed name_like (var_search st) r = true ->
  let st1 := run (sell_item name_like q yes) st in
  let st2 := run (undo_last name_like) st1 in
  let sid := next_rowid (sales_log (db st)) (sales_log_seq (db st)) in
  products (db st1) !! p = None /\
  sales_log (db st1) !! sid =
    Some (mkSale None (qty r) (buy_price r) (sell_price r)
                 ((sell_price r - buy_price r) * qty r) (clock st)) /\
  products (db st2) !! p = None /\
  sales_log (db st2) !! sid = None /\
  undo_stack (db st2) = undo_stack (db st).
Proof.
  intros Hf Hsel Hp Hpos Hq Hcap Hl st1 st2 sid.
  assert (Hq1 : (q <? 1) = false) by (apply Z.ltb_ge; lia).
  destruct (sell_item_ok name_like st p sel r q yes Hf Hsel Hp Hpos) as
    (st1' & Hrun1 & Hf1 & Hs1 & Hv1 & Hdb1 & _).
  { rewrite Hq1. destruct Hcap as [Heq|Hyes]; [left; lia|by right]. }
  assert (Hn : sold_amount q (qty r) = qty r).
  { unfold sold_amount. rewrite Hq1. destruct (qty r <? q) eqn:E; [done|].
    apply Z.ltb_ge in E. lia. }
  rewrite Hn in Hdb1.
  assert (Hst1 : st1 = st1') by (eapply run_eq; exact Hrun1).
  clearbody st1. subst st1'. fold sid in Hdb1.
  set (r1 := mkProduct (name r) (qty r - qty r) (buy_price r) (sell_price r)
                       (sold_qty r + qty r)).
  set (rec := mkSale (Some p) (qty r) (buy_price r) (sell_price r)
                     ((sell_price r - buy_price r) * qty r) (clock st)) in Hdb1.
  set (pl := mkPayload (Some p) (Some (qty r)) (Some (qty r)) (Some (sold_qty r))
                       (Some sid) None) in Hdb1.
  set (uid := next_rowid (undo_stack (db st)) (undo_stack_seq (db st))).
  match type of Hdb1 with _ = sweep _ _ _ ?d => set (D := d) in Hdb1 end.
  assert (HDp : products D !! p = Some r1).
  { unfold D. simpl. by rewrite lookup_alter_eq, Hp. }
  assert (HDs : sales_log D !! sid = Some rec).
  { unfold D. simpl. apply lookup_insert_eq. }
  assert (HDu : undo_stack D = <[uid := mkUndoRow "SELL" pl (clock st + 1)]> (undo_stack (db st)))
    by reflexivity.
  assert (Hl1 : listed name_like (var_search st) r1 = true) by exact Hl.
  assert (Hp1 : products (db st1) !! p = None).
  { rewrite Hdb1, sweep_lookup, HDp, Hl1. simpl.
    by rewrite (proj2 (Z.leb_le _ _)) by lia. }
  assert (Hs1' : sales_log (db st1) !! sid = Some (forget_product p rec)).
  { rewrite Hdb1.
    apply (sweep_sale_forgotten _ _ _ _ _ _ _ r1); [done..|simpl; lia]. }
  assert (Hu1 : undo_stack (db st1) =
                <[uid := mkUndoRow "SELL" pl (clock st + 1)]> (undo_stack (db st))).
  { rewrite Hdb1, sweep_undo_stack. exact HDu. }
  assert (Hlast : last_row (undo_stack (db st1)) =
                  Some (uid, mkUndoRow "SELL" pl (clock st + 1))).
  { rewrite Hu1. apply last_row_insert_next. }
  pose proof (undo_sell_ok pl
                (set_undo_list (forget_entry uid (_undo_stack st1))
                               (set_db (delete_undo uid (db st1)) st1)) Hf1) as Hbody.
  destruct (undo_last_ok name_like st1 uid _ _ Hf1 Hlast Hbody eq_refl Hf1) as (t & rep & Hrun2 & _).
  assert (Hst2 : st2 = _) by (eapply run_eq; exact Hrun2).
  clearbody st2. clear Hrun2 Hbody.
  assert (Htr : truthy (pl_sales_log_id pl) = true) by apply truthy_next_rowid.
  rewrite Htr in Hst2. simpl in Hst2. subst st2. simpl.
  split; [done|]. split.
  { rewrite Hs1'. unfold forget_product, rec. simpl.
    by rewrite bool_decide_eq_true_2. }
  split.
  { apply sweep_absent. simpl. by rewrite lookup_alter_eq, Hp1. }
  split.
  { apply not_elem_of_dom. rewrite sweep_sales_dom. simpl. rewrite dom_delete_L.
    intros Hin. apply elem_of_difference in Hin as [_ Hin].
    apply Hin. by apply elem_of_singleton. }
  rewrite sweep_undo_stack. simpl. rewrite Hu1, delete_insert_eq.
  apply delete_id, next_rowid_fresh.
Qed.


(** Deleting a product and undoing right away, the old id being free.
    With no storage failure, deleting the selected product [p], which is in
    stock, removes its row, and the Undo that follows puts back a row with
    the same name, quantity, prices and sold quantity under its original id
    [p]. *)
Lemma delete_then_undo_restores st p sel r :
  faults st = [] -> selection st = p :: sel -> products (db st) !! p = Some r ->
  0 < qty r ->
  let st1 := run (delete_item name_like true) st in
  let st2 := run (undo_last name_like) st1 in
  products (db st1) !! p = None /\ products (db st2) !! p = Some r.
Proof.
  intros Hf Hsel Hp Hq st1 st2.
  destruct (delete_item_ok name_like st p sel r Hf Hsel Hp) as
    (st1' & Hrun1 & Hf1 & Hs1 & Hv1 & Hdb1 & _).
  assert (Hst1 : st1 = st1') by (eapply run_eq; exact Hrun1).
  clearbody st1. subst st1'.
  set (pl := mkPayload (Some p) None None None None (Some r)) in Hdb1.
  set (uid := next_rowid (undo_stack (db st)) (undo_stack_seq (db st))).
  match type of Hdb1 with _ = sweep _ _ _ ?d => set (D := d) in Hdb1 end.
  assert (HDp : products D !! p = None).
  { unfold D. simpl. rewrite delete_product_lookup. by rewrite bool_decide_eq_true_2. }
  assert (HDu : undo_stack D = <[uid := mkUndoRow "DELETE" pl (clock st)]> (undo_stack (db st))).
  { unfold D. simpl. by rewrite delete_product_undo_stack. }
  assert (Hp1 : products (db st1) !! p = None).
  { rewrite Hdb1. by apply sweep_absent. }
  assert (Hlast : last_row (undo_stack (db st1)) = Some (uid, mkUndoRow "DELETE" pl (clock st))).
  { rewrite Hdb1, sweep_undo_stack, HDu. apply last_row_insert_next. }
  pose proof (undo_delete_ok pl p r
                (set_undo_list (forget_entry uid (_undo_stack st1))
                               (set_db (delete_undo uid (db st1)) st1)) Hf1
                eq_refl eq_refl Hp1) as Hbody.
  pose proof (proj2 (held_after_free pl p r
                (set_undo_list (forget_entry uid (_undo_stack st1))
                               (set_db (delete_undo uid (db st1)) st1)) Hf1
                eq_refl eq_refl Hp1)) as Hheld.
  destruct (undo_last_ok name_like st1 uid _ _ Hf1 Hlast Hbody Hheld Hf1) as (t & rep & Hrun2 & _).
  assert (Hst2 : st2 = _) by (eapply run_eq; exact Hrun2).
  clearbody st2. clear Hrun2 Hbody. subst st2. simpl.
  split; [done|]. apply sweep_keep; [|done]. simpl. apply lookup_insert_eq.
Qed.

Lemma restore_stock_sales pl d : sales_log (restore_stock pl d) = sales_log d.
Proof.
  unfold restore_stock.
  destruct (pl_prev_qty pl), (pl_prev_sold pl), (pl_product_id pl); reflexivity.
Qed.

(** Behind C6.  With no storage failure, undoing a sale whose saved sales
    row no longer exists removes no sales row at all, whatever other rows
    match the entry's product and quantity: the DELETE by id finds nothing
    and does not raise, so the search for a matching row is not reached. *)
Lemma undo_sell_missing_row st uid pl ts sid :
  faults st = [] ->
  last_row (undo_stack (db st)) = Some (uid, mkUndoRow "SELL" pl ts) ->
  pl_sales_log_id pl = Some sid -> sales_log (db st) !! sid = None ->
  dom (sales_log (db (run (undo_last name_like) st))) = dom (sales_log (db st)).
Proof.
  intros Hf Hlast Hsid Hgone.
  pose proof (undo_sell_ok pl
                (set_undo_list (forget_entry uid (_undo_stack st))
                               (set_db (delete_undo uid (db st)) st)) Hf) as Hbody.
  destruct (undo_last_ok name_like st uid _ _ Hf Hlast Hbody eq_refl Hf) as (t & rep & Hrun & _).
  rewrite (run_eq _ _ _ _ Hrun). simpl. rewrite sweep_sales_dom, Hsid. simpl.
  destruct (negb (sid =? 0)); simpl; rewrite restore_stock_sales; simpl; [|done].
  by rewrite delete_id.
Qed.

Lemma restore_stock_absent pl p d :
  pl_product_id pl = Some p -> products d !! p = None ->
  products (restore_stock pl d) = products d /\
  sales_log (restore_stock pl d) = sales_log d /\
  undo_stack (restore_stock pl d) = undo_stack d.
Proof.
  intros Hpl Hp. unfold restore_stock. rewrite Hpl.
  assert (Halt : forall f : Product -> Product, alter f p (products d) = products d).
  { intros f. apply map_eq. intros k. destruct (decide (p = k)) as [<-|Hne].
    - by rewrite lookup_alter_eq, Hp.
    - by rewrite lookup_alter_ne. }
  destruct (pl_prev_qty pl), (pl_prev_sold pl); simpl; by rewrite Halt.
Qed.

(** C9: undoing a sale whose product is gone.  With no storage failure,
    when the top of the undo stack is a SELL entry that carries a saved
    sales id and whose product no longer has a row, Undo returns normally:
    the quantity update touches no row (the products table is as a bare
    refresh would leave it, and unchanged when no listed product is out of
    stock), the sales row with the saved id is gone, the entry is off the
    stack, the status line announces the undone sale and no message box is
    opened. *)
Theorem undo_sell_of_missing_product st uid pl ts p sid :
  faults st = [] ->
  last_row (undo_stack (db st)) = Some (uid, mkUndoRow "SELL" pl ts) ->
  pl_product_id pl = Some p -> products (db st) !! p = None ->
  pl_sales_log_id pl = Some sid -> sid <> 0 ->
  exists st',
    undo_last name_like st = (Val tt, st') /\
    products (db st') !! p = None /\
    products (db st') =
      products (sweep name_like (var_search st) (var_filter st) (db st)) /\
    (clean name_like (var_search st) (db st) -> products (db st') = products (db st)) /\
    sales_log (db st') !! sid = None /\
    undo_stack (db st') = delete uid (undo_stack (db st)) /\
    status_label st' = UndoneSell /\
    dialogs st' = dialogs st.
Proof.
  intros Hf Hlast Hpl Hp Hsid Hnz.
  pose proof (undo_sell_ok pl
                (set_undo_list (forget_entry uid (_undo_stack st))
                               (set_db (delete_undo uid (db st)) st)) Hf) as Hbody.
  destruct (undo_last_ok name_like st uid _ _ Hf Hlast Hbody eq_refl Hf) as (t & rep & Hrun & _).
  eexists. split; [exact Hrun|]. clear Hrun Hbody.
  assert (Htr : truthy (pl_sales_log_id pl) = true).
  { rewrite Hsid. simpl. by apply negb_true_iff, Z.eqb_neq. }
  rewrite Htr, Hsid. simpl.
  destruct (restore_stock_absent pl p (delete_undo uid (db st)) Hpl Hp) as (Hrp & Hrs & Hru).
  set (D := insert_log _ _).
  assert (HDp : products D = products (db st)) by (unfold D; simpl; exact Hrp).
  assert (Hsame : products (sweep name_like (var_search st) (var_filter st) D) =
                  products (sweep name_like (var_search st) (var_filter st) (db st))).
  { apply map_eq. intros k.
    destruct (products (sweep name_like (var_search st) (var_filter st) (db st)) !! k)
      as [r|] eqn:E.
    - pose proof (sweep_sub _ _ _ _ _ _ E) as E0.
      apply sweep_keep_unless; [by rewrite HDp|].
      intros Hl. by apply (sweep_clean name_like (var_search st) (var_filter st) (db st) k r).
    - destruct (products (sweep name_like (var_search st) (var_filter st) D) !! k)
        as [r|] eqn:E'; [|done].
      pose proof (sweep_sub _ _ _ _ _ _ E') as E0. rewrite HDp in E0.
      pose proof (sweep_clean name_like (var_search st) (var_filter st) D k r E') as Hc.
      rewrite (sweep_keep_unless name_like _ _ _ k r E0 Hc) in E. done. }
  repeat split.
  - apply sweep_absent. by rewrite HDp.
  - exact Hsame.
  - intros Hc. rewrite Hsame. by rewrite sweep_id.
  - apply not_elem_of_dom. rewrite sweep_sales_dom. unfold D. simpl.
    rewrite dom_delete_L. intros Hin. apply elem_of_difference in Hin as [_ Hin].
    apply Hin. by apply elem_of_singleton.
  - rewrite sweep_undo_stack. unfold D. simpl. by rewrite Hru.
Qed.

End RoundTrips.

(** ** What every run preserves, whatever fails *)


Lemma keeps_pure {A} (I : DB -> Prop) (m : M A) :
  (forall st, db (m st).2 = db st) -> keeps I m.
Proof. intros H st HI. by rewrite H. Qed.

Lemma keeps_ret {A} (I : DB -> Prop) (a : A) : keeps I (ret a).
Proof. by apply keeps_pure. Qed.

Lemma keeps_bind {A B} (I : DB -> Prop) (m : M A) (k : A -> M B) :
  keeps I m -> (forall a, keeps I (k a)) -> keeps I (bind m k).
Proof.
  intros Hm Hk st HI. unfold bind. specialize (Hm st HI).
  destruct (m st) as [[a|] st']; simpl in *; [by apply Hk|done].
Qed.

Lemma keeps_try {A} (I : DB -> Prop) (m h : M A) :
  keeps I m -> keeps I h -> keeps I (try_except m h).
Proof.
  intros Hm Hh st HI. unfold try_except. specialize (Hm st HI).
  destruct (m st) as [[a|] st']; simpl in *; [done|by apply Hh].
Qed.

Lemma keeps_connect {A} (I : DB -> Prop) (f : DB -> option (A * DB)) :
  (forall d a d', I d -> f d = Some (a, d') -> I d') -> keeps I (connect f).
Proof.
  intros Hf st HI. unfold connect.
  destruct (faults st) as [|[|] fs]; simpl; try done;
    destruct (f (db st)) as [[a d']|] eqn:E; simpl; eauto.
Qed.

Lemma keeps_db_execute (I : DB -> Prop) (stmt : DB -> DB) :
  (forall d, I d -> I (stmt d)) -> keeps I (db_execute stmt).
Proof. intros H. apply keeps_connect. intros d a d' HI [= _ <-]. by apply H. Qed.

Lemma keeps_db_query {A} (I : DB -> Prop) (q : DB -> A) : keeps I (db_query q).
Proof. apply keeps_connect. by intros d a d' HI [= _ <-]. Qed.

Lemma keeps_log_action (I : DB -> Prop) (a : string) :
  (forall d, I d -> I (insert_log a d)) -> keeps I (log_action a).
Proof.
  intros H. apply keeps_try; [by apply keeps_db_execute|apply keeps_ret].
Qed.

Lemma keeps__push_undo (I : DB -> Prop) (a : string) (p : Payload) :
  (forall d ts, I d -> I (insert_undo a p ts d).2) -> keeps I (_push_undo a p).
Proof.
  intros H. apply keeps_try; [|apply keeps_ret].
  apply keeps_bind; [by apply keeps_pure|]. intros ts.
  apply keeps_bind; [|intros; by apply keeps_pure].
  apply keeps_connect. intros d k d' HI [= _ <-]. by apply H.
Qed.

Lemma keeps_update_report (I : DB -> Prop) : keeps I update_report.
Proof.
  apply keeps_bind; [apply keeps_db_query|]. intros [[[? ?] ?] ?].
  apply keeps_bind; [apply keeps_db_query|]. intros ?. by apply keeps_pure.
Qed.

Section Keeps.

Variable name_like : string -> string -> bool.

Lemma keeps_show_rows (I : DB -> Prop) f rows :
  (forall d k, I d -> I (delete_product k d)) -> keeps I (show_rows f rows).
Proof.
  intros H. induction rows as [|[pid r] rows IH]; simpl; [apply keeps_ret|].
  destruct (qty r <=? 0).
  - apply keeps_bind; [|done].
    apply keeps_try; [|apply keeps_ret]. apply keeps_db_execute. intros; by apply H.
  - destruct (match f with FilterBelow5 => 5 <=? qty r | _ => false end); [done|].
    apply keeps_bind; [by apply keeps_pure|done].
Qed.

Lemma keeps_refresh_list (I : DB -> Prop) :
  (forall d k, I d -> I (delete_product k d)) -> keeps I (refresh_list name_like).
Proof.
  intros H.
  apply keeps_bind; [by apply keeps_pure|]. intros q.
  apply keeps_bind; [by apply keeps_pure|]. intros f.
  apply keeps_bind; [apply keeps_db_query|]. intros rows.
  apply keeps_bind; [by apply keeps_pure|]. intros _.
  apply keeps_bind; [by apply keeps_show_rows|]. intros _.
  apply keeps_update_report.
Qed.

Lemma keeps_busy (I : DB -> Prop) : keeps I busy.
Proof. by apply keeps_pure. Qed.

Lemma keeps_show_rows_locked (I : DB -> Prop) f rows : keeps I (show_rows_locked f rows).
Proof.
  induction rows as [|[pid r] rows IH]; simpl; [apply keeps_ret|].
  destruct (qty r <=? 0).
  - apply keeps_bind; [|done].
    apply keeps_try; [apply keeps_busy|apply keeps_ret].
  - destruct (match f with FilterBelow5 => 5 <=? qty r | _ => false end); [done|].
    apply keeps_bind; [by apply keeps_pure|done].
Qed.

Lemma keeps_refresh_list_locked (I : DB -> Prop) : keeps I (refresh_list_locked name_like).
Proof.
  apply keeps_bind; [by apply keeps_pure|]. intros q.
  apply keeps_bind; [by apply keeps_pure|]. intros f.
  apply keeps_bind; [apply keeps_db_query|]. intros rows.
  apply keeps_bind; [by apply keeps_pure|]. intros _.
  apply keeps_bind; [by apply keeps_show_rows_locked|]. intros _.
  apply keeps_update_report.
Qed.

(** The tail of [undo_last]: the list is refreshed, with or without the
    file locked. *)
Lemma keeps_undo_refresh (I : DB -> Prop) (held : bool) :
  (forall d k, I d -> I (delete_product k d)) ->
  keeps I (if held then refresh_list_locked name_like else refresh_list name_like).
Proof.
  intros H. destruct held; [apply keeps_refresh_list_locked|by apply keeps_refresh_list].
Qed.

(** [undo_delete] writes nothing but the restored row and its log row. *)
Lemma keeps_undo_delete (I : DB -> Prop) p :
  (forall d a d', I d -> restore_row p d = Some (a, d') -> I d') ->
  (forall d a d', I d -> fallback_row p d = Some (a, d') -> I d') ->
  (forall d, I d -> I (insert_log "UNDO_DELETE" d)) ->
  keeps I (undo_delete p).
Proof.
  intros H1 H2 Hlog. unfold undo_delete.
  apply keeps_bind; [by apply keeps_pure|]. intros first_refused.
  apply keeps_bind; [by apply keeps_pure|]. intros held.
  apply keeps_bind.
  { apply keeps_try; [by apply keeps_connect|].
    apply keeps_try; [|apply keeps_ret].
    destruct first_refused; [apply keeps_busy|by apply keeps_connect]. }
  intros _. apply keeps_bind; [|intros _; by apply keeps_pure].
  destruct held; [apply keeps_try; [apply keeps_busy|apply keeps_ret]|].
  apply keeps_log_action. exact Hlog.
Qed.

End Keeps.

Lemma nonneg_delete_product d k : nonneg d -> nonneg (delete_product k d).
Proof.
  intros H k' r Hk'. rewrite delete_product_lookup in Hk'.
  case_bool_decide; [done|]. by apply (H k').
Qed.

Lemma nonneg_same d d' : products d' = products d -> nonneg d -> nonneg d'.
Proof. intros Hp H k r Hk. rewrite Hp in Hk. by apply (H k). Qed.

Lemma nonneg_sale d pid n b s pr ts x y sid d' :
  nonneg d -> 0 <= x ->
  insert_sale pid n b s pr ts (update_product pid x y d) = Some (sid, d') ->
  nonneg d'.
Proof.
  intros H Hx Hs. unfold insert_sale in Hs.
  destruct (products (update_product pid x y d) !! pid); [|done].
  inversion Hs; subst. intros k r Hk. simpl in Hk.
  destruct (decide (pid = k)) as [<-|Hne].
  - rewrite lookup_alter_eq in Hk.
    destruct (products d !! pid); simpl in Hk; [|done].
    inversion Hk; subst. done.
  - rewrite lookup_alter_ne in Hk by done. by apply (H k).
Qed.

Lemma delete_product_sale_fields k d s x :
  sales_log d !! s = Some x ->
  exists x', sales_log (delete_product k d) !! s = Some x' /\
             sale_qty x' = sale_qty x /\ price_buy x' = price_buy x /\
             price_sell x' = price_sell x /\ profit x' = profit x.
Proof.
  intros Hs. unfold delete_product. destruct (products d !! k); [|by exists x].
  simpl. rewrite lookup_fmap, Hs. simpl. eexists. split; [reflexivity|].
  unfold forget_product. by case_bool_decide.
Qed.

Lemma sweep_rows_sale_fields rows d s x :
  sales_log d !! s = Some x ->
  exists x', sales_log (sweep_rows rows d) !! s = Some x' /\
             sale_qty x' = sale_qty x /\ price_buy x' = price_buy x /\
             price_sell x' = price_sell x /\ profit x' = profit x.
Proof.
  revert d x. induction rows as [|[pid r1] rows IH]; intros d x Hs; simpl.
  - by exists x.
  - destruct (qty r1 <=? 0); [|by apply IH].
    destruct (delete_product_sale_fields pid d s x Hs) as (x1 & H1 & E1 & E2 & E3 & E4).
    destruct (IH _ _ H1) as (x2 & H2 & F1 & F2 & F3 & F4).
    exists x2. split; [done|]. repeat split; congruence.
Qed.

Section SellSafety.

Variable name_like : string -> string -> bool.

Lemma keeps_sell_item q yes : keeps nonneg (sell_item name_like q yes).
Proof.
  unfold sell_item. cbv zeta.
  apply keeps_bind; [by apply keeps_pure|]. intros [|p sel]; [by apply keeps_pure|].
  apply keeps_bind; [apply keeps_db_query|]. intros [r|]; [|apply keeps_ret].
  assert (Hsell : forall n, 0 <= qty r - n ->
    keeps nonneg
      (do sold <- try_except
           (do ts <- now;
            do sales_log_id <- connect (fun d =>
                 insert_sale p n (buy_price r) (sell_price r)
                             ((sell_price r - buy_price r) * n) ts
                             (update_product p (qty r - n) (sold_qty r + n) d));
            ret (Some sales_log_id))
           (show ErrSellFailed ;; ret None);
       match sold with
       | None => ret tt
       | Some sales_log_id =>
           _push_undo "SELL"
             (mkPayload (Some p) (Some n) (Some (qty r)) (Some (sold_qty r))
                        (Some sales_log_id) None) ;;
           log_action "SELL" ;;
           refresh_list name_like ;;
           status (Sold n (name r))
       end)).
  { intros n Hn. apply keeps_bind.
    - apply keeps_try.
      + apply keeps_bind; [by apply keeps_pure|]. intros ts.
        apply keeps_bind; [|intros; apply keeps_ret].
        apply keeps_connect. intros d sid d' HI Hs. by eapply nonneg_sale.
      + apply keeps_bind; [by apply keeps_pure|intros; apply keeps_ret].
    - intros [sid|]; [|apply keeps_ret].
      apply keeps_bind; [apply keeps__push_undo; by intros|]. intros _.
      apply keeps_bind; [apply keeps_log_action; by intros|]. intros _.
      apply keeps_bind; [apply keeps_refresh_list; intros; by apply nonneg_delete_product|].
      intros _. by apply keeps_pure. }
  destruct (qty r <=? 0) eqn:E0; [by apply keeps_pure|].
  apply Z.leb_gt in E0.
  destruct (qty r <? (if q <? 1 then 1 else q)) eqn:E1.
  - apply keeps_bind; [by apply keeps_pure|]. intros _.
    destruct yes; [apply Hsell; lia|apply keeps_ret].
  - apply Z.ltb_ge in E1. apply Hsell. lia.
Qed.

(** C3: a sale never drives the stock below zero.  Under every schedule of
    storage failures and every answer of the operator, [sell_item] takes a
    products table with no negative quantity to one with no negative
    quantity.  A sale against a product with no stock left changes nothing
    in the file.  A request for more than the stock changes nothing when the
    operator declines, and when the operator accepts (and nothing fails) the
    sale is recorded for exactly the stock that was there, the product being
    left with quantity 0 wherever its row survives the closing refresh. *)
Theorem sell_never_negative st q yes :
  nonneg (db st) ->
  let st' := run (sell_item name_like q yes) st in
  nonneg (db st') /\
  (forall p sel r,
      selection st = p :: sel -> products (db st) !! p = Some r -> qty r <= 0 ->
      db st' = db st) /\
  (forall p sel r,
      selection st = p :: sel -> products (db st) !! p = Some r ->
      qty r < q -> yes = false -> db st' = db st) /\
  (forall p sel r,
      faults st = [] -> selection st = p :: sel -> products (db st) !! p = Some r ->
      0 < qty r -> qty r < q -> yes = true ->
      (exists x, sales_log (db st') !! next_rowid (sales_log (db st)) (sales_log_seq (db st))
                 = Some x /\ sale_qty x = qty r) /\
      (forall r', products (db st') !! p = Some r' ->
                  qty r' = 0 /\ sold_qty r' = sold_qty r + qty r)).
Proof.
  intros Hnn st'. split; [by apply keeps_sell_item|].
  assert (Hstart : forall p sel,
            selection st = p :: sel ->
            exists fs,
              st' = set_faults fs st \/
              st' = ((let qty_to_sell := if q <? 1 then 1 else q in
                      match products (db st) !! p with
                      | None => ret tt
                      | Some r =>
                          if qty r <=? 0 then show (InfoOutOfStock (name r))
                          else if qty r <? qty_to_sell then
                                 show (AskSellAll (qty r)) ;;
                                 if yes then ret tt else ret tt
                               else ret tt
                      end) (set_faults fs st)).2 \/
              exists r, products (db st) !! p = Some r /\ 0 < qty r /\
                        (yes = true \/ (if q <? 1 then 1 else q) <= qty r)).
  { intros p sel Hsel.
    destruct (db_query_cases (fun d => products d !! p) st) as (fs & [Hqr|Hqr]);
      exists fs; unfold st', run, sell_item; cbv zeta;
      (erewrite bind_val; [|reflexivity]); rewrite Hsel.
    2:{ left. erewrite bind_raised; [|exact Hqr]. reflexivity. }
    exec (exact Hqr).
    destruct (products (db st) !! p) as [r|]; [|by right; left].
    destruct (qty r <=? 0) eqn:E0; [by right; left|]. apply Z.leb_gt in E0.
    destruct (qty r <? (if q <? 1 then 1 else q)) eqn:E1.
    - destruct yes; [|by right; left]. right; right. exists r. auto.
    - apply Z.ltb_ge in E1. right; right. exists r. auto. }
  split; [|split].
  - intros p sel r Hsel Hp Hq.
    destruct (Hstart p sel Hsel) as (fs & [->|[->|(r' & Hp' & Hpos & _)]]); [done| |].
    + rewrite Hp. cbv zeta. apply Z.leb_le in Hq. by rewrite Hq.
    + assert (r' = r) by congruence. subst. lia.
  - intros p sel r Hsel Hp Hq ->.
    destruct (Hstart p sel Hsel) as (fs & [->|[->|(r' & Hp' & Hpos & [?|Hle])]]);
      [done| |done|].
    + rewrite Hp. cbv zeta. destruct (qty r <=? 0); [done|].
      by destruct (qty r <? (if q <? 1 then 1 else q)).
    + assert (r' = r) by congruence. subst.
      destruct (q <? 1) eqn:E; [apply Z.ltb_lt in E|]; lia.
  - intros p sel r Hf Hsel Hp Hpos Hq ->.
    destruct (sell_item_ok name_like st p sel r q true Hf Hsel Hp Hpos) as
      (st1 & Hrun & _ & _ & _ & Hdb & _); [by right|].
    assert (Hn : sold_amount q (qty r) = qty r).
    { unfold sold_amount. destruct (q <? 1) eqn:E; [apply Z.ltb_lt in E; lia|].
      by rewrite (proj2 (Z.ltb_lt _ _) Hq). }
    rewrite Hn in Hdb.
    assert (st' = st1) as -> by (eapply run_eq; exact Hrun).
    rewrite Hdb. split.
    + unfold sweep.
      match goal with |- context [sweep_rows ?rows ?d] =>
        destruct (sweep_rows_sale_fields rows d
                    (next_rowid (sales_log (db st)) (sales_log_seq (db st)))
                    (mkSale (Some p) (qty r) (buy_price r) (sell_price r)
                            ((sell_price r - buy_price r) * qty r) (clock st)))
          as (x' & Hx' & Hq' & _) end.
      { simpl. apply lookup_insert_eq. }
      exists x'. split; [exact Hx'|exact Hq'].
    + intros r' Hr'. apply sweep_sub in Hr'. simpl in Hr'.
      rewrite lookup_alter_eq, Hp in Hr'. simpl in Hr'.
      inversion Hr'; subst r'. simpl. split; [lia|done].
Qed.

End SellSafety.

(** ** What a callback leaves alone *)


Lemma leaves_list_bind {A B} (m : M A) (k : A -> M B) :
  leaves_list m -> (forall a, leaves_list (k a)) -> leaves_list (bind m k).
Proof.
  intros Hm Hk st. unfold bind. specialize (Hm st).
  destruct (m st) as [[a|] st']; simpl in *; [by rewrite Hk|done].
Qed.

Lemma leaves_list_try {A} (m h : M A) :
  leaves_list m -> leaves_list h -> leaves_list (try_except m h).
Proof.
  intros Hm Hh st. unfold try_except. specialize (Hm st).
  destruct (m st) as [[a|] st']; simpl in *; [done|by rewrite Hh].
Qed.

Lemma leaves_list_connect {A} (f : DB -> option (A * DB)) : leaves_list (connect f).
Proof.
  intros st. unfold connect.
  destruct (faults st) as [|[|] fs]; simpl; try done;
    by destruct (f (db st)) as [[a d']|].
Qed.

Lemma leaves_list_log_action a : leaves_list (log_action a).
Proof. apply leaves_list_try; [apply leaves_list_connect|done]. Qed.

Lemma leaves_list_update_report : leaves_list update_report.
Proof.
  apply leaves_list_bind; [apply leaves_list_connect|]. intros [[[? ?] ?] ?].
  apply leaves_list_bind; [apply leaves_list_connect|]. by intros ?.
Qed.

Section Frames.

Variable name_like : string -> string -> bool.

(** C5, as amended: selling a product that has no row.  When the selected
    id has no row in [products], [sell_item] changes nothing in the file,
    opens no message box and leaves the status line and the undo list as
    they were; with no storage failure it returns normally with the state
    untouched.  Nothing is reported to the operator. *)
Theorem sell_missing_product_silent st p sel q yes :
  selection st = p :: sel -> products (db st) !! p = None ->
  let st' := run (sell_item name_like q yes) st in
  db st' = db st /\ dialogs st' = dialogs st /\ status_label st' = status_label st /\
  _undo_stack st' = _undo_stack st /\
  (faults st = [] -> sell_item name_like q yes st = (Val tt, st)).
Proof.
  intros Hsel Hp st'.
  assert (Hrun : forall fs, (sell_item name_like q yes st = (Val tt, set_faults fs st) \/
                             sell_item name_like q yes st = (Raised, set_faults fs st)) ->
                            st' = set_faults fs st).
  { intros fs [H|H]; unfold st'; eapply run_eq; exact H. }
  destruct (db_query_cases (fun d => products d !! p) st) as (fs & Hq).
  assert (Hcases : sell_item name_like q yes st = (Val tt, set_faults fs st) \/
                   sell_item name_like q yes st = (Raised, set_faults fs st)).
  { unfold sell_item. cbv zeta. pure_step. rewrite Hsel.
    destruct Hq as [Hq|Hq].
    - left. exec (exact Hq). by rewrite Hp.
    - right. erewrite bind_raised; [|exact Hq]. done. }
  rewrite (Hrun fs Hcases). repeat split.
  intros Hf. unfold sell_item. cbv zeta. pure_step. rewrite Hsel.
  exec (by apply db_query_ok). by rewrite Hp.
Qed.

Lemma keeps_where_id (I : DB -> Prop) (k : option Z) (stmt : Z -> DB -> DB) :
  (forall k' d, I d -> I (stmt k' d)) -> forall d, I d -> I (where_id k stmt d).
Proof. intros H d HI. destruct k; simpl; [by apply H|done]. Qed.

(** No branch of [undo_last] writes a sales row: under every schedule of
    failures the ids of [sales_log] after it are among those before. *)
Lemma undo_last_adds_no_sale (ids : gset Z) :
  keeps (fun d => dom (sales_log d) ⊆ ids) (undo_last name_like).
Proof.
  set (I := fun d => dom (sales_log d) ⊆ ids).
  assert (Hdel : forall k d, I d -> I (delete_product k d)).
  { intros k d HI. unfold I. by rewrite delete_product_sales_dom. }
  assert (Hsale : forall k d, I d -> I (delete_sale k d)).
  { intros k d HI. unfold I. simpl. rewrite dom_delete_L.
    intros x Hx. apply elem_of_difference in Hx as [Hx _]. by apply HI. }
  assert (Hlog : forall a, keeps I (log_action a)).
  { intros a. apply keeps_log_action. by intros. }
  unfold undo_last.
  apply keeps_bind.
  { apply keeps_try; [|apply keeps_ret].
    apply keeps_bind.
    - apply keeps_connect. intros d a d' HI Hf.
      destruct (last_row (undo_stack d)) as [[uid r]|]; inversion Hf; subst; done.
    - intros [[uid r]|]; [|apply keeps_ret].
      apply keeps_bind; [by apply keeps_pure|]. intros _. apply keeps_ret. }
  intros [e|]; [|by apply keeps_pure].
  apply keeps_bind; [by apply keeps_pure|]. intros held.
  apply keeps_bind; [|intros _; apply keeps_undo_refresh; intros; by apply Hdel].
  apply keeps_try; [|by apply keeps_pure].
  destruct (bool_decide (entry_action e = "ADD"%string)).
  { apply keeps_bind; [apply keeps_db_execute; by apply keeps_where_id|]. intros _.
    apply keeps_bind; [apply Hlog|]. intros _. by apply keeps_pure. }
  destruct (bool_decide (entry_action e = "SELL"%string)).
  { unfold undo_sell. apply keeps_bind.
    { destruct (pl_prev_qty (entry_payload e)), (pl_prev_sold (entry_payload e));
        apply keeps_db_execute; apply keeps_where_id; by intros. }
    intros _. apply keeps_bind.
    { destruct (truthy (pl_sales_log_id (entry_payload e))); [|apply keeps_ret].
      apply keeps_try; [apply keeps_db_execute; by apply keeps_where_id|].
      apply keeps_try; [|apply keeps_ret].
      apply keeps_connect. intros d a d' HI Hf.
      destruct (find_sale _ _ d); inversion Hf; subst; [by apply Hsale|done]. }
    intros _. apply keeps_bind; [apply Hlog|]. intros _. by apply keeps_pure. }
  destruct (bool_decide (entry_action e = "DELETE"%string)); [|by apply keeps_pure].
  apply keeps_undo_delete.
  - intros d a d' HI Hf. unfold restore_row in Hf.
    destruct (pl_data (entry_payload e)) as [row|]; [|done].
    destruct (pl_product_id (entry_payload e)) as [pid|].
    + unfold insert_product_with_id in Hf.
      destruct (products d !! pid); inversion Hf; subst; done.
    + inversion Hf; subst; done.
  - intros d a d' HI Hf. unfold fallback_row in Hf.
    destruct (pl_data (entry_payload e)) as [row|]; inversion Hf; subst; done.
  - by intros.
Qed.

(** C10: deleting a row of the sales history by hand.  Under every
    schedule of storage failures, [_delete_sales_record] leaves the products
    table, the undo table and the in-memory undo list exactly as they were
    and touches no sales row other than the selected one; when the operator
    confirms and nothing fails, the sales table afterwards is the old one
    without the selected row.  No undo entry is written, and however many
    times [undo_last] then runs, whatever fails, the deleted row does not
    come back. *)
Theorem delete_sales_record_frame st sel yes :
  let st' := run (_delete_sales_record sel yes) st in
  products (db st') = products (db st) /\
  undo_stack (db st') = undo_stack (db st) /\
  _undo_stack st' = _undo_stack st /\
  (forall k, head sel <> Some k -> sales_log (db st') !! k = sales_log (db st) !! k) /\
  (forall sid rest, faults st = [] -> sel = sid :: rest -> yes = true ->
     sales_log (db st') = delete sid (sales_log (db st)) /\
     forall (n : nat) fs,
       sales_log (db (Nat.iter n (run (undo_last name_like)) (set_faults fs st'))) !! sid
       = None).
Proof.
  intros st'.
  set (I := fun d => products d = products (db st) /\
                     undo_stack d = undo_stack (db st) /\
                     forall k, head sel <> Some k ->
                               sales_log d !! k = sales_log (db st) !! k).
  assert (HI : keeps I (_delete_sales_record sel yes)).
  { unfold _delete_sales_record. destruct sel as [|sid rest]; [apply keeps_ret|].
    apply keeps_bind; [by apply keeps_pure|]. intros _.
    destruct yes; [|apply keeps_ret].
    apply keeps_bind.
    { apply keeps_db_execute. intros d (H1 & H2 & H3). repeat split; [done..|].
      intros k Hk. simpl. rewrite lookup_delete_ne; [by apply H3|].
      intros ->. by apply Hk. }
    intros _. apply keeps_bind; [apply keeps_log_action; by intros|]. intros _.
    apply keeps_bind; [apply keeps_update_report|]. intros _. by apply keeps_pure. }
  assert (HL : leaves_list (_delete_sales_record sel yes)).
  { unfold _delete_sales_record. destruct sel as [|sid rest]; [done|].
    apply leaves_list_bind; [done|]. intros _. destruct yes; [|done].
    apply leaves_list_bind; [apply leaves_list_connect|]. intros _.
    apply leaves_list_bind; [apply leaves_list_log_action|]. intros _.
    apply leaves_list_bind; [apply leaves_list_update_report|]. by intros _. }
  destruct (HI st) as (H1 & H2 & H3); [by unfold I|].
  split; [done|]. split; [done|]. split; [apply HL|]. split; [done|].
  intros sid rest Hf -> ->.
  assert (Hdb : sales_log (db st') = delete sid (sales_log (db st))).
  { unfold st', run, _delete_sales_record.
    pure_step.
    exec (by apply db_execute_ok).
    exec (by apply log_action_ok).
    match goal with |- context [bind update_report _ ?s] =>
      destruct (update_report_ok s Hf) as [rep Hrep] end.
    exec (exact Hrep). reflexivity. }
  split; [exact Hdb|].
  intros n fs. apply not_elem_of_dom.
  assert (Hsub : dom (sales_log (db (Nat.iter n (run (undo_last name_like))
                                             (set_faults fs st'))))
                 ⊆ dom (sales_log (db st'))).
  { induction n as [|n IH]; [done|]. simpl.
    by apply (undo_last_adds_no_sale (dom (sales_log (db st')))). }
  intros Hin. apply Hsub in Hin. rewrite Hdb, dom_delete_L in Hin.
  apply elem_of_difference in Hin as [_ Hin]. apply Hin. by apply elem_of_singleton.
Qed.

End Frames.

(** ** Runs in which one connection fails *)

Lemma connect_sched {A} (f : DB -> option (A * DB)) st b fs :
  faults st = b :: fs ->
  connect f st =
  if b then (Raised, set_faults fs st)
  else match f (db st) with
       | Some (a, d) => (Val a, set_db d (set_faults fs st))
       | None => (Raised, set_faults fs st)
       end.
Proof. intros Hf. unfold connect. rewrite Hf. by destruct b. Qed.

Lemma connect_sched_ok {A} (f : DB -> option (A * DB)) st fs a d :
  faults st = false :: fs -> f (db st) = Some (a, d) ->
  connect f st = (Val a, set_db d (set_faults fs st)).
Proof. intros Hf Hd. by rewrite (connect_sched f st false fs Hf), Hd. Qed.

Lemma connect_sched_fail {A} (f : DB -> option (A * DB)) st fs :
  faults st = true :: fs -> connect f st = (Raised, set_faults fs st).
Proof. intros Hf. by rewrite (connect_sched f st true fs Hf). Qed.

Lemma db_query_sched {A} (q : DB -> A) st fs :
  faults st = false :: fs -> db_query q st = (Val (q (db st)), set_faults fs st).
Proof.
  intros Hf. unfold db_query. rewrite (connect_sched _ st false fs Hf).
  by destruct st.
Qed.

Lemma log_action_sched a st b fs :
  faults st = b :: fs ->
  log_action a st =
  (Val tt, if b then set_faults fs st
           else set_db (insert_log a (db st)) (set_faults fs st)).
Proof.
  intros Hf. unfold log_action, attempt, db_execute.
  destruct b.
  - erewrite try_raised; [reflexivity|]. by rewrite (connect_sched _ st true fs Hf).
  - apply try_val. by rewrite (connect_sched _ st false fs Hf).
Qed.

Lemma _push_undo_sched a p st b fs :
  faults st = b :: fs ->
  _push_undo a p st =
  (Val tt,
   if b then set_faults fs (set_clock (clock st + 1) st)
   else set_undo_list
          (_undo_stack st ++ [mkUndoEntry (insert_undo a p (clock st) (db st)).1 a p])
          (set_db (insert_undo a p (clock st) (db st)).2
                  (set_faults fs (set_clock (clock st + 1) st)))).
Proof.
  intros Hf. unfold _push_undo, attempt. destruct b.
  - erewrite try_raised; [reflexivity|].
    pure_step.
    erewrite bind_raised; [reflexivity|].
    by rewrite (connect_sched _ (set_clock (clock st + 1) st) true fs Hf).
  - apply try_val. pure_step.
    erewrite bind_val;
      [|by rewrite (connect_sched _ (set_clock (clock st + 1) st) false fs Hf)].
    reflexivity.
Qed.

Section SeparateCommits.

Variable name_like : string -> string -> bool.

(** Add: the row is committed, the undo append fails. *)
Lemma add_without_undo st n qi bi si b :
  n <> EmptyString -> 0 < qi -> faults st = [false; b; true] ->
  let st' := run (add_product name_like n (Text (Some qi)) (Text (Some bi)) (Text (Some si))) st in
  products (db st') !! next_rowid (products (db st)) (products_seq (db st)) =
    Some (mkProduct n qi bi si 0) /\
  undo_stack (db st') = undo_stack (db st) /\
  status_label st' = Added n.
Proof.
  intros Hn Hq Hf st'. unfold st', run, add_product.
  rewrite bool_decide_eq_false_2 by done.
  erewrite bind_val;
    [|apply try_val; erewrite bind_val;
      [reflexivity|by rewrite (connect_sched _ st false [b; true] Hf)]].
  cbv beta iota.
  erewrite bind_val; [|by apply (log_action_sched _ _ b [true])].
  erewrite bind_val; [|apply (_push_undo_sched _ _ _ true []); by destruct b].
  cbv beta iota.
  match goal with |- context [bind (refresh_list _) _ ?s] =>
    destruct (refresh_list_ok name_like s eq_refl) as (t & rep & Href & _) end.
  exec (exact Href). simpl.
  rewrite sweep_undo_stack. repeat split.
  - apply sweep_keep; [|done]. destruct b; simpl; apply lookup_insert_eq.
  - by destruct b.
Qed.

(** Sell: the stock update and the sales row are committed together, the
    undo append fails. *)
Lemma sell_without_undo st p sel r q yes :
  faults st = [false; false; true] -> selection st = p :: sel ->
  products (db st) !! p = Some r -> 1 <= q -> q < qty r ->
  let st' := run (sell_item name_like q yes) st in
  products (db st') !! p =
    Some (mkProduct (name r) (qty r - q) (buy_price r) (sell_price r) (sold_qty r + q)) /\
  sales_log (db st') !! next_rowid (sales_log (db st)) (sales_log_seq (db st)) =
    Some (mkSale (Some p) q (buy_price r) (sell_price r)
                 ((sell_price r - buy_price r) * q) (clock st)) /\
  undo_stack (db st') = undo_stack (db st).
Proof.
  intros Hf Hsel Hp Hq1 Hq2 st'. unfold st', run, sell_item. cbv zeta.
  pure_step. rewrite Hsel.
  erewrite bind_val; [|by apply (db_query_sched _ _ [false; true])]. rewrite Hp.
  assert ((q <? 1) = false) as -> by (apply Z.ltb_ge; lia).
  assert ((qty r <=? 0) = false) as -> by (apply Z.leb_gt; lia).
  assert ((qty r <? q) = false) as -> by (apply Z.ltb_ge; lia).
  erewrite bind_val.
  2:{ apply try_val. pure_step.
      erewrite bind_val; [reflexivity|].
      apply (connect_sched_ok _ _ [true]); [reflexivity|]. simpl.
      unfold insert_sale. simpl. rewrite lookup_alter_eq, Hp. reflexivity. }
  cbv beta iota.
  erewrite bind_val; [|by apply (_push_undo_sched _ _ _ true [])].
  cbv beta iota.
  exec (by apply log_action_ok).
  match goal with |- context [bind (refresh_list _) _ ?s] =>
    destruct (refresh_list_ok name_like s eq_refl) as (t & rep & Href & _) end.
  exec (exact Href). simpl.
  rewrite sweep_undo_stack. repeat split.
  - apply sweep_keep; [|simpl; lia]. simpl. by rewrite lookup_alter_eq, Hp.
  - eapply sweep_sale; [apply lookup_insert_eq|reflexivity| |].
    + simpl. by rewrite lookup_alter_eq, Hp.
    + simpl. lia.
Qed.

(** Sell: when its one transaction fails, neither the stock nor the sales
    table changes. *)
Lemma sell_refused st p sel r q yes :
  faults st = [false; true] -> selection st = p :: sel ->
  products (db st) !! p = Some r -> 1 <= q -> q <= qty r ->
  let st' := run (sell_item name_like q yes) st in
  db st' = db st /\ dialogs st' = dialogs st ++ [ErrSellFailed].
Proof.
  intros Hf Hsel Hp Hq1 Hq2 st'. unfold st', run, sell_item. cbv zeta.
  pure_step. rewrite Hsel.
  erewrite bind_val; [|by apply (db_query_sched _ _ [true])]. rewrite Hp.
  assert ((q <? 1) = false) as -> by (apply Z.ltb_ge; lia).
  assert ((qty r <=? 0) = false) as -> by (apply Z.leb_gt; lia).
  assert ((qty r <? q) = false) as -> by (apply Z.ltb_ge; lia).
  erewrite bind_val.
  2:{ erewrite try_raised; [reflexivity|].
      pure_step.
      erewrite bind_raised; [reflexivity|].
      by apply (connect_sched_fail _ _ []). }
  done.
Qed.

(** Delete: the undo entry is committed, the DELETE fails. *)
Lemma delete_leaves_undo st p sel r :
  faults st = [false; false; true] -> selection st = p :: sel ->
  products (db st) !! p = Some r ->
  let uid := next_rowid (undo_stack (db st)) (undo_stack_seq (db st)) in
  exists st',
    delete_item name_like true st = (Raised, st') /\
    products (db st') = products (db st) /\
    undo_stack (db st') =
      <[uid := mkUndoRow "DELETE" (mkPayload (Some p) None None None None (Some r)) (clock st)]>
        (undo_stack (db st)).
Proof.
  intros Hf Hsel Hp uid. unfold delete_item.
  pure_step. rewrite Hsel.
  erewrite bind_val; [|by apply (db_query_sched _ _ [false; true])]. rewrite Hp.
  pure_step.
  erewrite bind_val; [|by apply (_push_undo_sched _ _ _ false [true])].
  cbv beta iota.
  erewrite bind_raised; [|by apply (connect_sched_fail _ _ [])].
  eexists. split; [reflexivity|]. done.
Qed.

(** The pop, committed on the first connection of the schedule. *)
Lemma _pop_undo_db_sched st uid row fs :
  faults st = false :: fs -> last_row (undo_stack (db st)) = Some (uid, row) ->
  _pop_undo_db st =
  (Val (Some (mkUndoEntry uid (action row) (payload row))),
   set_undo_list (forget_entry uid (_undo_stack st))
     (set_db (delete_undo uid (db st)) (set_faults fs st))).
Proof.
  intros Hf Hl. unfold _pop_undo_db. apply try_val.
  erewrite bind_val;
    [|apply (connect_sched_ok _ _ fs); [exact Hf|]; rewrite Hl; reflexivity].
  reflexivity.
Qed.

(** Undo of an Add or of a Sell: the pop is committed, the compensation's
    first statement fails. *)
Lemma undo_pops_without_compensation st uid a pl ts :
  faults st = [false; true] ->
  last_row (undo_stack (db st)) = Some (uid, mkUndoRow a pl ts) ->
  a = "ADD"%string \/ a = "SELL"%string ->
  let st' := run (undo_last name_like) st in
  undo_stack (db st') = delete uid (undo_stack (db st)) /\
  (forall p r, products (db st) !! p = Some r -> 0 < qty r ->
               products (db st') !! p = Some r) /\
  dom (sales_log (db st')) = dom (sales_log (db st)) /\
  dialogs st' = dialogs st ++ [ErrUndoFailed].
Proof.
  intros Hf Hlast Ha st'. unfold st', run, undo_last.
  erewrite bind_val; [|exact (_pop_undo_db_sched _ _ _ [true] Hf Hlast)].
  cbn [entry_action entry_payload action payload].
  pure_step.
  assert (Hnot : bool_decide (a = "DELETE"%string) = false) by (by destruct Ha as [->| ->]).
  rewrite Hnot. cbn [andb].
  assert (Hraised :
    (if bool_decide (a = "ADD"%string) then undo_add pl
     else if bool_decide (a = "SELL"%string) then undo_sell pl
     else show WarnNotUndoable)
      (set_undo_list (forget_entry uid (_undo_stack st))
         (set_db (delete_undo uid (db st)) (set_faults [true] st))) =
    (Raised, set_faults []
               (set_undo_list (forget_entry uid (_undo_stack st))
                  (set_db (delete_undo uid (db st)) (set_faults [true] st))))).
  { destruct Ha as [->| ->].
    - rewrite bool_decide_eq_true_2 by done.
      unfold undo_add. erewrite bind_raised; [reflexivity|].
      by apply (connect_sched_fail _ _ []).
    - rewrite bool_decide_eq_false_2 by done. rewrite bool_decide_eq_true_2 by done.
      unfold undo_sell.
      erewrite bind_raised; [reflexivity|].
      destruct (pl_prev_qty pl), (pl_prev_sold pl);
        by apply (connect_sched_fail _ _ []). }
  erewrite bind_val; [|erewrite try_raised; [reflexivity|exact Hraised]].
  match goal with |- context [refresh_list _ ?s] =>
    destruct (refresh_list_ok name_like s eq_refl) as (t & rep & Href & _) end.
  rewrite Href. simpl. rewrite sweep_undo_stack. repeat split.
  - intros p r Hp Hq. by apply sweep_keep.
  - by rewrite sweep_sales_dom.
Qed.

(** Undo of a Delete: the pop is committed, the INSERT under the old id and
    the INSERT without it both fail.  The second failure is passed over:
    nothing is restored, the status line says the delete was undone and no
    message box opens. *)
Lemma undo_delete_restores_nothing st uid pl ts :
  faults st = [false; true; true] ->
  last_row (undo_stack (db st)) = Some (uid, mkUndoRow "DELETE" pl ts) ->
  let st' := run (undo_last name_like) st in
  undo_stack (db st') = delete uid (undo_stack (db st)) /\
  products (db st') = products (sweep name_like (var_search st) (var_filter st) (db st)) /\
  status_label st' = UndoneDelete /\
  dialogs st' = dialogs st.
Proof.
  intros Hf Hlast st'. unfold st', run, undo_last.
  erewrite bind_val; [|exact (_pop_undo_db_sched _ _ _ [true; true] Hf Hlast)].
  cbn [entry_action entry_payload action payload].
  pure_step.
  erewrite bind_val.
  2:{ apply try_val. rewrite bool_decide_eq_false_2 by done.
      rewrite bool_decide_eq_false_2 by done. rewrite bool_decide_eq_true_2 by done.
      unfold undo_delete. pure_step. pure_step.
      erewrite bind_val.
      2:{ erewrite try_raised; [|by apply (connect_sched_fail _ _ [true])].
          unfold attempt. erewrite try_raised; [reflexivity|].
          by apply (connect_sched_fail _ _ []). }
      cbn. reflexivity. }
  match goal with |- context [held_after pl ?s] =>
    change (held_after pl s) with false end.
  rewrite andb_false_r.
  match goal with |- context [refresh_list _ ?s] =>
    destruct (refresh_list_ok name_like s eq_refl) as (t & rep & Href & _) end.
  rewrite Href. simpl. rewrite sweep_undo_stack. repeat split.
  apply map_eq. intros k. by rewrite !sweep_lookup.
Qed.

(** C2, as amended: what is committed together and what is not.  A command
    commits its change to the tables on one connection and the undo entry on
    another; [undo_last] commits the pop on one connection and runs the
    compensation on the next.  Within a sale the stock update and the sales
    row share a transaction.  So, when exactly one connection fails:
    - Add or Sell whose undo append fails leaves the product or the sale in
      the tables with no undo entry;
    - Sell whose transaction fails leaves the tables as they were and says
      so;
    - Delete whose DELETE fails raises, having already stored its undo
      entry for a product that still exists;
    - Undo of an Add or of a Sell whose compensation fails has still
      removed the entry from the stack, leaves every product in stock and
      every sales row in place and reports the failure;
    - Undo of a Delete tries the restore twice, under the old id and
      without it; when both fail it has still removed the entry, restores
      nothing, reports no failure and says the delete was undone. *)
Theorem commits_are_separate :
  (forall st n qi bi si b,
      n <> EmptyString -> 0 < qi -> faults st = [false; b; true] ->
      let st' := run (add_product name_like n (Text (Some qi)) (Text (Some bi))
                                  (Text (Some si))) st in
      products (db st') !! next_rowid (products (db st)) (products_seq (db st)) =
        Some (mkProduct n qi bi si 0) /\
      undo_stack (db st') = undo_stack (db st) /\
      status_label st' = Added n) /\
  (forall st p sel r q yes,
      faults st = [false; false; true] -> selection st = p :: sel ->
      products (db st) !! p = Some r -> 1 <= q -> q < qty r ->
      let st' := run (sell_item name_like q yes) st in
      products (db st') !! p =
        Some (mkProduct (name r) (qty r - q) (buy_price r) (sell_price r) (sold_qty r + q)) /\
      sales_log (db st') !! next_rowid (sales_log (db st)) (sales_log_seq (db st)) =
        Some (mkSale (Some p) q (buy_price r) (sell_price r)
                     ((sell_price r - buy_price r) * q) (clock st)) /\
      undo_stack (db st') = undo_stack (db st)) /\
  (forall st p sel r q yes,
      faults st = [false; true] -> selection st = p :: sel ->
      products (db st) !! p = Some r -> 1 <= q -> q <= qty r ->
      let st' := run (sell_item name_like q yes) st in
      db st' = db st /\ dialogs st' = dialogs st ++ [ErrSellFailed]) /\
  (forall st p sel r,
      faults st = [false; false; true] -> selection st = p :: sel ->
      products (db st) !! p = Some r ->
      exists st',
        delete_item name_like true st = (Raised, st') /\
        products (db st') = products (db st) /\
        undo_stack (db st') =
          <[next_rowid (undo_stack (db st)) (undo_stack_seq (db st)) :=
              mkUndoRow "DELETE" (mkPayload (Some p) None None None None (Some r)) (clock st)]>
            (undo_stack (db st))) /\
  (forall st uid a pl ts,
      faults st = [false; true] ->
      last_row (undo_stack (db st)) = Some (uid, mkUndoRow a pl ts) ->
      a = "ADD"%string \/ a = "SELL"%string ->
      let st' := run (undo_last name_like) st in
      undo_stack (db st') = delete uid (undo_stack (db st)) /\
      (forall p r, products (db st) !! p = Some r -> 0 < qty r ->
                   products (db st') !! p = Some r) /\
      dom (sales_log (db st')) = dom (sales_log (db st)) /\
      dialogs st' = dialogs st ++ [ErrUndoFailed]) /\
  (forall st uid pl ts,
      faults st = [false; true; true] ->
      last_row (undo_stack (db st)) = Some (uid, mkUndoRow "DELETE" pl ts) ->
      let st' := run (undo_last name_like) st in
      undo_stack (db st') = delete uid (undo_stack (db st)) /\
      products (db st') = products (sweep name_like (var_search st) (var_filter st) (db st)) /\
      status_label st' = UndoneDelete /\
      dialogs st' = dialogs st).
Proof.
  split; [exact add_without_undo|].
  split; [exact sell_without_undo|].
  split; [exact sell_refused|].
  split; [exact delete_leaves_undo|].
  split; [exact undo_pops_without_compensation|exact undo_delete_restores_nothing].
Qed.

End SeparateCommits.

(** ** The state a refresh leaves *)


Section RefreshInvariant.

Variable name_like : string -> string -> bool.


(** After a refresh with no storage failure, no listed product is out of
    stock, and every row the list shows is a product in stock. *)
Lemma refresh_list_leaves st :
  faults st = [] -> settled name_like (run (refresh_list name_like) st).
Proof.
  intros Hf. destruct (refresh_list_ok name_like st Hf) as (t & rep & Href & Htree).
  rewrite (run_eq _ _ _ _ Href). repeat split; simpl; [done|apply sweep_clean|done].
Qed.

Lemma settled_products st st' :
  settled name_like st -> faults st' = [] ->
  products (db st') = products (db st) -> var_search st' = var_search st ->
  tree st' = tree st -> settled name_like st'.
Proof.
  intros (_ & Hc & Ht) Hf Hp Hs Htree. split; [done|]. split.
  - unfold clean. by rewrite Hs, Hp.
  - intros pid Hin. rewrite Htree in Hin. destruct (Ht pid Hin) as (r & Hr & Hq).
    exists r. by rewrite Hp.
Qed.

Lemma settled_swept st' q f d :
  faults st' = [] -> var_search st' = q -> db st' = sweep name_like q f d ->
  (forall k, k ∈ tree st' -> in_stock (db st') k) -> settled name_like st'.
Proof.
  intros Hf Hs Hd Ht. split; [done|]. split; [|done].
  rewrite Hs, Hd. apply sweep_clean.
Qed.

(** [settled], checked row by row. *)
Lemma settled_checked st :
  faults st = [] -> clean name_like (var_search st) (db st) ->
  forallb (fun pid => match products (db st) !! pid with
                      | Some r => 0 <? qty r
                      | None => false
                      end) (tree st) = true ->
  settled name_like st.
Proof.
  intros Hf Hc Ht. split; [done|]. split; [done|].
  intros pid Hin. rewrite forallb_forall in Ht.
  specialize (Ht pid (proj1 (list_elem_of_In _ _) Hin)).
  destruct (products (db st) !! pid) as [r|] eqn:E; [|done].
  exists r. split; [exact E|]. by apply Z.ltb_lt.
Qed.

Lemma _pop_undo_db_empty st :
  faults st = [] -> last_row (undo_stack (db st)) = None ->
  _pop_undo_db st = (Val None, st).
Proof.
  intros Hf Hl. unfold _pop_undo_db. apply try_val.
  erewrite bind_val; [|apply connect_ok; [exact Hf|]; rewrite Hl; reflexivity].
  by rewrite set_db_same.
Qed.

(** With no storage failure the restore of a deleted product returns
    normally, whether or not a row could be put back; when the INSERT was
    refused the file is as it was. *)
Lemma undo_delete_returns p st :
  faults st = [] ->
  exists d', undo_delete p st = (Val tt, set_status UndoneDelete (set_db d' st)) /\
             (held_after p st = true -> d' = db st).
Proof.
  intros Hf.
  destruct (held_after p st) eqn:Hh.
  - exists (db st). rewrite set_db_same. split; [|done]. by apply undo_delete_held.
  - assert (Hr : refused p st = false) by (unfold held_after in Hh; by rewrite Hf in Hh).
    unfold undo_delete. pure_step. pure_step. rewrite Hr, Hh.
    unfold refused in Hr. rewrite Hf in Hr.
    destruct (restore_row p (db st)) as [[[] d']|] eqn:Hrow; [|done].
    exists (insert_log "UNDO_DELETE" d'). split; [|done].
    erewrite bind_val; [|apply try_val; by apply connect_ok].
    exec (by apply log_action_ok).
    reflexivity.
Qed.

(** In a run where nothing fails, every callback takes a settled state to a
    settled state, and the program starts in one. *)
Lemma startup_settled d t : settled name_like (run (startup name_like) (blank d [] t)).
Proof.
  unfold run, startup.
  exec (by apply db_execute_ok).
  erewrite bind_val.
  2:{ unfold _load_undo_stack. apply try_val.
      exec (by apply db_query_ok). reflexivity. }
  by apply refresh_list_leaves.
Qed.

Lemma search_typed_settled q st :
  faults st = [] -> settled name_like (run (search_typed name_like q) st).
Proof.
  intros Hf. unfold run, search_typed. pure_step.
  by apply refresh_list_leaves.
Qed.

Lemma filter_chosen_settled f st :
  faults st = [] -> settled name_like (run (filter_chosen name_like f) st).
Proof.
  intros Hf. unfold run, filter_chosen. pure_step.
  by apply refresh_list_leaves.
Qed.

Lemma click_row_settled pid st :
  settled name_like st -> settled name_like (run (click_row pid) st).
Proof.
  intros Hs. pose proof Hs as (Hf & _). unfold run, click_row, modify. simpl.
  case_bool_decide; [|done]. by apply (settled_products st).
Qed.

Lemma add_product_settled n q b s st :
  settled name_like st -> settled name_like (run (add_product name_like n q b s) st).
Proof.
  intros Hs. pose proof Hs as (Hf & _).
  assert (Hshow : forall dlg, settled name_like (run (show dlg) st)).
  { intros dlg. by apply (settled_products st). }
  destruct q as [|[qi|]], b as [|[bi|]], s as [|[si|]];
    try (unfold add_product; try case_bool_decide; apply Hshow).
  destruct (decide (n = EmptyString)) as [Hn|Hn].
  { unfold add_product. rewrite bool_decide_eq_true_2 by done. apply Hshow. }
  destruct (add_product_ok name_like st n qi bi si Hf Hn) as
    (st' & Hrun & Hf' & Hs' & _ & Hdb & _ & Ht).
  rewrite (run_eq _ _ _ _ Hrun). by eapply settled_swept.
Qed.

Lemma sell_item_settled q yes st :
  settled name_like st -> settled name_like (run (sell_item name_like q yes) st).
Proof.
  intros Hs. pose proof Hs as (Hf & _).
  destruct (selection st) as [|p sel] eqn:Hsel.
  { unfold run, sell_item. pure_step. rewrite Hsel.
    by apply (settled_products st). }
  destruct (products (db st) !! p) as [r|] eqn:Hp.
  2:{ unfold run, sell_item. cbv zeta. pure_step. rewrite Hsel.
      exec (by apply db_query_ok). by rewrite Hp. }
  destruct (Z_lt_le_dec 0 (qty r)) as [Hpos|Hout].
  - destruct (Z_le_gt_dec (if q <? 1 then 1 else q) (qty r)) as [Hle|Hgt];
      [|destruct yes].
    + destruct (sell_item_ok name_like st p sel r q yes Hf Hsel Hp Hpos) as
        (st' & Hrun & Hf' & Hs' & _ & Hdb & _ & Ht); [by left|].
      rewrite (run_eq _ _ _ _ Hrun). by eapply settled_swept.
    + destruct (sell_item_ok name_like st p sel r q true Hf Hsel Hp Hpos) as
        (st' & Hrun & Hf' & Hs' & _ & Hdb & _ & Ht); [by right|].
      rewrite (run_eq _ _ _ _ Hrun). by eapply settled_swept.
    +     unfold run, sell_item. cbv zeta. pure_step. rewrite Hsel.
    exec (by apply db_query_ok). rewrite Hp.
    rewrite (proj2 (Z.leb_gt _ _) Hpos).
      assert ((qty r <? (if q <? 1 then 1 else q)) = true) as ->
        by (apply Z.ltb_lt; lia).
      pure_step. by apply (settled_products st).
  - unfold run, sell_item. cbv zeta. pure_step. rewrite Hsel.
    exec (by apply db_query_ok). rewrite Hp.
    rewrite (proj2 (Z.leb_le _ _) Hout). by apply (settled_products st).
Qed.

Lemma delete_item_settled yes st :
  settled name_like st -> settled name_like (run (delete_item name_like yes) st).
Proof.
  intros Hs. pose proof Hs as (Hf & _).
  destruct (selection st) as [|p sel] eqn:Hsel.
  { unfold run, delete_item. pure_step. rewrite Hsel.
    by apply (settled_products st). }
  destruct (products (db st) !! p) as [r|] eqn:Hp.
  2:{ unfold run, delete_item. pure_step. rewrite Hsel.
      exec (by apply db_query_ok). by rewrite Hp. }
  destruct yes.
  - destruct (delete_item_ok name_like st p sel r Hf Hsel Hp) as
      (st' & Hrun & Hf' & Hs' & _ & Hdb & _ & Ht).
    rewrite (run_eq _ _ _ _ Hrun). by eapply settled_swept.
  - unfold run, delete_item. pure_step. rewrite Hsel.
    exec (by apply db_query_ok). rewrite Hp.
    pure_step. by apply (settled_products st).
Qed.

Lemma undo_last_settled st :
  settled name_like st -> settled name_like (run (undo_last name_like) st).
Proof.
  intros Hs. pose proof Hs as (Hf & Hc & _).
  destruct (last_row (undo_stack (db st))) as [[uid row]|] eqn:Hl.
  2:{ unfold run, undo_last. exec (by apply _pop_undo_db_empty).
      by apply (settled_products st). }
  set (st1 := set_undo_list (forget_entry uid (_undo_stack st))
                            (set_db (delete_undo uid (db st)) st)).
  assert (Hbody : exists st2,
    (if bool_decide (action row = "ADD"%string) then undo_add (payload row)
     else if bool_decide (action row = "SELL"%string) then undo_sell (payload row)
     else if bool_decide (action row = "DELETE"%string) then undo_delete (payload row)
     else show WarnNotUndoable) st1 = (Val tt, st2) /\
    faults st2 = [] /\ var_search st2 = var_search st /\
    (bool_decide (action row = "DELETE"%string) && held_after (payload row) st1 = true ->
     products (db st2) = products (db st))).
  { destruct (decide (action row = "DELETE"%string)) as [Hdel|Hdel].
    { rewrite Hdel. rewrite !bool_decide_eq_false_2 by done.
      rewrite bool_decide_eq_true_2 by done.
      destruct (undo_delete_returns (payload row) st1 Hf) as (d' & Hd' & Hsame).
      eexists. split; [exact Hd'|]. split; [done|]. split; [done|].
      simpl. intros Hh. by rewrite (Hsame Hh). }
    rewrite (bool_decide_eq_false_2 _ Hdel).
    destruct (bool_decide (action row = "ADD"%string)).
    { eexists. split; [by apply undo_add_ok|done]. }
    destruct (bool_decide (action row = "SELL"%string)).
    { eexists. split; [by apply undo_sell_ok|done]. }
    eexists. split; [reflexivity|done]. }
  destruct Hbody as (st2 & Hbody & Hf2 & Hs2 & Hp2).
  destruct (undo_last_ok_clean name_like st uid row st2 Hf Hl Hbody) as (t & rep & Hrun & Ht);
    [|exact Hf2|].
  { intros Hh. unfold clean. by rewrite Hs2, (Hp2 Hh). }
  rewrite (run_eq _ _ _ _ Hrun).
  eapply (settled_swept _ (var_search st2)); [exact Hf2|reflexivity|reflexivity|exact Ht].
Qed.

Lemma _delete_sales_record_settled sel yes st :
  settled name_like st -> settled name_like (run (_delete_sales_record sel yes) st).
Proof.
  intros Hs. pose proof Hs as (Hf & _). unfold run, _delete_sales_record.
  destruct sel as [|sid rest]; [done|].
  pure_step.
  destruct yes; [|by apply (settled_products st)].
  exec (by apply db_execute_ok).
  exec (by apply log_action_ok).
  match goal with |- context [bind update_report _ ?s] =>
    destruct (update_report_ok s Hf) as [rep Hrep] end.
  exec (exact Hrep). by apply (settled_products st).
Qed.

End RefreshInvariant.

(** * The scenarios, run *)

(** C4, as amended: Add("Tea", 2, 500, 800), then a sale of 5 that the
    operator lets the program cap.  The sale is recorded for 2 units with
    profit 600, and the undo entry notes the 2 units sold and the earlier
    quantity 2 and sold quantity 0; the refresh that closes the sale deletes
    the product, now out of stock, so no product row is left and the sales
    row has lost its product reference. *)
Theorem tea_capped_sale (name_like : string -> string -> bool) :
  let st0 := run (startup name_like) (blank init_db [] 0) in
  let st1 := run (add_product name_like "Tea" (Text (Some 2)) (Text (Some 500))
                              (Text (Some 800))) st0 in
  let st2 := run (click_row 1) st1 in
  let st3 := run (sell_item name_like 5 true) st2 in
  products (db st1) = {[1 := tea_row]} /\
  products (db st3) = ∅ /\
  (exists ts, sales_log (db st3) = {[1 := mkSale None 2 500 800 600 ts]}) /\
  (exists ts, last_row (undo_stack (db st3)) =
              Some (2, mkUndoRow "SELL"
                         (mkPayload (Some 1) (Some 2) (Some 2) (Some 0) (Some 1) None) ts)) /\
  dialogs st3 = [AskSellAll 2] /\
  status_label st3 = Sold 2 "Tea".
Proof.
  intros st0 st1 st2 st3. vm_compute.
  repeat split; eexists; reflexivity.
Qed.

(** C4 as stated fails: after the scenario the product has no row, so there
    is none with quantity 0 and sold quantity 2. *)
Lemma tea_row_is_gone :
  ~ exists r, products (db (run (sell_item contains 5 true) tea)) !! 1 = Some r /\
              qty r = 0 /\ sold_qty r = 2.
Proof. intros (r & H & _). vm_compute in H. discriminate. Qed.

(** C1 as stated fails when the whole stock is sold: Coffee holds 3, a sale
    of 3 leaves no row for it, and the undo that follows brings none back. *)
Lemma sell_out_then_undo_loses_row :
  faults coffee = [] /\ selection coffee = [1] /\
  products (db coffee) !! 1 = Some coffee_row /\
  (~ exists r, products (db coffee_sold_out) !! 1 = Some r) /\
  (~ exists r, products (db (run (undo_last contains) coffee_sold_out)) !! 1 = Some r).
Proof.
  repeat split; try (vm_compute; reflexivity);
    intros (r & H); vm_compute in H; discriminate.
Qed.

(** C2 as stated fails: the third connection of Add, the one that appends
    the undo entry, fails; the product is in the table all the same, the
    undo stack is still empty, and the command reports success. *)
Lemma add_survives_failed_undo_append :
  let st' := run (add_product contains "Tea" (Text (Some 2)) (Text (Some 500))
                              (Text (Some 800))) third_fails in
  products (db third_fails) = ∅ /\ undo_stack (db third_fails) = ∅ /\
  products (db st') !! 1 = Some tea_row /\
  undo_stack (db st') = ∅ /\
  status_label st' = Added "Tea" /\ dialogs st' = [].
Proof. vm_compute. repeat split. Qed.

(** C5 as stated fails: row 1 is selected, product 1 has no row, and
    [sell_item] returns normally with the state, message boxes included,
    exactly as it was. *)
Lemma sell_missing_reports_nothing :
  selection stale = [1] /\ products (db stale) !! 1 = None /\
  sell_item contains 1 true stale = (Val tt, stale).
Proof. vm_compute. repeat split. Qed.

(** C6, on the code: two sales of one Coffee, the second sales row deleted
    by hand, then Undo.  The entry on top of the stack is the second sale,
    with saved sales id 2; no row has that id any more, and row 1 is the
    most recent one matching the entry's product and quantity.  Undo puts
    the stock back and removes no sales row: row 1 is still there.  The
    search for a matching row runs only when the DELETE by id raises: in the
    same state, with the third connection of the undo failing, row 1 is
    removed. *)
Theorem undo_sell_skips_fallback :
  let st' := run (undo_last contains) second_sale_erased in
  let st'' := run (undo_last contains) (set_faults [false; false; true] second_sale_erased) in
  (exists ts, last_row (undo_stack (db second_sale_erased)) =
              Some (3, mkUndoRow "SELL"
                         (mkPayload (Some 1) (Some 1) (Some 2) (Some 1) (Some 2) None) ts)) /\
  sales_log (db second_sale_erased) !! 2 = None /\
  find_sale (Some 1) 1 (db second_sale_erased) = Some 1 /\
  products (db st') !! 1 = Some (mkProduct "Coffee" 2 1000 1500 1) /\
  sales_log (db st') = sales_log (db second_sale_erased) /\
  is_Some (sales_log (db st') !! 1) /\
  status_label st' = UndoneSell /\
  sales_log (db st'') = ∅.
Proof.
  vm_compute. repeat split; eexists; reflexivity.
Qed.


(** ** The theorems at concrete inputs *)

Lemma sell_then_undo_restores_at_coffee :
  (1 <= 1 /\ 1 < qty coffee_row) /\
  products (db (run (undo_last contains) (run (sell_item contains 1 true) coffee))) !! 1
  = Some coffee_row.
Proof.
  split; [simpl; lia|].
  apply (sell_then_undo_restores contains coffee 1 [] coffee_row 1 true);
    [reflexivity|reflexivity|reflexivity|lia|simpl; lia].
Defined.

Lemma commits_are_separate_at_tea :
  (faults third_fails = [false; false; true] /\
   undo_stack (db (run (add_product contains "Tea" (Text (Some 2)) (Text (Some 500))
                                    (Text (Some 800))) third_fails))
   = undo_stack (db third_fails)) /\
  ((faults compensation_fails = [false; true] /\
    last_row (undo_stack (db compensation_fails)) =
      Some (2, mkUndoRow "SELL"
                 (mkPayload (Some 1) (Some 1) (Some 3) (Some 0) (Some 1) None) 2)) /\
   dialogs (run (undo_last contains) compensation_fails) =
     dialogs compensation_fails ++ [ErrUndoFailed]).
Proof.
  split.
  - split; [reflexivity|].
    apply (proj1 (commits_are_separate contains) third_fails "Tea"%string 2 500 800 false);
      [discriminate|lia|reflexivity].
  - split; [split; reflexivity|].
    exact (proj2 (proj2 (proj2
             (proj1 (proj2 (proj2 (proj2 (proj2 (commits_are_separate contains)))))
                compensation_fails 2 "SELL"%string
                (mkPayload (Some 1) (Some 1) (Some 3) (Some 0) (Some 1) None) 2
                eq_refl eq_refl (or_intror eq_refl))))).
Defined.

Lemma sell_never_negative_at_tea :
  nonneg (db tea) /\ nonneg (db (run (sell_item contains 5 true) tea)).
Proof.
  assert (H : nonneg (db tea)) by (apply (bool_decide_unpack _); vm_compute; exact I).
  split; [exact H|].
  apply (sell_never_negative contains tea 5 true H).
Defined.

Lemma sell_missing_product_silent_at_stale :
  (selection stale = [1] /\ products (db stale) !! 1 = None) /\
  dialogs (run (sell_item contains 1 true) stale) = dialogs stale.
Proof.
  split; [split; reflexivity|].
  apply (sell_missing_product_silent contains stale 1 [] 1 true); reflexivity.
Defined.

Lemma delete_then_undo_restores_at_tea :
  (products (db tea) !! 1 = Some tea_row /\ 0 < qty tea_row) /\
  products (db (run (undo_last contains) (run (delete_item contains true) tea))) !! 1
  = Some tea_row.
Proof.
  split; [split; [reflexivity|simpl; lia]|].
  apply (delete_then_undo_restores contains tea 1 [] tea_row);
    [reflexivity|reflexivity|reflexivity|simpl; lia].
Defined.


Lemma undo_sell_of_missing_product_at_coffee :
  products (db coffee_sold_out) !! 1 = None /\
  exists st', undo_last contains coffee_sold_out = (Val tt, st') /\
              sales_log (db st') !! 1 = None /\ status_label st' = UndoneSell.
Proof.
  split; [reflexivity|].
  destruct (undo_sell_of_missing_product contains coffee_sold_out 2
              (mkPayload (Some 1) (Some 3) (Some 3) (Some 0) (Some 1) None) 2 1 1)
    as (st' & Hrun & _ & _ & _ & Hsale & _ & Hstatus & _);
    [reflexivity|reflexivity|reflexivity|reflexivity|reflexivity|lia|].
  exists st'. auto.
Defined.

Lemma delete_sales_record_frame_at_coffee :
  faults coffee_sold_twice = [] /\
  sales_log (db (run (_delete_sales_record [2] true) coffee_sold_twice))
  = delete 2 (sales_log (db coffee_sold_twice)).
Proof.
  split; [reflexivity|].
  apply (delete_sales_record_frame contains coffee_sold_twice [2] true)
    with (rest := []); reflexivity.
Defined.


(** * Further properties *)

(** ** Sums over a table *)

Lemma sum_over_empty {A} (f : A -> Z) : sum_over f (∅ : gmap Z A) = 0.
Proof. unfold sum_over. apply map_fold_empty. Qed.

Lemma sum_over_insert {A} (f : A -> Z) (m : gmap Z A) k v :
  m !! k = None -> sum_over f (<[k := v]> m) = f v + sum_over f m.
Proof.
  intros Hk. unfold sum_over. rewrite map_fold_insert_L; [done| |done].
  intros. lia.
Qed.

Lemma sum_over_delete {A} (f : A -> Z) (m : gmap Z A) k v :
  m !! k = Some v -> sum_over f (delete k m) = sum_over f m - f v.
Proof.
  intros Hk. rewrite <- (insert_delete_id m k v Hk) at 2.
  rewrite sum_over_insert by apply lookup_delete_eq. lia.
Qed.

Lemma sum_over_ext {A} (f g : A -> Z) (m : gmap Z A) :
  (forall k v, m !! k = Some v -> f v = g v) -> sum_over f m = sum_over g m.
Proof.
  induction m as [|k v m Hk IH] using map_ind; intros H.
  - by rewrite !sum_over_empty.
  - rewrite !sum_over_insert by done.
    rewrite (H k v) by apply lookup_insert_eq. rewrite IH; [done|].
    intros k' v' Hk'. apply (H k'). rewrite lookup_insert_ne; [done|].
    intros ->. congruence.
Qed.

Lemma sum_over_fmap {A} (f : A -> Z) (g : A -> A) (m : gmap Z A) :
  sum_over f (g <$> m) = sum_over (fun x => f (g x)) m.
Proof. unfold sum_over. by rewrite map_fold_fmap. Qed.

(** Deleting a product changes no amount of the sales log. *)
Lemma delete_product_profit k d :
  sum_over profit (sales_log (delete_product k d)) = sum_over profit (sales_log d).
Proof.
  unfold delete_product. destruct (products d !! k); [|done]. simpl.
  rewrite sum_over_fmap. apply sum_over_ext. intros s x _.
  unfold forget_product. by case_bool_decide.
Qed.

Lemma sweep_rows_profit rows d :
  sum_over profit (sales_log (sweep_rows rows d)) = sum_over profit (sales_log d).
Proof.
  revert d. induction rows as [|[pid r] rows IH]; intros d; simpl; [done|].
  rewrite IH. destruct (qty r <=? 0); [apply delete_product_profit|done].
Qed.

(** ** A refresh, exactly *)

Lemma update_report_exact st :
  faults st = [] ->
  update_report st = (Val tt, set_report (Some (report_of (db st))) st).
Proof.
  intros Hf. unfold update_report.
  exec (by apply db_query_ok). exec (by apply db_query_ok). reflexivity.
Qed.

Lemma show_rows_exact f rows st :
  faults st = [] ->
  show_rows f rows st =
  (Val tt, set_tree (tree st ++ map fst (filter (fun kr => shown f kr = true) rows))
                    (selection st) (set_db (sweep_rows rows (db st)) st)).
Proof.
  revert st. induction rows as [|[pid r] rows IH]; intros st Hf; simpl.
  - rewrite app_nil_r. unfold ret. by destruct st.
  - rewrite filter_cons.
    destruct (qty r <=? 0) eqn:E.
    + assert (shown f (pid, r) = false) as Hs.
      { unfold shown. simpl.
        assert ((0 <? qty r) = false) as ->
          by (apply Z.ltb_ge; by apply Z.leb_le). done. }
      rewrite decide_False by (rewrite Hs; done).
      erewrite bind_val;
        [|unfold attempt; apply try_val; by apply db_execute_ok].
      rewrite IH by done. reflexivity.
    + assert (shown f (pid, r) =
              negb (match f with FilterBelow5 => 5 <=? qty r | _ => false end)) as Hs.
      { unfold shown. simpl.
        assert ((0 <? qty r) = true) as ->
          by (apply Z.ltb_lt; by apply Z.leb_gt). done. }
      destruct (match f with FilterBelow5 => 5 <=? qty r | _ => false end); simpl in Hs.
      * rewrite decide_False by (rewrite Hs; done). by apply IH.
      * rewrite decide_True by done. pure_step. rewrite IH by done.
        simpl. by rewrite <- app_assoc.
Qed.

Lemma show_rows_locked_exact f rows st :
  faults st = [] ->
  show_rows_locked f rows st =
  (Val tt, set_tree (tree st ++ map fst (filter (fun kr => shown f kr = true) rows))
                    (selection st) st).
Proof.
  revert st. induction rows as [|[pid r] rows IH]; intros st Hf; simpl.
  - rewrite app_nil_r. unfold ret. by destruct st.
  - rewrite filter_cons.
    destruct (qty r <=? 0) eqn:E.
    + assert (shown f (pid, r) = false) as Hs.
      { unfold shown. simpl.
        assert ((0 <? qty r) = false) as ->
          by (apply Z.ltb_ge; by apply Z.leb_le). done. }
      rewrite decide_False by (rewrite Hs; done).
      erewrite bind_val; [|by apply busy_quiet].
      by rewrite IH.
    + assert (shown f (pid, r) =
              negb (match f with FilterBelow5 => 5 <=? qty r | _ => false end)) as Hs.
      { unfold shown. simpl.
        assert ((0 <? qty r) = true) as ->
          by (apply Z.ltb_lt; by apply Z.leb_gt). done. }
      destruct (match f with FilterBelow5 => 5 <=? qty r | _ => false end); simpl in Hs.
      * rewrite decide_False by (rewrite Hs; done). by apply IH.
      * rewrite decide_True by done. pure_step. rewrite IH by done.
        simpl. by rewrite <- app_assoc.
Qed.

Section RefreshExact.

Variable name_like : string -> string -> bool.

Lemma refresh_list_locked_exact st :
  faults st = [] ->
  exists st', refresh_list_locked name_like st = (Val tt, st') /\
              refreshed_locked name_like st st' /\
              status_label st' = status_label st.
Proof.
  intros Hf. unfold refresh_list_locked.
  pure_step. pure_step. exec (by apply db_query_ok). pure_step.
  exec (by apply show_rows_locked_exact).
  rewrite update_report_exact by done.
  eexists. split; [reflexivity|]. by repeat split.
Qed.

Lemma refresh_list_exact st :
  faults st = [] ->
  exists st', refresh_list name_like st = (Val tt, st') /\
              refreshed_from name_like st st' /\
              status_label st' = status_label st.
Proof.
  intros Hf. unfold refresh_list.
  pure_step. pure_step. exec (by apply db_query_ok). pure_step.
  exec (by apply show_rows_exact).
  rewrite update_report_exact by done.
  eexists. split; [reflexivity|]. by repeat split.
Qed.

(** The tail of every command that changed the file: refresh, then the
    status line. *)
Lemma refresh_then_status s mid :
  faults mid = [] ->
  exists st', (refresh_list name_like ;; status s) mid = (Val tt, st') /\
              refreshed_from name_like mid st' /\ status_label st' = s.
Proof.
  intros Hf. destruct (refresh_list_exact mid Hf) as (st1 & Hrun & Href & _).
  exec (exact Hrun). eexists. split; [reflexivity|]. split; [|done].
  destruct Href as (? & ? & ? & ? & ? & ? & ? & ? & ?). by repeat split.
Qed.

End RefreshExact.

(** ** The order of a listing *)

Lemma StronglySorted_mono {A} (R1 R2 : relation A) l :
  (forall x y, x ∈ l -> y ∈ l -> R1 x y -> R2 x y) ->
  StronglySorted R1 l -> StronglySorted R2 l.
Proof.
  intros H Hl. induction Hl as [|x l Hl IH Hx]; constructor.
  - apply IH. intros a b Ha Hb. apply H; by right.
  - apply Forall_forall. intros y Hy. apply H; [by left|by right|].
    by eapply Forall_forall in Hx.
Qed.

Lemma StronglySorted_filter_keep {A} (R : relation A) (P : A -> Prop)
    `{!forall x, Decision (P x)} l :
  StronglySorted R l -> StronglySorted R (filter P l).
Proof.
  intros Hl. induction Hl as [|x l Hl IH Hx]; [constructor|].
  rewrite filter_cons. destruct (decide (P x)); [|done].
  constructor; [done|]. apply Forall_forall. intros y Hy.
  apply list_elem_of_filter in Hy as [_ Hy]. by eapply Forall_forall in Hx.
Qed.

Lemma StronglySorted_map_in {A B} (f : A -> B) (R1 : relation A) (R2 : relation B) l :
  (forall x y, x ∈ l -> y ∈ l -> R1 x y -> R2 (f x) (f y)) ->
  StronglySorted R1 l -> StronglySorted R2 (map f l).
Proof.
  intros H Hl. induction Hl as [|x l Hl IH Hx]; simpl; constructor.
  - apply IH. intros a b Ha Hb. apply H; by right.
  - apply Forall_forall. intros y Hy. apply list_elem_of_fmap in Hy as (z & -> & Hz).
    apply H; [by left|by right|]. by eapply Forall_forall in Hx.
Qed.

Lemma NoDup_fmap_sorted {A B} (f : A -> B) l :
  NoDup (map f l) -> StronglySorted (fun a b => f a <> f b) l.
Proof.
  induction l as [|x l IH]; simpl; intros Hl; [constructor|].
  apply NoDup_cons in Hl as [Hx Hl]. constructor; [by apply IH|].
  apply Forall_forall. intros y Hy Heq. apply Hx. rewrite Heq.
  apply list_elem_of_fmap. by exists y.
Qed.

(** The sort is stable: rows of equal key stay in the order they came in. *)
Lemma insert_by_sorted {A} (key : A -> Z) (R : relation A) x l :
  Forall (R x) l ->
  StronglySorted (by_key key R) l -> StronglySorted (by_key key R) (insert_by key x l).
Proof.
  intros Hx Hl. induction Hl as [|y l Hl IH Hy]; simpl.
  - repeat constructor.
  - apply Forall_cons in Hx as [Hxy Hx].
    destruct (key x <=? key y) eqn:E.
    + apply Z.leb_le in E. constructor; [by constructor|].
      constructor.
      * unfold by_key. destruct (decide (key x = key y)); [by right|left; lia].
      * apply Forall_forall. intros z Hz.
        eapply Forall_forall in Hy; [|exact Hz].
        eapply Forall_forall in Hx; [|exact Hz].
        unfold by_key in *. destruct (decide (key x = key z)); [by right|left; lia].
    + apply Z.leb_gt in E. constructor; [by apply IH|].
      rewrite insert_by_perm. constructor; [|done]. left. lia.
Qed.

Lemma sort_by_sorted {A} (key : A -> Z) (R : relation A) l :
  StronglySorted R l -> StronglySorted (by_key key R) (sort_by key l).
Proof.
  intros Hl. induction Hl as [|x l Hl IH Hx]; simpl; [constructor|].
  apply insert_by_sorted; [|done]. fold (sort_by key l). by rewrite sort_by_perm.
Qed.

Lemma scan_sorted {A} (m : gmap Z A) :
  StronglySorted (fun a b => a.1 < b.1) (scan m).
Proof.
  unfold scan.
  eapply StronglySorted_mono;
    [|apply (sort_by_sorted fst (fun a b => a.1 <> b.1)),
            NoDup_fmap_sorted, NoDup_fst_map_to_list].
  intros x y _ _ [H|[H1 H2]]; [done|by destruct H2].
Qed.

Lemma scan_NoDup {A} (m : gmap Z A) : NoDup (map fst (scan m)).
Proof.
  unfold scan. rewrite sort_by_perm. apply NoDup_fst_map_to_list.
Qed.

Section ListOrder.

Variable name_like : string -> string -> bool.

Lemma listing_perm q f d :
  listing name_like q f d ≡ₚ
  filter (fun kr => listed name_like q kr.2 = true) (scan (products d)).
Proof. unfold listing. destruct f; by rewrite ?sort_by_perm. Qed.

Lemma list_of_NoDup q f d : NoDup (list_of name_like q f d).
Proof.
  unfold list_of. rewrite listing_perm.
  eapply sublist_NoDup; [apply (scan_NoDup (products d))|].
  apply (fmap_sublist fst). etrans; apply sublist_filter.
Qed.

Lemma elem_of_list_of q f d pid :
  pid ∈ list_of name_like q f d <->
  exists r, products d !! pid = Some r /\ listed name_like q r = true /\
            0 < qty r /\ (f = FilterBelow5 -> qty r < 5).
Proof.
  unfold list_of. split.
  - intros H. apply list_elem_of_fmap in H as ([k r] & -> & H).
    apply list_elem_of_filter in H as [Hs H].
    apply elem_of_listing in H as [Hk Hl]. exists r.
    unfold shown in Hs. simpl in *.
    apply andb_true_iff in Hs as [Hq Hf]. apply Z.ltb_lt in Hq.
    repeat split; try done. intros ->. apply negb_true_iff, Z.leb_gt in Hf. lia.
  - intros (r & Hk & Hl & Hq & Hf).
    apply list_elem_of_fmap. exists (pid, r). split; [done|].
    apply list_elem_of_filter. split; [|by apply elem_of_listing].
    unfold shown. simpl. apply andb_true_iff. split; [by apply Z.ltb_lt|].
    apply negb_true_iff. destruct f; try done. apply Z.leb_gt. by apply Hf.
Qed.

(** The rows of a listing, in the order of its filter. *)
Lemma listing_sorted q f d :
  StronglySorted
    (match f with
     | FilterLowest => by_key (fun kr => qty kr.2) (fun a b => b.1 < a.1)
     | FilterBestSeller => fun a b => sold_qty b.2 <= sold_qty a.2
     | FilterMostProfit => fun a b => profit_key b.2 <= profit_key a.2
     | _ => fun a b => b.1 < a.1
     end)
    (listing name_like q f d).
Proof.
  pose proof (StronglySorted_filter_keep _
                (fun kr => listed name_like q kr.2 = true) _
                (scan_sorted (products d))) as Hhits.
  assert (Hdesc : StronglySorted (fun a b : Z * Product => b.1 < a.1)
            (sort_by (fun kr => - kr.1)
               (filter (fun kr => listed name_like q kr.2 = true) (scan (products d))))).
  { eapply StronglySorted_mono; [|apply (sort_by_sorted _ _ _ Hhits)].
    intros x y _ _ [H|[H1 H2]]; simpl in *; lia. }
  unfold listing. destruct f; try exact Hdesc.
  - by apply sort_by_sorted.
  - eapply StronglySorted_mono; [|apply (sort_by_sorted _ _ _ Hhits)].
    intros x y _ _ [H|[H1 H2]]; simpl in *; lia.
  - eapply StronglySorted_mono; [|apply (sort_by_sorted _ _ _ Hhits)].
    intros x y _ _ [H|[H1 H2]]; cbv beta in *; lia.
Qed.

End ListOrder.

(** While the difference and the product are 64-bit integers the key of
    the "most profitable" order is the gain. *)
Lemma profit_key_exact r :
  int64 (sell_price r - buy_price r) = true -> int64 (gain r) = true ->
  profit_key r = gain r.
Proof.
  unfold profit_key, gain, sql_sub, sql_mul. intros -> H. by rewrite H.
Qed.

(** Beyond them it is the double next to it: the gains of A and B differ
    and their keys do not, so that A, the older row, is listed before B. *)
Lemma most_profitable_ties :
  gain (fortune "A" (2 ^ 62 + 1)) < gain (fortune "B" (2 ^ 62 + 2)) /\
  profit_key (fortune "A" (2 ^ 62 + 1)) = 2 ^ 63 /\
  profit_key (fortune "B" (2 ^ 62 + 2)) = 2 ^ 63 /\
  tree (run (refresh_list contains) fortunes) = [3; 1; 2].
Proof. vm_compute. repeat split. Qed.

(** A stock whose value at buy price is beyond the 64-bit integers. *)
Lemma stock_value_beyond_int64 :
  stock_value {[ 1 := mkProduct "Gold" 3000000001 4000000001 1 0 ]} = Approximate /\
  stock_value {[ 1 := mkProduct "Tea" 2 500 800 0 ]} = Exact 1000.
Proof. vm_compute. by split. Qed.

Section ProductList.

Variable name_like : string -> string -> bool.

(** X1 (refresh_list): when no connection fails, the refreshed list shows
    each product once, and it shows exactly the products the file then
    holds whose name matches the search text and, under the filter
    "below 5", whose stock is below 5. *)
Theorem refresh_list_shows st :
  faults st = [] ->
  let st' := run (refresh_list name_like) st in
  NoDup (tree st') /\
  forall pid, pid ∈ tree st' <->
    exists r, products (db st') !! pid = Some r /\
              listed name_like (var_search st) r = true /\
              (var_filter st = FilterBelow5 -> qty r < 5).
Proof.
  intros Hf st'.
  destruct (refresh_list_exact name_like st Hf)
    as (st1 & Hrun & (_ & _ & _ & Hdb & Htree & _) & _).
  unfold st'. rewrite (run_eq _ _ _ _ Hrun), Htree, Hdb.
  split; [apply list_of_NoDup|].
  intros pid. rewrite elem_of_list_of. split.
  - intros (r & Hk & Hl & Hq & Hfl). exists r. split; [|done].
    by apply sweep_keep.
  - intros (r & Hk & Hl & Hfl). exists r.
    rewrite sweep_lookup in Hk.
    destruct (products (db st) !! pid) as [r'|]; [|done].
    destruct (listed name_like (var_search st) r' && (qty r' <=? 0)) eqn:E; [done|].
    injection Hk as ->. rewrite Hl in E. apply Z.leb_gt in E. done.
Qed.

(** X2 (refresh_list): the order of the refreshed list.  Newest product
    first by default; under "lowest stock" by ascending stock, products of
    equal stock newest first; under "best seller" by descending sold
    quantity; under "most profitable" by descending
    [sold_qty * (sell_price - buy_price)] as the engine computes it: in
    64-bit integers while the difference and the product are such
    integers, and rounded to doubles beyond them, where distinct gains may
    compare as equal. *)
Theorem refresh_list_order st :
  faults st = [] ->
  let st' := run (refresh_list name_like) st in
  StronglySorted
    (match var_filter st with
     | FilterLowest => by_key (column qty (db st')) (fun a b => b < a)
     | FilterBestSeller => fun a b => column sold_qty (db st') b <= column sold_qty (db st') a
     | FilterMostProfit =>
         fun a b => column profit_key (db st') b <= column profit_key (db st') a
     | _ => fun a b => b < a
     end)
    (tree st').
Proof.
  intros Hf st'.
  destruct (refresh_list_exact name_like st Hf)
    as (st1 & Hrun & (_ & _ & _ & Hdb & Htree & _) & _).
  unfold st'. rewrite (run_eq _ _ _ _ Hrun), Htree, Hdb. unfold list_of.
  pose proof (StronglySorted_filter_keep _
                (fun kr => shown (var_filter st) kr = true) _
                (listing_sorted name_like (var_search st) (var_filter st) (db st)))
    as Hs.
  eapply StronglySorted_map_in; [|exact Hs].
  intros [k1 r1] [k2 r2] H1 H2.
  assert (Hcol : forall k r g,
            (k, r) ∈ filter (fun kr => shown (var_filter st) kr = true)
                       (listing name_like (var_search st) (var_filter st) (db st)) ->
            column g (sweep name_like (var_search st) (var_filter st) (db st)) k = g r).
  { intros k r g H. apply list_elem_of_filter in H as [Hsh H].
    apply elem_of_listing in H as [Hk _].
    unfold shown in Hsh. apply andb_true_iff in Hsh as [Hq _]. apply Z.ltb_lt in Hq.
    unfold column. by rewrite (sweep_keep _ _ _ _ _ _ Hk Hq). }
  destruct (var_filter st); simpl; try done.
  - unfold by_key. simpl. by rewrite !(Hcol _ _ qty H1), !(Hcol _ _ qty H2).
  - by rewrite (Hcol _ _ sold_qty H1), (Hcol _ _ sold_qty H2).
  - by rewrite (Hcol _ _ profit_key H1), (Hcol _ _ profit_key H2).
Qed.

End ProductList.

(** ** The undo list and the undo table *)

Lemma scan_insert_above {A} (m : gmap Z A) k v :
  (forall k', is_Some (m !! k') -> k' < k) ->
  scan (<[k := v]> m) = scan m ++ [(k, v)].
Proof.
  intros Hk.
  assert (Hnone : m !! k = None).
  { destruct (m !! k) eqn:E; [|done]. specialize (Hk k). rewrite E in Hk.
    specialize (Hk (mk_is_Some _ _ eq_refl)). lia. }
  apply (StronglySorted_unique_strong (fun a b : Z * A => a.1 < b.1)).
  - intros x1 x2 _ _ H1 H2. lia.
  - apply scan_sorted.
  - apply StronglySorted_app. split; [|split; [|by repeat constructor]].
    + intros [k1 v1] [k2 v2] H1 H2. apply elem_of_scan in H1.
      apply list_elem_of_singleton in H2. injection H2 as -> ->. simpl.
      apply Hk. by rewrite H1.
    + apply scan_sorted.
  - unfold scan. rewrite !sort_by_perm, map_to_list_insert by done.
    by rewrite Permutation_cons_append.
Qed.

Lemma scan_last_row {A} (m : gmap Z A) k v :
  last_row m = Some (k, v) -> scan m = scan (delete k m) ++ [(k, v)].
Proof.
  intros Hl. pose proof (last_row_max m) as H. rewrite Hl in H.
  destruct H as [Hk Hmax].
  rewrite <- (insert_delete_id m k v Hk) at 1.
  apply scan_insert_above. intros k' [v' Hk'].
  destruct (decide (k' = k)) as [->|Hne]; [by rewrite lookup_delete_eq in Hk'|].
  rewrite lookup_delete_ne in Hk' by done.
  specialize (Hmax k' (mk_is_Some _ _ Hk')). lia.
Qed.

Lemma mirror_of_insert_undo a p ts d :
  mirror_of (insert_undo a p ts d).2 =
  mirror_of d ++ [mkUndoEntry (insert_undo a p ts d).1 a p].
Proof.
  unfold mirror_of, insert_undo. simpl.
  rewrite scan_insert_above; [by rewrite map_app|].
  intros k' Hk'. by apply next_rowid_above.
Qed.

Lemma mirror_of_delete_undo d uid row :
  last_row (undo_stack d) = Some (uid, row) ->
  forget_entry uid (mirror_of d) = mirror_of (delete_undo uid d).
Proof.
  intros Hl. unfold mirror_of, delete_undo. simpl.
  rewrite (scan_last_row _ _ _ Hl), map_app. simpl.
  unfold forget_entry. rewrite last_snoc. simpl. rewrite Z.eqb_refl.
  apply removelast_last.
Qed.

Lemma mirrored_same st st' :
  undo_stack (db st') = undo_stack (db st) -> _undo_stack st' = _undo_stack st ->
  mirrored st -> mirrored st'.
Proof. unfold mirrored, mirror_of. intros -> ->. done. Qed.

Lemma holds_ret {A} (I : App -> Prop) (a : A) : holds I (ret a).
Proof. by intros st. Qed.

Lemma holds_bind {A B} (I : App -> Prop) (m : M A) (k : A -> M B) :
  holds I m -> (forall a, holds I (k a)) -> holds I (bind m k).
Proof.
  intros Hm Hk st HI. unfold bind. specialize (Hm st HI).
  destruct (m st) as [[a|] st']; simpl in *; [by apply Hk|done].
Qed.

Lemma holds_try {A} (I : App -> Prop) (m h : M A) :
  holds I m -> holds I h -> holds I (try_except m h).
Proof.
  intros Hm Hh st HI. unfold try_except. specialize (Hm st HI).
  destruct (m st) as [[a|] st']; simpl in *; [done|by apply Hh].
Qed.

Lemma mirrored_pure {A} (m : M A) :
  (forall st, undo_stack (db (m st).2) = undo_stack (db st) /\
              _undo_stack (m st).2 = _undo_stack st) ->
  holds mirrored m.
Proof. intros H st. destruct (H st). by apply mirrored_same. Qed.

Lemma mirrored_connect {A} (f : DB -> option (A * DB)) :
  (forall d a d', f d = Some (a, d') -> undo_stack d' = undo_stack d) ->
  holds mirrored (connect f).
Proof.
  intros Hf. apply mirrored_pure. intros st. unfold connect.
  destruct (faults st) as [|[|] fs]; simpl; try done;
    destruct (f (db st)) as [[a d']|] eqn:E; simpl; eauto.
Qed.

Lemma mirrored__push_undo a p : holds mirrored (_push_undo a p).
Proof.
  intros st H. unfold mirrored in *.
  destruct (faults st) as [|b fs] eqn:Hf.
  - rewrite _push_undo_ok by done. simpl. rewrite H. symmetry.
    apply mirror_of_insert_undo.
  - rewrite (_push_undo_sched a p st b fs Hf). destruct b; simpl; [done|].
    rewrite H. symmetry. apply mirror_of_insert_undo.
Qed.

Lemma mirrored__pop_undo_db : holds mirrored _pop_undo_db.
Proof.
  intros st H. unfold mirrored in *. unfold _pop_undo_db, try_except, bind, connect.
  destruct (faults st) as [|[|] fs]; simpl; try done;
    destruct (last_row (undo_stack (db st))) as [[uid row]|] eqn:Hl; simpl; try done;
    rewrite H; by eapply mirror_of_delete_undo.
Qed.

Ltac table_same :=
  intros;
  unfold restore_row, fallback_row, insert_sale, insert_product_with_id,
    insert_product, where_id, delete_product in *;
  repeat case_match; simplify_eq/=; try done.

Ltac mirrored_step :=
  first
    [ apply holds_ret
    | apply mirrored__push_undo
    | apply mirrored__pop_undo_db
    | apply mirrored_pure; intros; split; reflexivity
    | apply mirrored_connect; by table_same
    | apply holds_bind; [|intros ?]
    | apply holds_try ].

Section Mirror.

Variable name_like : string -> string -> bool.

Lemma mirrored_show_rows f rows : holds mirrored (show_rows f rows).
Proof.
  induction rows as [|[pid r] rows IH]; simpl; [apply holds_ret|].
  repeat case_match; repeat mirrored_step; done.
Qed.

Lemma mirrored_update_report : holds mirrored update_report.
Proof. unfold update_report. repeat mirrored_step. repeat case_match. mirrored_step. Qed.

Lemma mirrored_refresh_list : holds mirrored (refresh_list name_like).
Proof.
  unfold refresh_list.
  apply holds_bind; [mirrored_step|intros q].
  apply holds_bind; [mirrored_step|intros f].
  apply holds_bind; [mirrored_step|intros rows].
  apply holds_bind; [mirrored_step|intros _].
  apply holds_bind; [apply mirrored_show_rows|intros _; apply mirrored_update_report].
Qed.

Lemma mirrored_show_rows_locked f rows : holds mirrored (show_rows_locked f rows).
Proof.
  induction rows as [|[pid r] rows IH]; simpl; [apply holds_ret|].
  repeat case_match; repeat mirrored_step; done.
Qed.

Lemma mirrored_refresh_list_locked : holds mirrored (refresh_list_locked name_like).
Proof.
  unfold refresh_list_locked.
  apply holds_bind; [mirrored_step|intros q].
  apply holds_bind; [mirrored_step|intros f].
  apply holds_bind; [mirrored_step|intros rows].
  apply holds_bind; [mirrored_step|intros _].
  apply holds_bind; [apply mirrored_show_rows_locked|intros _; apply mirrored_update_report].
Qed.

Ltac mirrored_go :=
  repeat first
    [ apply mirrored_refresh_list
    | apply mirrored_refresh_list_locked
    | apply mirrored_update_report
    | mirrored_step
    | case_match ].

Lemma mirrored_add_product n q b s : holds mirrored (add_product name_like n q b s).
Proof. unfold add_product. mirrored_go. Qed.

Lemma mirrored_sell_item q yes : holds mirrored (sell_item name_like q yes).
Proof. unfold sell_item. cbv zeta. mirrored_go. Qed.

Lemma mirrored_delete_item yes : holds mirrored (delete_item name_like yes).
Proof. unfold delete_item. mirrored_go. Qed.

Lemma mirrored_undo_last : holds mirrored (undo_last name_like).
Proof.
  unfold undo_last, undo_add, undo_sell, undo_delete. cbv zeta. mirrored_go.
Qed.

Lemma mirrored__delete_sales_record sel yes :
  holds mirrored (_delete_sales_record sel yes).
Proof. unfold _delete_sales_record. mirrored_go. Qed.

Lemma mirrored_click_row pid : holds mirrored (click_row pid).
Proof.
  apply mirrored_pure. intros st. unfold click_row, modify. simpl.
  by case_bool_decide.
Qed.

Lemma mirrored_startup st : faults st = [] -> mirrored (run (startup name_like) st).
Proof.
  intros Hf. unfold run, startup.
  exec (by apply db_execute_ok).
  erewrite bind_val.
  2:{ unfold _load_undo_stack. apply try_val.
      exec (by apply db_query_ok). reflexivity. }
  apply mirrored_refresh_list. reflexivity.
Qed.

(** X3 (_push_undo, _pop_undo_db, _load_undo_stack): [self._undo_stack]
    mirrors the undo table.  A start in which no connection fails loads the
    table in id order, and from a state in which the list mirrors the table
    every command leaves it so, whichever connections fail. *)
Theorem undo_list_mirrors_table :
  (forall st, faults st = [] -> mirrored (run (startup name_like) st)) /\
  (forall st, mirrored st ->
     (forall n q b s, mirrored (run (add_product name_like n q b s) st)) /\
     (forall q yes, mirrored (run (sell_item name_like q yes) st)) /\
     (forall yes, mirrored (run (delete_item name_like yes) st)) /\
     mirrored (run (undo_last name_like) st) /\
     (forall sel yes, mirrored (run (_delete_sales_record sel yes) st)) /\
     (forall q, mirrored (run (search_typed name_like q) st)) /\
     (forall f, mirrored (run (filter_chosen name_like f) st)) /\
     (forall pid, mirrored (run (click_row pid) st))).
Proof.
  split; [apply mirrored_startup|]. intros st H. repeat split; intros.
  - by apply mirrored_add_product.
  - by apply mirrored_sell_item.
  - by apply mirrored_delete_item.
  - by apply mirrored_undo_last.
  - by apply mirrored__delete_sales_record.
  - revert H. apply holds_bind; [mirrored_step|intros _; apply mirrored_refresh_list].
  - revert H. apply holds_bind; [mirrored_step|intros _; apply mirrored_refresh_list].
  - by apply mirrored_click_row.
Qed.

(** X4 (_push_undo, _pop_undo_db): an entry pushed is the entry popped.
    When no connection fails, a pop right after a push returns the action
    and the payload pushed (under the id the table gave it) and leaves the
    undo table and the in-memory list as they were before the push. *)
Theorem push_then_pop st a p :
  faults st = [] ->
  exists uid st',
    (_push_undo a p ;; _pop_undo_db) st = (Val (Some (mkUndoEntry uid a p)), st') /\
    (forall k, is_Some (undo_stack (db st) !! k) -> k < uid) /\
    undo_stack (db st') = undo_stack (db st) /\
    _undo_stack st' = _undo_stack st.
Proof.
  intros Hf.
  exec (by apply _push_undo_ok).
  set (uid := next_rowid (undo_stack (db st)) (undo_stack_seq (db st))).
  erewrite _pop_undo_db_ok; [|done|simpl; apply last_row_insert_next].
  exists uid. eexists. split; [reflexivity|]. simpl. repeat split.
  - intros k Hk. by apply next_rowid_above.
  - rewrite delete_insert_eq. apply delete_id, next_rowid_fresh.
  - unfold forget_entry. rewrite last_snoc. simpl.
    fold uid. rewrite Z.eqb_refl. apply removelast_last.
Qed.

End Mirror.

(** ** The commands, run to the end *)

Section CommandsDone.

Variable name_like : string -> string -> bool.

Local Abbreviation sweep := (sweep name_like).
Local Abbreviation clean := (clean name_like).

Lemma sweep_products q f d d' :
  products d = products d' -> products (sweep q f d) = products (sweep q f d').
Proof.
  intros H. apply map_eq. intros k. by rewrite !sweep_lookup, H.
Qed.

Lemma add_product_done st n qi bi si :
  faults st = [] -> n <> EmptyString ->
  let k := next_rowid (products (db st)) (products_seq (db st)) in
  let d1 := insert_log "ADD"
              (set_products (<[k := mkProduct n qi bi si 0]> (products (db st))) k (db st)) in
  let d2 := (insert_undo "ADD" (mkPayload (Some k) None None None None None)
                         (clock st) d1).2 in
  exists mid st',
    add_product name_like n (Text (Some qi)) (Text (Some bi)) (Text (Some si)) st =
      (Val tt, st') /\
    db mid = d2 /\ var_search mid = var_search st /\ var_filter mid = var_filter st /\
    dialogs mid = dialogs st /\
    refreshed_from name_like mid st' /\ status_label st' = Added n.
Proof.
  intros Hf Hn k d1 d2. unfold add_product.
  rewrite bool_decide_eq_false_2 by done.
  erewrite bind_val; [|apply try_val; erewrite bind_val;
                       [reflexivity|apply connect_ok; [exact Hf|reflexivity]]].
  cbv beta iota.
  exec (by apply log_action_ok).
  exec (by apply _push_undo_ok).
  match goal with |- context [bind (refresh_list _) _ ?s] =>
    destruct (refresh_then_status name_like (Added n) s Hf) as (st' & Hrun & Href & Hst);
    exists s, st' end.
  exact (conj Hrun (conj eq_refl (conj eq_refl (conj eq_refl (conj eq_refl
           (conj Href Hst)))))).
Qed.

Lemma sell_item_done st p sel r q yes :
  faults st = [] -> selection st = p :: sel ->
  products (db st) !! p = Some r -> 0 < qty r ->
  ((if q <? 1 then 1 else q) <= qty r \/ yes = true) ->
  let n := sold_amount q (qty r) in
  let sid := next_rowid (sales_log (db st)) (sales_log_seq (db st)) in
  let d1 := set_sales_log
              (<[sid := mkSale (Some p) n (buy_price r) (sell_price r)
                              ((sell_price r - buy_price r) * n) (clock st)]>
                 (sales_log (db st))) sid
              (update_product p (qty r - n) (sold_qty r + n) (db st)) in
  let d2 := (insert_undo "SELL"
               (mkPayload (Some p) (Some n) (Some (qty r)) (Some (sold_qty r)) (Some sid) None)
               (clock st + 1) d1).2 in
  exists mid st',
    sell_item name_like q yes st = (Val tt, st') /\
    db mid = insert_log "SELL" d2 /\
    var_search mid = var_search st /\ var_filter mid = var_filter st /\
    (dialogs mid = dialogs st \/ dialogs mid = dialogs st ++ [AskSellAll (qty r)]) /\
    refreshed_from name_like mid st' /\ status_label st' = Sold n (name r).
Proof.
  intros Hf Hsel Hp Hq Hcap n sid d1 d2. unfold sell_item.
  pure_step. rewrite Hsel.
  exec (by apply db_query_ok). rewrite Hp.
  assert (Hnot : (qty r <=? 0) = false) by (apply Z.leb_gt; lia). rewrite Hnot.
  assert (Hsell :
    forall st0, faults st0 = [] -> db st0 = db st -> clock st0 = clock st ->
      var_search st0 = var_search st -> var_filter st0 = var_filter st ->
    exists mid st',
      (do sold <- try_except
           (do ts <- now;
            do sales_log_id <- connect (fun d =>
                 insert_sale p n (buy_price r) (sell_price r)
                             ((sell_price r - buy_price r) * n) ts
                             (update_product p (qty r - n) (sold_qty r + n) d));
            ret (Some sales_log_id))
           (show ErrSellFailed ;; ret None);
       match sold with
       | None => ret tt
       | Some sales_log_id =>
           _push_undo "SELL"
             (mkPayload (Some p) (Some n) (Some (qty r)) (Some (sold_qty r))
                        (Some sales_log_id) None) ;;
           log_action "SELL" ;;
           refresh_list name_like ;;
           status (Sold n (name r))
       end) st0 = (Val tt, st') /\
      db mid = insert_log "SELL" d2 /\
      var_search mid = var_search st /\ var_filter mid = var_filter st /\
      dialogs mid = dialogs st0 /\
      refreshed_from name_like mid st' /\ status_label st' = Sold n (name r)).
  { intros st0 Hf0 Hd0 Hc0 Hs0 Hv0.
    erewrite bind_val.
    2:{ apply try_val. pure_step.
        erewrite bind_val; [reflexivity|].
        apply connect_ok; [exact Hf0|]. simpl. rewrite Hd0.
        unfold insert_sale. simpl. rewrite lookup_alter_eq, Hp. simpl.
        rewrite Hc0. reflexivity. }
    cbv beta iota.
    exec (by apply _push_undo_ok).
    exec (by apply log_action_ok).
    match goal with |- context [bind (refresh_list _) _ ?s] =>
      destruct (refresh_then_status name_like (Sold n (name r)) s Hf0)
        as (st' & Hrun & Href & Hst);
      exists s, st' end.
    split; [exact Hrun|].
    split; [simpl; rewrite Hc0; reflexivity|].
    exact (conj Hs0 (conj Hv0 (conj eq_refl (conj Href Hst)))). }
  unfold n, sold_amount in *.
  destruct (qty r <? (if q <? 1 then 1 else q)) eqn:Hlt.
  - destruct Hcap as [Hle| ->]; [apply Z.ltb_lt in Hlt; lia|].
    pure_step.
    match goal with |- context [bind _ _ ?s] =>
      destruct (Hsell s Hf eq_refl eq_refl eq_refl eq_refl)
        as (mid & st' & Hrun & ? & ? & ? & ? & ? & ?) end.
    exists mid, st'. split; [exact Hrun|].
    do 3 (split; [done|]). split; [by right|done].
  - destruct (Hsell st Hf eq_refl eq_refl eq_refl eq_refl)
      as (mid & st' & Hrun & ? & ? & ? & ? & ? & ?).
    exists mid, st'. split; [exact Hrun|].
    do 3 (split; [done|]). split; [by left|done].
Qed.

Lemma delete_item_done st p sel r :
  faults st = [] -> selection st = p :: sel -> products (db st) !! p = Some r ->
  let d1 := (insert_undo "DELETE" (mkPayload (Some p) None None None None (Some r))
                         (clock st) (db st)).2 in
  exists mid st',
    delete_item name_like true st = (Val tt, st') /\
    db mid = insert_log "DELETE" (delete_product p d1) /\
    var_search mid = var_search st /\ var_filter mid = var_filter st /\
    dialogs mid = dialogs st ++ [AskDelete (name r)] /\
    refreshed_from name_like mid st' /\ status_label st' = Removed (name r).
Proof.
  intros Hf Hsel Hp d1. unfold delete_item.
  pure_step. rewrite Hsel.
  exec (by apply db_query_ok). rewrite Hp.
  pure_step.
  exec (by apply _push_undo_ok).
  exec (by apply db_execute_ok).
  exec (by apply log_action_ok).
  match goal with |- context [bind (refresh_list _) _ ?s] =>
    destruct (refresh_then_status name_like (Removed (name r)) s Hf)
      as (st' & Hrun & Href & Hst);
    exists s, st' end.
  exact (conj Hrun (conj eq_refl (conj eq_refl (conj eq_refl (conj eq_refl
           (conj Href Hst)))))).
Qed.

Lemma undo_last_done st uid row st2 :
  faults st = [] -> last_row (undo_stack (db st)) = Some (uid, row) ->
  (if bool_decide (action row = "ADD"%string) then undo_add (payload row)
   else if bool_decide (action row = "SELL"%string) then undo_sell (payload row)
   else if bool_decide (action row = "DELETE"%string) then undo_delete (payload row)
   else show WarnNotUndoable)
    (set_undo_list (forget_entry uid (_undo_stack st)) (set_db (delete_undo uid (db st)) st))
  = (Val tt, st2) ->
  bool_decide (action row = "DELETE"%string) &&
    held_after (payload row)
      (set_undo_list (forget_entry uid (_undo_stack st)) (set_db (delete_undo uid (db st)) st))
  = false ->
  faults st2 = [] ->
  exists st', undo_last name_like st = (Val tt, st') /\ refreshed_from name_like st2 st' /\
              status_label st' = status_label st2.
Proof.
  intros Hf Hl Hbody Hheld Hf2.
  rewrite (undo_last_unfold name_like st uid row st2 Hf Hl Hbody), Hheld.
  by apply refresh_list_exact.
Qed.

(** The same when an INSERT of the restore was refused: the refresh finds
    the file locked. *)
Lemma undo_last_done_locked st uid row st2 :
  faults st = [] -> last_row (undo_stack (db st)) = Some (uid, row) ->
  (if bool_decide (action row = "ADD"%string) then undo_add (payload row)
   else if bool_decide (action row = "SELL"%string) then undo_sell (payload row)
   else if bool_decide (action row = "DELETE"%string) then undo_delete (payload row)
   else show WarnNotUndoable)
    (set_undo_list (forget_entry uid (_undo_stack st)) (set_db (delete_undo uid (db st)) st))
  = (Val tt, st2) ->
  bool_decide (action row = "DELETE"%string) &&
    held_after (payload row)
      (set_undo_list (forget_entry uid (_undo_stack st)) (set_db (delete_undo uid (db st)) st))
  = true ->
  faults st2 = [] ->
  exists st', undo_last name_like st = (Val tt, st') /\ refreshed_locked name_like st2 st' /\
              status_label st' = status_label st2.
Proof.
  intros Hf Hl Hbody Hheld Hf2.
  rewrite (undo_last_unfold name_like st uid row st2 Hf Hl Hbody), Hheld.
  by apply refresh_list_locked_exact.
Qed.

(** Undo of a Delete whose id is occupied, in general: with every
    connection working, the entry is popped and nothing else is written,
    neither a product row nor a log row; the status line says the delete
    was undone and no message box opens. *)
Lemma undo_delete_occupied st uid pl ts pid r :
  faults st = [] ->
  last_row (undo_stack (db st)) = Some (uid, mkUndoRow "DELETE" pl ts) ->
  pl_product_id pl = Some pid -> products (db st) !! pid = Some r ->
  let st' := run (undo_last name_like) st in
  db st' = delete_undo uid (db st) /\
  status_label st' = UndoneDelete /\
  dialogs st' = dialogs st.
Proof.
  intros Hf Hl Hp Hocc st'.
  set (st1 := set_undo_list (forget_entry uid (_undo_stack st))
                            (set_db (delete_undo uid (db st)) st)).
  assert (Hh : held_after pl st1 = true).
  { unfold held_after, refused, restore_row. simpl. rewrite Hf, Hp.
    destruct (pl_data pl); [|done].
    unfold insert_product_with_id. simpl. by rewrite Hocc. }
  pose proof (undo_delete_held pl st1 Hf Hh) as Hbody.
  destruct (undo_last_done_locked st uid (mkUndoRow "DELETE" pl ts) _ Hf Hl Hbody Hh Hf)
    as (st2 & Hrun & Href & Hst).
  unfold st'. rewrite (run_eq _ _ _ _ Hrun).
  destruct Href as (_ & _ & _ & Hdb & _ & _ & _ & Hdl & _).
  by rewrite Hdb, Hst, Hdl.
Qed.

End CommandsDone.

(** ** The summary line *)

Lemma reported_same st st' :
  db st' = db st -> report_label st' = report_label st -> reported st -> reported st'.
Proof. unfold reported. intros -> ->. done. Qed.

Lemma refreshed_reported name_like mid st' :
  refreshed_from name_like mid st' -> reported st'.
Proof. by intros (_ & _ & _ & _ & _ & _ & H & _). Qed.

Section Summary.

Variable name_like : string -> string -> bool.

Lemma reported_refresh_list st :
  faults st = [] -> reported (run (refresh_list name_like) st).
Proof.
  intros Hf. destruct (refresh_list_exact name_like st Hf) as (st' & Hrun & Href & _).
  rewrite (run_eq _ _ _ _ Hrun). by eapply refreshed_reported.
Qed.

Lemma reported_startup st :
  faults st = [] -> reported (run (startup name_like) st).
Proof.
  intros Hf. unfold run, startup.
  exec (by apply db_execute_ok).
  erewrite bind_val.
  2:{ unfold _load_undo_stack. apply try_val.
      exec (by apply db_query_ok). reflexivity. }
  by apply reported_refresh_list.
Qed.

Lemma reported_add_product n q b s st :
  faults st = [] -> reported st -> reported (run (add_product name_like n q b s) st).
Proof.
  intros Hf Hr.
  assert (Hshow : forall dlg, reported (run (show dlg) st)).
  { intros dlg. by apply (reported_same st). }
  destruct q as [|[qi|]], b as [|[bi|]], s as [|[si|]];
    try (unfold add_product; try case_bool_decide; apply Hshow).
  destruct (decide (n = EmptyString)) as [Hn|Hn].
  { unfold add_product. rewrite bool_decide_eq_true_2 by done. apply Hshow. }
  destruct (add_product_done name_like st n qi bi si Hf Hn) as
    (mid & st' & Hrun & _ & _ & _ & _ & Href & _).
  rewrite (run_eq _ _ _ _ Hrun). by eapply refreshed_reported.
Qed.

Lemma reported_sell_item q yes st :
  faults st = [] -> reported st -> reported (run (sell_item name_like q yes) st).
Proof.
  intros Hf Hr.
  destruct (selection st) as [|p sel] eqn:Hsel.
  { unfold run, sell_item. pure_step. rewrite Hsel.
    by apply (reported_same st). }
  destruct (products (db st) !! p) as [r|] eqn:Hp.
  2:{ unfold run, sell_item. cbv zeta. pure_step. rewrite Hsel.
      exec (by apply db_query_ok). by rewrite Hp. }
  destruct (Z_lt_le_dec 0 (qty r)) as [Hpos|Hout].
  - destruct (Z_le_gt_dec (if q <? 1 then 1 else q) (qty r)) as [Hle|Hgt];
      [|destruct yes].
    + destruct (sell_item_done name_like st p sel r q yes Hf Hsel Hp Hpos) as
        (mid & st' & Hrun & _ & _ & _ & _ & Href & _); [by left|].
      rewrite (run_eq _ _ _ _ Hrun). by eapply refreshed_reported.
    + destruct (sell_item_done name_like st p sel r q true Hf Hsel Hp Hpos) as
        (mid & st' & Hrun & _ & _ & _ & _ & Href & _); [by right|].
      rewrite (run_eq _ _ _ _ Hrun). by eapply refreshed_reported.
    + unfold run, sell_item. cbv zeta. pure_step. rewrite Hsel.
      exec (by apply db_query_ok). rewrite Hp.
      rewrite (proj2 (Z.leb_gt _ _) Hpos).
      assert ((qty r <? (if q <? 1 then 1 else q)) = true) as ->
        by (apply Z.ltb_lt; lia).
      pure_step. by apply (reported_same st).
  - unfold run, sell_item. cbv zeta. pure_step. rewrite Hsel.
    exec (by apply db_query_ok). rewrite Hp.
    rewrite (proj2 (Z.leb_le _ _) Hout). by apply (reported_same st).
Qed.

Lemma reported_delete_item yes st :
  faults st = [] -> reported st -> reported (run (delete_item name_like yes) st).
Proof.
  intros Hf Hr.
  destruct (selection st) as [|p sel] eqn:Hsel.
  { unfold run, delete_item. pure_step. rewrite Hsel.
    by apply (reported_same st). }
  destruct (products (db st) !! p) as [r|] eqn:Hp.
  2:{ unfold run, delete_item. pure_step. rewrite Hsel.
      exec (by apply db_query_ok). by rewrite Hp. }
  destruct yes.
  - destruct (delete_item_done name_like st p sel r Hf Hsel Hp) as
      (mid & st' & Hrun & _ & _ & _ & _ & Href & _).
    rewrite (run_eq _ _ _ _ Hrun). by eapply refreshed_reported.
  - unfold run, delete_item. pure_step. rewrite Hsel.
    exec (by apply db_query_ok). rewrite Hp.
    pure_step. by apply (reported_same st).
Qed.

(** The branch of [undo_last] for the popped row returns normally when
    nothing fails. *)
Lemma undo_branch_returns row st1 :
  faults st1 = [] ->
  exists st2,
    (if bool_decide (action row = "ADD"%string) then undo_add (payload row)
     else if bool_decide (action row = "SELL"%string) then undo_sell (payload row)
     else if bool_decide (action row = "DELETE"%string) then undo_delete (payload row)
     else show WarnNotUndoable) st1 = (Val tt, st2) /\
    faults st2 = [] /\ var_search st2 = var_search st1 /\
    var_filter st2 = var_filter st1.
Proof.
  intros Hf.
  destruct (bool_decide (action row = "ADD"%string)).
  { eexists. split; [by apply undo_add_ok|done]. }
  destruct (bool_decide (action row = "SELL"%string)).
  { eexists. split; [by apply undo_sell_ok|done]. }
  destruct (bool_decide (action row = "DELETE"%string)).
  { destruct (undo_delete_returns (payload row) st1 Hf) as (d' & Hd' & _).
    eexists. split; [exact Hd'|done]. }
  eexists. split; [reflexivity|done].
Qed.

Lemma reported_undo_last st :
  faults st = [] -> reported st -> reported (run (undo_last name_like) st).
Proof.
  intros Hf Hr.
  destruct (last_row (undo_stack (db st))) as [[uid row]|] eqn:Hl.
  2:{ unfold run, undo_last. exec (by apply _pop_undo_db_empty).
      by apply (reported_same st). }
  destruct (undo_branch_returns row
              (set_undo_list (forget_entry uid (_undo_stack st))
                             (set_db (delete_undo uid (db st)) st)) Hf)
    as (st2 & Hbody & Hf2 & _).
  destruct (bool_decide (action row = "DELETE"%string) &&
            held_after (payload row)
              (set_undo_list (forget_entry uid (_undo_stack st))
                             (set_db (delete_undo uid (db st)) st))) eqn:Hheld.
  - destruct (undo_last_done_locked name_like st uid row st2 Hf Hl Hbody Hheld Hf2)
      as (st' & Hrun & Href & _).
    rewrite (run_eq _ _ _ _ Hrun). by destruct Href as (_ & _ & _ & _ & _ & _ & H & _).
  - destruct (undo_last_done name_like st uid row st2 Hf Hl Hbody Hheld Hf2)
      as (st' & Hrun & Href & _).
    rewrite (run_eq _ _ _ _ Hrun). by eapply refreshed_reported.
Qed.

Lemma reported__delete_sales_record sel yes st :
  faults st = [] -> reported st -> reported (run (_delete_sales_record sel yes) st).
Proof.
  intros Hf Hr. unfold run, _delete_sales_record.
  destruct sel as [|sid rest]; [done|].
  pure_step.
  destruct yes; [|by apply (reported_same st)].
  exec (by apply db_execute_ok).
  exec (by apply log_action_ok).
  exec (by apply update_report_exact).
  reflexivity.
Qed.

(** X5 (update_report and its callers): the summary line agrees with the
    tables.  In a run in which no connection fails, after the start and
    after every command the summary shows the number of products, their
    total stock, the total sold quantity of the products the file holds,
    the sum of the profits of the sales log, and the value of the stock at
    buy price: the exact sum of [qty * buy_price] while each of these
    products is a 64-bit integer, and otherwise the float the engine goes
    over to, of which nothing is said but that it is one. *)
Theorem summary_line_kept :
  (forall st, faults st = [] -> reported (run (startup name_like) st)) /\
  (forall st, faults st = [] -> reported st ->
     (forall n q b s, reported (run (add_product name_like n q b s) st)) /\
     (forall q yes, reported (run (sell_item name_like q yes) st)) /\
     (forall yes, reported (run (delete_item name_like yes) st)) /\
     reported (run (undo_last name_like) st) /\
     (forall sel yes, reported (run (_delete_sales_record sel yes) st)) /\
     (forall q, reported (run (search_typed name_like q) st)) /\
     (forall f, reported (run (filter_chosen name_like f) st)) /\
     (forall pid, reported (run (click_row pid) st))).
Proof.
  split; [apply reported_startup|]. intros st Hf Hr.
  split; [intros; by apply reported_add_product|].
  split; [intros; by apply reported_sell_item|].
  split; [intros; by apply reported_delete_item|].
  split; [by apply reported_undo_last|].
  split; [intros; by apply reported__delete_sales_record|].
  split; [intros; unfold run, search_typed; pure_step; by apply reported_refresh_list|].
  split; [intros; unfold run, filter_chosen; pure_step; by apply reported_refresh_list|].
  intros pid. unfold run, click_row, modify. simpl.
  case_bool_decide; [|done]. by apply (reported_same st).
Qed.

End Summary.

(** ** What the commands do to the tables *)

Lemma sum_over_alter {A} (f : A -> Z) (g : A -> A) (m : gmap Z A) k v :
  m !! k = Some v -> sum_over f (alter g k m) = sum_over f m - f v + f (g v).
Proof.
  intros Hk.
  assert (alter g k m = <[k := g v]> (delete k m)) as ->.
  { apply map_eq. intros k'. destruct (decide (k = k')) as [<-|Hne].
    - by rewrite lookup_alter_eq, lookup_insert_eq, Hk.
    - by rewrite lookup_alter_ne, lookup_insert_ne, lookup_delete_ne. }
  rewrite sum_over_insert by apply lookup_delete_eq.
  rewrite (sum_over_delete f m k v Hk). lia.
Qed.

Lemma sold_amount_bounds q stock :
  0 < stock -> 1 <= sold_amount q stock <= stock.
Proof.
  intros H. unfold sold_amount.
  destruct (q <? 1) eqn:E1; [apply Z.ltb_lt in E1|apply Z.ltb_ge in E1];
    (destruct (stock <? _) eqn:E2; [apply Z.ltb_lt in E2|apply Z.ltb_ge in E2]); lia.
Qed.

Lemma forget_product_shape k x :
  forget_product k x = if bool_decide (product_id x = Some k) then unlink x else x.
Proof. reflexivity. Qed.

Lemma unlink_unset x : product_id x = None -> unlink x = x.
Proof. destruct x. simpl. by intros ->. Qed.

Lemma delete_product_sale_shape k d s x :
  sales_log d !! s = Some x ->
  sales_log (delete_product k d) !! s = Some x \/
  sales_log (delete_product k d) !! s = Some (unlink x).
Proof.
  intros Hs. unfold delete_product. destruct (products d !! k); [|by left].
  simpl. rewrite lookup_fmap, Hs. simpl. rewrite forget_product_shape.
  case_bool_decide; [by right|by left].
Qed.

Lemma sweep_rows_sale_shape rows d s x :
  sales_log d !! s = Some x ->
  sales_log (sweep_rows rows d) !! s = Some x \/
  sales_log (sweep_rows rows d) !! s = Some (unlink x).
Proof.
  revert d x. induction rows as [|[pid r] rows IH]; intros d x Hs; simpl; [by left|].
  destruct (qty r <=? 0); [|by apply IH].
  destruct (delete_product_sale_shape pid d s x Hs) as [H|H].
  - by apply IH.
  - destruct (IH _ _ H) as [H'|H']; right; [done|].
    by rewrite unlink_unset in H'.
Qed.

Lemma sweep_rows_frame rows d uid a :
  sweep_rows rows (insert_log a (delete_undo uid d)) =
  insert_log a (delete_undo uid (sweep_rows rows d)).
Proof.
  revert d. induction rows as [|[k r] rows IH]; intros d; simpl; [done|].
  destruct (qty r <=? 0); [|apply IH].
  rewrite <- IH. f_equal. unfold delete_product. simpl.
  by destruct (products d !! k).
Qed.

Section Effects.

Variable name_like : string -> string -> bool.

(** X6 (sell_item, update_report): a sale in the summary line.  When no
    connection fails and no listed product is out of stock, a sale of [n]
    units raises the total profit of the summary by [n * (sell - buy)] and
    lowers the total stock by [n], whether or not the product sold out. *)
Theorem sale_in_summary st p sel r q yes :
  faults st = [] -> selection st = p :: sel ->
  products (db st) !! p = Some r -> 0 < qty r ->
  ((if q <? 1 then 1 else q) <= qty r \/ yes = true) ->
  clean name_like (var_search st) (db st) ->
  let n := sold_amount q (qty r) in
  exists rep,
    report_label (run (sell_item name_like q yes) st) = Some rep /\
    report_profit rep =
      report_profit (report_of (db st)) + (sell_price r - buy_price r) * n /\
    report_qty rep = report_qty (report_of (db st)) - n.
Proof.
  intros Hf Hsel Hp Hpos Hcap Hc n.
  destruct (sell_item_done name_like st p sel r q yes Hf Hsel Hp Hpos Hcap)
    as (mid & st' & Hrun & Hmid & Hs & Hv & _ & Href & _).
  destruct Href as (_ & _ & _ & Hdb & _ & _ & Hrep & _).
  rewrite (run_eq _ _ _ _ Hrun). exists (report_of (db st')).
  split; [exact Hrep|]. rewrite Hdb, Hmid, Hs, Hv. fold n. simpl. split.
  - unfold sweep. rewrite sweep_rows_profit. simpl.
    rewrite sum_over_insert by apply next_rowid_fresh. simpl. lia.
  - pose proof (sold_amount_bounds q (qty r) Hpos) as Hn. fold n in Hn.
    match goal with |- context [sweep _ _ _ ?d0] => set (D := d0) end.
    set (r1 := mkProduct (name r) (qty r - n) (buy_price r) (sell_price r)
                         (sold_qty r + n)).
    assert (HD : products D =
                 alter (fun r0 => mkProduct (name r0) (qty r - n) (buy_price r0)
                                            (sell_price r0) (sold_qty r + n))
                       p (products (db st))) by reflexivity.
    assert (Hsw : products (sweep name_like (var_search st) (var_filter st) D) =
                  if listed name_like (var_search st) r1 && (qty r - n <=? 0)
                  then delete p (products D) else products D).
    { apply map_eq. intros k. rewrite sweep_lookup.
      destruct (decide (p = k)) as [<-|Hne].
      - destruct (listed name_like (var_search st) r1 && (qty r - n <=? 0)) eqn:E.
        + rewrite lookup_delete_eq, HD, lookup_alter_eq, Hp. simpl. fold r1.
          by rewrite E.
        + rewrite HD, lookup_alter_eq, Hp. simpl. fold r1. by rewrite E.
      - assert (Hk : products D !! k = products (db st) !! k)
          by (rewrite HD; by apply lookup_alter_ne).
        assert (Hgoal : match products D !! k with
                        | Some r0 => if listed name_like (var_search st) r0 && (qty r0 <=? 0)
                                     then None else Some r0
                        | None => None
                        end = products D !! k).
        { rewrite Hk. destruct (products (db st) !! k) as [r0|] eqn:E; [|done].
          destruct (listed name_like (var_search st) r0) eqn:El; [|done].
          pose proof (Hc k r0 E El) as H0. simpl in H0.
          by rewrite (proj2 (Z.leb_gt _ _) H0). }
        rewrite Hgoal.
        destruct (listed name_like (var_search st) r1 && (qty r - n <=? 0));
          [by rewrite lookup_delete_ne|done]. }
    rewrite Hsw.
    assert (Hsum : sum_over qty (products D) = sum_over qty (products (db st)) - n).
    { rewrite HD, (sum_over_alter _ _ _ _ _ Hp). simpl. lia. }
    destruct (listed name_like (var_search st) r1 && (qty r - n <=? 0)) eqn:E;
      [|exact Hsum].
    apply andb_true_iff in E as [_ E]. apply Z.leb_le in E.
    rewrite (sum_over_delete qty (products D) p r1);
      [rewrite Hsum; simpl; lia|].
    by rewrite HD, lookup_alter_eq, Hp.
Qed.

(** X7 (delete_item, with the foreign key of init_db): deleting a product
    keeps its sales.  When no connection fails, a confirmed delete of the
    selected product removes no sales row and changes none but to unset its
    product reference; the rows of the deleted product have theirs unset;
    the total profit is what it was; and from a state in which no listed
    product is out of stock nothing else changes in the sales log. *)
Theorem delete_item_keeps_sales st p sel r :
  faults st = [] -> selection st = p :: sel -> products (db st) !! p = Some r ->
  let st' := run (delete_item name_like true) st in
  (forall s x, sales_log (db st) !! s = Some x ->
     exists x', sales_log (db st') !! s = Some x' /\
                (x' = x \/ x' = unlink x) /\
                (product_id x = Some p -> x' = unlink x)) /\
  dom (sales_log (db st')) = dom (sales_log (db st)) /\
  sum_over profit (sales_log (db st')) = sum_over profit (sales_log (db st)) /\
  (clean name_like (var_search st) (db st) ->
   sales_log (db st') = forget_product p <$> sales_log (db st)).
Proof.
  intros Hf Hsel Hp st'.
  destruct (delete_item_done name_like st p sel r Hf Hsel Hp)
    as (mid & st1 & Hrun & Hmid & Hs & Hv & _ & Href & _).
  destruct Href as (_ & _ & _ & Hdb & _).
  unfold st'. rewrite (run_eq _ _ _ _ Hrun), Hdb, Hmid, Hs, Hv.
  match goal with |- context [sweep _ _ _ ?d0] => set (D := d0) end.
  assert (HD : sales_log D = forget_product p <$> sales_log (db st)).
  { unfold D, delete_product. simpl. by rewrite Hp. }
  assert (HDp : products D = delete p (products (db st))).
  { unfold D, delete_product. simpl. by rewrite Hp. }
  repeat split.
  - intros s x Hx.
    assert (H1 : sales_log D !! s = Some (forget_product p x))
      by (by rewrite HD, lookup_fmap, Hx).
    rewrite forget_product_shape in H1.
    destruct (sweep_rows_sale_shape
                (listing name_like (var_search st) (var_filter st) D) D s _ H1)
      as [H2|H2]; case_bool_decide.
    + exists (unlink x). split; [exact H2|]. split; [by right|done].
    + exists x. split; [exact H2|]. split; [by left|done].
    + exists (unlink x). split; [|split; [by right|done]].
      by rewrite (unlink_unset (unlink x)) in H2.
    + exists (unlink x). split; [exact H2|]. split; [by right|done].
  - rewrite sweep_sales_dom, HD. apply dom_fmap_L.
  - unfold sweep. rewrite sweep_rows_profit, HD, sum_over_fmap.
    apply sum_over_ext. intros k x _. rewrite forget_product_shape.
    by case_bool_decide.
  - intros Hc. rewrite sweep_id; [exact HD|].
    apply (clean_sub name_like _ (db st)); [exact Hc|].
    intros k r0. rewrite HDp. intros H.
    destruct (decide (p = k)) as [<-|Hne]; [by rewrite lookup_delete_eq in H|].
    by rewrite lookup_delete_ne in H.
Qed.

(** X8 (undo_last, the ADD branch): undoing the Add of a product that is
    gone.  When no connection fails and the top of the undo stack is an ADD
    entry whose product has no row, Undo deletes nothing: the products are
    what a bare refresh would leave, the entry is off the stack, the status
    line announces the undone Add and no message box is opened. *)
Theorem undo_add_of_missing_product st uid pl ts :
  faults st = [] ->
  last_row (undo_stack (db st)) = Some (uid, mkUndoRow "ADD" pl ts) ->
  (forall p, pl_product_id pl = Some p -> products (db st) !! p = None) ->
  exists st',
    undo_last name_like st = (Val tt, st') /\
    products (db st') = products (sweep name_like (var_search st) (var_filter st) (db st)) /\
    (clean name_like (var_search st) (db st) -> products (db st') = products (db st)) /\
    sales_log (db st') = sales_log (sweep name_like (var_search st) (var_filter st) (db st)) /\
    undo_stack (db st') = delete uid (undo_stack (db st)) /\
    status_label st' = UndoneAdd /\
    dialogs st' = dialogs st.
Proof.
  intros Hf Hlast Hp.
  pose proof (undo_add_ok pl
                (set_undo_list (forget_entry uid (_undo_stack st))
                               (set_db (delete_undo uid (db st)) st)) Hf) as Hbody.
  destruct (undo_last_done name_like st uid _ _ Hf Hlast Hbody eq_refl Hf)
    as (st' & Hrun & Href & Hst).
  exists st'. split; [exact Hrun|]. clear Hrun Hbody.
  destruct Href as (_ & _ & _ & Hdb & _ & _ & _ & Hdl & _).
  simpl in Hdb, Hdl, Hst.
  assert (Hsame : where_id (pl_product_id pl) delete_product (delete_undo uid (db st))
                  = delete_undo uid (db st)).
  { destruct (pl_product_id pl) as [k|] eqn:E; [|done]. simpl.
    unfold delete_product. simpl. by rewrite (Hp k eq_refl). }
  rewrite Hsame in Hdb.
  assert (Hsw : sweep name_like (var_search st) (var_filter st)
                  (insert_log "UNDO_ADD" (delete_undo uid (db st))) =
                insert_log "UNDO_ADD"
                  (delete_undo uid (sweep name_like (var_search st) (var_filter st) (db st)))).
  { unfold sweep.
    change (listing name_like (var_search st) (var_filter st)
              (insert_log "UNDO_ADD" (delete_undo uid (db st))))
      with (listing name_like (var_search st) (var_filter st) (db st)).
    apply sweep_rows_frame. }
  rewrite Hsw in Hdb. rewrite Hdb. simpl. repeat split; try done.
  - intros Hc. by rewrite sweep_id.
  - by rewrite sweep_undo_stack.
Qed.

(** X9 (add_product, refresh_list): adding a product with no stock.  When
    no connection fails, a valid Add whose quantity is zero or negative and
    whose name the search text matches leaves no product behind: the
    refresh that closes the command deletes the new row, so the products are
    what a bare refresh would leave, while the status line announces the
    product as added. *)
Theorem add_out_of_stock st n qi bi si :
  faults st = [] -> n <> EmptyString -> qi <= 0 ->
  listed name_like (var_search st) (mkProduct n qi bi si 0) = true ->
  exists st',
    add_product name_like n (Text (Some qi)) (Text (Some bi)) (Text (Some si)) st =
      (Val tt, st') /\
    products (db st') = products (sweep name_like (var_search st) (var_filter st) (db st)) /\
    (clean name_like (var_search st) (db st) -> products (db st') = products (db st)) /\
    status_label st' = Added n /\
    dialogs st' = dialogs st.
Proof.
  intros Hf Hn Hq Hl.
  destruct (add_product_done name_like st n qi bi si Hf Hn)
    as (mid & st' & Hrun & Hmid & Hs & Hv & Hd & Href & Hst).
  destruct Href as (_ & _ & _ & Hdb & _ & _ & _ & Hdl & _).
  exists st'. split; [exact Hrun|].
  assert (Hp : products (db st') =
               products (sweep name_like (var_search st) (var_filter st) (db st))).
  { rewrite Hdb, Hmid, Hs, Hv. apply map_eq. intros k. rewrite !sweep_lookup. simpl.
    destruct (decide (next_rowid (products (db st)) (products_seq (db st)) = k))
      as [<-|Hne].
    - rewrite lookup_insert_eq, next_rowid_fresh, Hl. simpl.
      by rewrite (proj2 (Z.leb_le _ _) Hq).
    - by rewrite lookup_insert_ne. }
  split; [exact Hp|]. split; [|split; [exact Hst|by rewrite Hdl]].
  intros Hc. by rewrite Hp, sweep_id.
Qed.

(** X10 (undo_last, the last branch): an entry with an action that is none
    of ADD, SELL and DELETE.  When no connection fails, Undo takes the entry
    off the stack, warns that the action cannot be undone, and changes
    nothing else but what the refresh does. *)
Theorem undo_unknown_action st uid row :
  faults st = [] -> last_row (undo_stack (db st)) = Some (uid, row) ->
  action row <> "ADD"%string -> action row <> "SELL"%string ->
  action row <> "DELETE"%string ->
  exists st',
    undo_last name_like st = (Val tt, st') /\
    db st' = sweep name_like (var_search st) (var_filter st) (delete_undo uid (db st)) /\
    undo_stack (db st') !! uid = None /\
    dialogs st' = dialogs st ++ [WarnNotUndoable] /\
    status_label st' = status_label st.
Proof.
  intros Hf Hlast Ha Hs Hd.
  set (st1 := set_undo_list (forget_entry uid (_undo_stack st))
                            (set_db (delete_undo uid (db st)) st)).
  assert (Hbody :
    (if bool_decide (action row = "ADD"%string) then undo_add (payload row)
     else if bool_decide (action row = "SELL"%string) then undo_sell (payload row)
     else if bool_decide (action row = "DELETE"%string) then undo_delete (payload row)
     else show WarnNotUndoable) st1 =
    (Val tt, set_dialogs (dialogs st1 ++ [WarnNotUndoable]) st1)).
  { by rewrite !bool_decide_eq_false_2 by done. }
  assert (Hheld : bool_decide (action row = "DELETE"%string) &&
                  held_after (payload row) st1 = false)
    by (by rewrite bool_decide_eq_false_2).
  destruct (undo_last_done name_like st uid row _ Hf Hlast Hbody Hheld Hf)
    as (st' & Hrun & Href & Hst).
  destruct Href as (_ & _ & _ & Hdb & _ & _ & _ & Hdl & _).
  exists st'. split; [exact Hrun|]. split; [exact Hdb|].
  split; [|split; [exact Hdl|exact Hst]].
  rewrite Hdb, sweep_undo_stack. simpl. apply lookup_delete_eq.
Qed.

(** X11 (undo_last): nothing to undo.  On an empty undo table, whichever
    connections fail, Undo opens one connection, tells the operator that
    there is nothing to undo, and touches nothing else. *)
Theorem undo_last_empty st :
  undo_stack (db st) = ∅ ->
  run (undo_last name_like) st =
  set_dialogs (dialogs st ++ [InfoNothingToUndo]) (set_faults (tail (faults st)) st).
Proof.
  intros He. unfold run, undo_last, _pop_undo_db, bind, try_except, connect.
  rewrite He. unfold last_row. rewrite map_fold_empty.
  destruct (faults st) as [|[|] fs] eqn:Hf; simpl; try reflexivity;
    destruct st; simpl in *; by rewrite <- ?He.
Qed.

(** X12 (_pop_undo_db, undo_last): a pop that fails is reported as an empty
    stack.  When the connection of the pop fails, Undo tells the operator
    that there is nothing to undo, whatever the undo table holds, and
    leaves the table, the in-memory list, the products and the list as they
    were. *)
Theorem undo_last_pop_fails st fs :
  faults st = true :: fs ->
  run (undo_last name_like) st =
  set_dialogs (dialogs st ++ [InfoNothingToUndo]) (set_faults fs st).
Proof.
  intros Hf. unfold run, undo_last, _pop_undo_db, bind, try_except, connect.
  rewrite Hf. reflexivity.
Qed.

(** X13 (add_product, sell_item, delete_item, _delete_sales_record): the
    commands that are turned down.  An Add with an empty name or an empty
    field only warns that the form is incomplete, an Add with a field that
    is not a number only reports that; Sell and Delete with nothing selected
    only warn; deleting a sales record with nothing selected does nothing.
    None of them opens a connection. *)
Theorem commands_turned_down st :
  (forall n q b s,
     n = EmptyString \/ q = Blank \/ b = Blank \/ s = Blank ->
     run (add_product name_like n q b s) st =
     set_dialogs (dialogs st ++ [WarnIncomplete]) st) /\
  (forall n q b s,
     n <> EmptyString -> q = None \/ b = None \/ s = None ->
     run (add_product name_like n (Text q) (Text b) (Text s)) st =
     set_dialogs (dialogs st ++ [ErrNotNumeric]) st) /\
  (selection st = [] ->
   (forall q yes, run (sell_item name_like q yes) st =
                  set_dialogs (dialogs st ++ [WarnNoSelection]) st) /\
   (forall yes, run (delete_item name_like yes) st =
                set_dialogs (dialogs st ++ [WarnNoSelection]) st)) /\
  (forall yes, run (_delete_sales_record [] yes) st = st).
Proof.
  repeat split.
  - intros n q b s H. unfold run, add_product.
    destruct q as [|q], b as [|b], s as [|s]; try reflexivity.
    destruct H as [->|[H|[H|H]]]; try discriminate. reflexivity.
  - intros n q b s Hn H. unfold run, add_product.
    rewrite bool_decide_eq_false_2 by done.
    destruct q, b, s; try reflexivity.
    destruct H as [H|[H|H]]; discriminate.
  - intros q yes. unfold run, sell_item, bind, gets. simpl. by rewrite H.
  - intros yes. unfold run, delete_item, bind, gets. simpl. by rewrite H.
Qed.

Lemma retired_delete_product p k d : retired p d -> retired p (delete_product k d).
Proof.
  intros [Hs Hp]. unfold retired, delete_product.
  destruct (products d !! k); [|done]. simpl. split; [done|].
  destruct (decide (k = p)) as [->|Hne]; [apply lookup_delete_eq|].
  by rewrite lookup_delete_ne.
Qed.

Lemma retired_same p d d' :
  products d' = products d -> products_seq d' = products_seq d ->
  retired p d -> retired p d'.
Proof. unfold retired. intros -> ->. done. Qed.

Lemma retired_insert_product p row d : retired p d -> retired p (insert_product row d).2.
Proof.
  intros [Hs Hp]. unfold retired, insert_product, next_rowid. simpl.
  split; [lia|]. rewrite lookup_insert_ne; [done|lia].
Qed.

Lemma retired_update_product p k x y d : retired p d -> retired p (update_product k x y d).
Proof.
  intros [Hs Hp]. unfold retired, update_product. simpl. split; [done|].
  destruct (decide (k = p)) as [->|Hne]; [by rewrite lookup_alter_eq, Hp|].
  by rewrite lookup_alter_ne.
Qed.

Lemma retired_sale p pid n b s pr ts x y d sid d' :
  retired p d ->
  insert_sale pid n b s pr ts (update_product pid x y d) = Some (sid, d') ->
  retired p d'.
Proof.
  intros H Hs. unfold insert_sale in Hs.
  destruct (products (update_product pid x y d) !! pid); [|done].
  injection Hs as _ <-.
  eapply retired_same; [| |by apply (retired_update_product p pid x y)]; done.
Qed.

Ltac retired_step :=
  first
    [ apply keeps_ret
    | apply keeps_refresh_list; intros; by apply retired_delete_product
    | apply keeps_update_report
    | apply keeps__push_undo; intros; by eapply retired_same
    | apply keeps_log_action; intros; by eapply retired_same
    | apply keeps_db_query
    | by apply keeps_pure
    | apply keeps_bind; [|intros ?]
    | apply keeps_try
    | case_match ].

(** X15 (add_product, sell_item, delete_item, with AUTOINCREMENT of
    init_db): an id is not given twice.  Once an id has been given out and
    its row is gone, no Add, Sell, Delete, deletion of a sales record,
    search or filter gives it a row again, whichever connections fail: a
    new product never takes the id of a deleted one, which only an Undo can
    bring back. *)
Theorem ids_not_reused p st :
  retired p (db st) ->
  (forall n q b s, retired p (db (run (add_product name_like n q b s) st))) /\
  (forall q yes, retired p (db (run (sell_item name_like q yes) st))) /\
  (forall yes, retired p (db (run (delete_item name_like yes) st))) /\
  (forall sel yes, retired p (db (run (_delete_sales_record sel yes) st))) /\
  (forall q, retired p (db (run (search_typed name_like q) st))) /\
  (forall f, retired p (db (run (filter_chosen name_like f) st))).
Proof.
  intros H.
  assert (Hadd : forall n q b s, keeps (retired p) (add_product name_like n q b s)).
  { intros. unfold add_product. repeat retired_step.
    apply keeps_connect. intros d k d' HI [= _ <-]. by apply retired_insert_product. }
  assert (Hsell : forall q yes, keeps (retired p) (sell_item name_like q yes)).
  { intros. unfold sell_item. cbv zeta. repeat retired_step;
      apply keeps_connect; intros d k d' HI Hs; by eapply retired_sale. }
  assert (Hdel : forall yes, keeps (retired p) (delete_item name_like yes)).
  { intros. unfold delete_item. repeat retired_step.
    apply keeps_db_execute. intros; by apply retired_delete_product. }
  assert (Hrec : forall sel yes, keeps (retired p) (_delete_sales_record sel yes)).
  { intros. unfold _delete_sales_record. repeat retired_step.
    apply keeps_db_execute. intros; by eapply retired_same. }
  split; [intros; by apply Hadd|].
  split; [intros; by apply Hsell|].
  split; [intros; by apply Hdel|].
  split; [intros; by apply Hrec|].
  split; intros; revert H;
    (apply keeps_bind; [by apply keeps_pure|intros _]);
    apply keeps_refresh_list; intros; by apply retired_delete_product.
Qed.

(** X14 (refresh_list and its callers): the state the program waits in.
    In a run in which no connection fails, after the start and after every
    command no product that the search text matches is out of stock, and
    every row of the list is a product the file holds with stock left. *)
Theorem settled_kept :
  (forall d t, settled name_like (run (startup name_like) (blank d [] t))) /\
  (forall st, settled name_like st ->
     (forall n q b s, settled name_like (run (add_product name_like n q b s) st)) /\
     (forall q yes, settled name_like (run (sell_item name_like q yes) st)) /\
     (forall yes, settled name_like (run (delete_item name_like yes) st)) /\
     settled name_like (run (undo_last name_like) st) /\
     (forall sel yes, settled name_like (run (_delete_sales_record sel yes) st)) /\
     (forall q, settled name_like (run (search_typed name_like q) st)) /\
     (forall f, settled name_like (run (filter_chosen name_like f) st)) /\
     (forall pid, settled name_like (run (click_row pid) st))).
Proof.
  split; [apply startup_settled|]. intros st Hs. pose proof Hs as (Hf & _).
  split; [intros; by apply add_product_settled|].
  split; [intros; by apply sell_item_settled|].
  split; [intros; by apply delete_item_settled|].
  split; [by apply undo_last_settled|].
  split; [intros; by apply _delete_sales_record_settled|].
  split; [intros; by apply search_typed_settled|].
  split; [intros; by apply filter_chosen_settled|].
  intros; by apply click_row_settled.
Qed.

End Effects.

(** ** The further theorems at concrete inputs *)

Lemma refresh_list_shows_at_shelf :
  faults shelf = [] /\
  (NoDup (tree (run (refresh_list contains) shelf)) /\
   forall pid, pid ∈ tree (run (refresh_list contains) shelf) <->
     exists r, products (db (run (refresh_list contains) shelf)) !! pid = Some r /\
               listed contains (var_search shelf) r = true /\
               (var_filter shelf = FilterBelow5 -> qty r < 5)).
Proof.
  split; [reflexivity|]. apply (refresh_list_shows contains shelf). reflexivity.
Defined.

Lemma refresh_list_order_at_shelf :
  (faults shelf = [] /\
   StronglySorted (fun a b => b < a) (tree (run (refresh_list contains) shelf))) /\
  (faults fortunes = [] /\
   StronglySorted
     (fun a b => column profit_key (db (run (refresh_list contains) fortunes)) b <=
                 column profit_key (db (run (refresh_list contains) fortunes)) a)
     (tree (run (refresh_list contains) fortunes))).
Proof.
  split.
  - split; [reflexivity|]. apply (refresh_list_order contains shelf). reflexivity.
  - split; [reflexivity|]. apply (refresh_list_order contains fortunes). reflexivity.
Defined.

Lemma undo_list_mirrors_table_at_shelf :
  mirrored shelf /\ mirrored (run (sell_item contains 1 true) shelf).
Proof.
  assert (H : mirrored shelf) by (vm_compute; reflexivity).
  split; [exact H|].
  apply (proj1 (proj2 (proj2 (undo_list_mirrors_table contains) shelf H))).
Defined.

Lemma push_then_pop_at_shelf :
  faults shelf = [] /\
  exists uid st',
    (_push_undo "ADD" (mkPayload (Some 7) None None None None None) ;; _pop_undo_db) shelf
    = (Val (Some (mkUndoEntry uid "ADD" (mkPayload (Some 7) None None None None None))), st') /\
    (forall k, is_Some (undo_stack (db shelf) !! k) -> k < uid) /\
    undo_stack (db st') = undo_stack (db shelf) /\
    _undo_stack st' = _undo_stack shelf.
Proof.
  split; [reflexivity|]. apply (push_then_pop shelf). reflexivity.
Defined.

Lemma summary_line_kept_at_shelf :
  (faults shelf = [] /\ reported shelf) /\
  reported (run (sell_item contains 1 true) shelf).
Proof.
  assert (H : reported shelf) by (vm_compute; reflexivity).
  split; [split; [reflexivity|exact H]|].
  apply (proj1 (proj2 (proj2 (summary_line_kept contains) shelf eq_refl H))).
Defined.

Lemma sale_in_summary_at_shelf :
  clean contains (var_search shelf) (db shelf) /\
  exists rep,
    report_label (run (sell_item contains 5 true) shelf) = Some rep /\
    report_profit rep =
      report_profit (report_of (db shelf)) +
      (sell_price tea_row - buy_price tea_row) * sold_amount 5 (qty tea_row) /\
    report_qty rep = report_qty (report_of (db shelf)) - sold_amount 5 (qty tea_row).
Proof.
  assert (H : clean contains (var_search shelf) (db shelf))
    by (apply (bool_decide_unpack _); vm_compute; exact I).
  split; [exact H|].
  apply (sale_in_summary contains shelf 2 [] tea_row 5 true);
    [reflexivity|reflexivity|reflexivity|simpl; lia|by right|exact H].
Defined.

Lemma delete_item_keeps_sales_at_coffee :
  (selection coffee_sold_once = [1] /\
   products (db coffee_sold_once) !! 1 = Some (mkProduct "Coffee" 2 1000 1500 1)) /\
  sum_over profit (sales_log (db (run (delete_item contains true) coffee_sold_once)))
  = sum_over profit (sales_log (db coffee_sold_once)).
Proof.
  split; [split; reflexivity|].
  apply (delete_item_keeps_sales contains coffee_sold_once 1 []
           (mkProduct "Coffee" 2 1000 1500 1)); reflexivity.
Defined.

Lemma undo_add_of_missing_product_at_ghost :
  (last_row (undo_stack (db ghost)) =
     Some (1, mkUndoRow "ADD" (mkPayload (Some 1) None None None None None) 0) /\
   products (db ghost) !! 1 = None) /\
  exists st',
    undo_last contains ghost = (Val tt, st') /\
    undo_stack (db st') = delete 1 (undo_stack (db ghost)) /\
    status_label st' = UndoneAdd.
Proof.
  split; [split; reflexivity|].
  destruct (undo_add_of_missing_product contains ghost 1
              (mkPayload (Some 1) None None None None None) 0)
    as (st' & Hrun & _ & _ & _ & Hu & Hs & _);
    [reflexivity|reflexivity|by intros p [= <-]|].
  exists st'. auto.
Defined.

Lemma add_out_of_stock_at_opened :
  listed contains (var_search opened) (mkProduct "Ghost" 0 500 800 0) = true /\
  exists st',
    add_product contains "Ghost" (Text (Some 0)) (Text (Some 500)) (Text (Some 800)) opened
    = (Val tt, st') /\
    products (db st') = products (sweep contains (var_search opened) (var_filter opened)
                                        (db opened)) /\
    status_label st' = Added "Ghost".
Proof.
  split; [reflexivity|].
  destruct (add_out_of_stock contains opened "Ghost"%string 0 500 800)
    as (st' & Hrun & Hp & _ & Hs & _);
    [reflexivity|discriminate|lia|reflexivity|].
  exists st'. auto.
Defined.

Lemma undo_unknown_action_at_foreign :
  last_row (undo_stack (db foreign)) =
    Some (1, mkUndoRow "EDIT" (mkPayload (Some 1) None None None None None) 0) /\
  exists st',
    undo_last contains foreign = (Val tt, st') /\
    undo_stack (db st') !! 1 = None /\
    dialogs st' = dialogs foreign ++ [WarnNotUndoable].
Proof.
  split; [reflexivity|].
  destruct (undo_unknown_action contains foreign 1
              (mkUndoRow "EDIT" (mkPayload (Some 1) None None None None None) 0))
    as (st' & Hrun & _ & Hu & Hd & _);
    [reflexivity|reflexivity|discriminate|discriminate|discriminate|].
  exists st'. auto.
Defined.

Lemma undo_last_empty_at_opened :
  undo_stack (db opened) = ∅ /\
  run (undo_last contains) opened =
  set_dialogs (dialogs opened ++ [InfoNothingToUndo])
              (set_faults (tail (faults opened)) opened).
Proof.
  split; [reflexivity|]. apply (undo_last_empty contains opened). reflexivity.
Defined.

Lemma undo_last_pop_fails_at_shelf :
  faults first_fails = [true] /\
  run (undo_last contains) first_fails =
  set_dialogs (dialogs first_fails ++ [InfoNothingToUndo]) (set_faults [] first_fails).
Proof.
  split; [reflexivity|].
  apply (undo_last_pop_fails contains first_fails []). reflexivity.
Defined.

Lemma commands_turned_down_at_opened :
  selection opened = [] /\
  run (sell_item contains 1 true) opened =
  set_dialogs (dialogs opened ++ [WarnNoSelection]) opened.
Proof.
  split; [reflexivity|].
  apply (proj1 (proj1 (proj2 (proj2 (commands_turned_down contains opened))) eq_refl)).
Defined.

Lemma settled_kept_at_shelf :
  settled contains shelf /\ settled contains (run (sell_item contains 2 true) shelf).
Proof.
  assert (H : settled contains shelf).
  { apply settled_checked;
      [reflexivity|apply (bool_decide_unpack _); vm_compute; exact I|reflexivity]. }
  split; [exact H|].
  apply (proj1 (proj2 (proj2 (settled_kept contains) shelf H))).
Defined.

Lemma ids_not_reused_at_tea_deleted :
  retired 2 (db tea_deleted) /\
  retired 2 (db (run (add_product contains "Tea" (Text (Some 2)) (Text (Some 500))
                                  (Text (Some 800))) tea_deleted)).
Proof.
  assert (H : retired 2 (db tea_deleted)).
  { split; [apply Z.leb_le; vm_compute; reflexivity|reflexivity]. }
  split; [exact H|].
  apply (proj1 (ids_not_reused contains 2 tea_deleted H)).
Defined.

(** ** Prices as texts *)

Lemma uint_codes_digits u : Forall (fun c => (48 <= c <= 57)%N) (uint_codes u).
Proof. induction u; simpl; constructor; try done; lia. Qed.

Lemma filter_keeps_all {A} (P : A -> Prop) `{!forall x, Decision (P x)} (l : list A) :
  Forall P l -> filter P l = l.
Proof.
  induction 1 as [|x l Hx Hl IH]; [done|].
  rewrite filter_cons, decide_True by done. by rewrite IH.
Qed.

Lemma replace_single c s : replace [c] [] s = filter (fun x => x <> c) s.
Proof.
  unfold replace. induction s as [|x s IH]; [done|].
  rewrite filter_cons. cbn [replace_go starts_with length Nat.sub app].
  rewrite andb_true_r.
  destruct (c =? x)%N eqn:E.
  - apply N.eqb_eq in E. subst x. rewrite decide_False by (intros H; by apply H).
    exact IH.
  - apply N.eqb_neq in E. rewrite decide_True by (intros ->; by apply E).
    by rewrite IH.
Qed.

Lemma group_rev_filter l :
  filter (fun x => x <> 44%N) (group_rev l) = filter (fun x => x <> 44%N) l.
Proof.
  remember (length l) as n eqn:Hn. revert l Hn.
  induction n as [n IH] using lt_wf_ind. intros l Hn.
  destruct l as [|a [|b [|c [|d rest]]]]; try reflexivity.
  change (group_rev (a :: b :: c :: d :: rest))
    with ([a; b; c] ++ [44%N] ++ group_rev (d :: rest)).
  change (a :: b :: c :: d :: rest) with ([a; b; c] ++ d :: rest).
  rewrite !filter_app.
  change (filter (fun x => x <> 44%N) [44%N]) with (@nil N).
  rewrite (IH (length (d :: rest)) ltac:(subst n; simpl; lia) _ eq_refl).
  reflexivity.
Qed.

Lemma grouped_filter v : filter (fun x => x <> 44%N) (grouped v) = numeral v.
Proof.
  assert (H : forall p,
    filter (fun x => x <> 44%N)
           (reverse (group_rev (reverse (uint_codes (Pos.to_uint p)))))
    = uint_codes (Pos.to_uint p)).
  { intros p. rewrite filter_reverse, group_rev_filter, <- filter_reverse, reverse_involutive.
    apply filter_keeps_all. eapply Forall_impl; [apply uint_codes_digits|].
    intros c Hc. simpl in Hc. lia. }
  destruct v as [|p|p]; simpl; [done|apply H|].
  rewrite filter_cons, decide_True by done. by rewrite H.
Qed.

Lemma replace_go_none c0 rest new t :
  Forall (fun c => c <> c0) t -> replace_go (c0 :: rest) new 0 t = t.
Proof.
  induction 1 as [|x t Hx Ht IH]; simpl; [done|].
  rewrite (proj2 (N.eqb_neq c0 x)) by done. simpl. by rewrite IH.
Qed.

Lemma replace_go_suffix c0 rest new t u :
  Forall (fun c => c <> c0) t ->
  replace_go (c0 :: rest) new 0 (t ++ u) = t ++ replace_go (c0 :: rest) new 0 u.
Proof.
  induction 1 as [|x t Hx Ht IH]; simpl; [done|].
  rewrite (proj2 (N.eqb_neq c0 x)) by done. simpl. by rewrite IH.
Qed.

Lemma replace_toman_suffix t :
  Forall (fun c => c <> 32%N) t -> replace toman [] (t ++ toman) = t.
Proof.
  intros H. unfold replace, toman. rewrite replace_go_suffix by done.
  change (t ++ [] = t). apply app_nil_r.
Qed.

Lemma lstrip_id s : Forall (fun c => isspace c = false) s -> lstrip s = s.
Proof. destruct 1 as [|x s Hx Hs]; simpl; [done|]. by rewrite Hx. Qed.

Lemma strip_id s : Forall (fun c => isspace c = false) s -> strip s = s.
Proof.
  intros H. unfold strip. rewrite (lstrip_id s H), lstrip_id.
  - apply reverse_involutive.
  - by apply Forall_reverse.
Qed.

Lemma numeral_plain v : Forall (fun c => c = 45%N \/ (48 <= c <= 57)%N) (numeral v).
Proof.
  destruct v as [|p|p]; simpl.
  - constructor; [right; lia|constructor].
  - eapply Forall_impl; [apply uint_codes_digits|]. intros; by right.
  - constructor; [by left|].
    eapply Forall_impl; [apply uint_codes_digits|]. intros; by right.
Qed.

Lemma plain_not_space c : c = 45%N \/ (48 <= c <= 57)%N -> isspace c = false.
Proof.
  intros H. unfold isspace.
  repeat (apply orb_false_iff; split);
    rewrite ?andb_false_iff, ?N.leb_gt, ?N.eqb_neq; lia.
Qed.

(** X16 (format_price_display, clean_price_text): a price text read back.
    Cleaning the text that [format_price_display] makes of an integer gives
    the plain decimal numeral of that integer, with no comma, no currency
    suffix and no space; and cleaning a plain numeral gives it back. *)
Theorem price_text_round_trip v :
  clean_price_text (format_price_display v) = numeral v /\
  clean_price_text (numeral v) = numeral v.
Proof.
  pose proof (numeral_plain v) as Hp.
  assert (H32 : Forall (fun c => c <> 32%N) (numeral v))
    by (eapply Forall_impl; [exact Hp|]; simpl; intros; lia).
  assert (H44 : Forall (fun c => c <> 44%N) (numeral v))
    by (eapply Forall_impl; [exact Hp|]; simpl; intros; lia).
  assert (Hsp : Forall (fun c => isspace c = false) (numeral v))
    by (eapply Forall_impl; [exact Hp|]; apply plain_not_space).
  unfold clean_price_text, format_price_display. split.
  - rewrite replace_single, filter_app, grouped_filter.
    rewrite (filter_keeps_all _ toman) by (repeat constructor; done).
    rewrite replace_toman_suffix by done. by apply strip_id.
  - rewrite replace_single, filter_keeps_all by done.
    unfold replace, toman. rewrite replace_go_none by done. by apply strip_id.
Qed.

(** ** Backups *)

Lemma str_le_refl a : str_le a a = true.
Proof. induction a as [|x a IH]; simpl; [done|]. by rewrite N.eqb_refl, IH, orb_true_r. Qed.

Lemma str_le_total a b : str_le a b = true \/ str_le b a = true.
Proof.
  revert b. induction a as [|x a IH]; intros [|y b]; simpl; auto.
  destruct (N.lt_trichotomy x y) as [H|[H|H]].
  - left. by rewrite (proj2 (N.ltb_lt _ _) H).
  - subst y. rewrite N.eqb_refl, N.ltb_irrefl. simpl. apply IH.
  - right. by rewrite (proj2 (N.ltb_lt _ _) H).
Qed.

Lemma str_le_cons x a y b :
  str_le (x :: a) (y :: b) = true <-> (x < y)%N \/ (x = y /\ str_le a b = true).
Proof.
  simpl. rewrite orb_true_iff, andb_true_iff, N.ltb_lt, N.eqb_eq. tauto.
Qed.

Lemma str_le_trans a b c : str_le a b = true -> str_le b c = true -> str_le a c = true.
Proof.
  revert b c. induction a as [|x a IH]; intros [|y b] [|z c]; try done.
  rewrite !str_le_cons. intros [H1|[-> H1]] [H2|[-> H2]].
  - left. lia.
  - by left.
  - by left.
  - right. split; [done|]. by eapply IH.
Qed.

Lemma str_le_antisym a b : str_le a b = true -> str_le b a = true -> a = b.
Proof.
  revert b. induction a as [|x a IH]; intros [|y b]; try done.
  rewrite !str_le_cons. intros [H1|[-> H1]] [H2|[H2 H3]]; try lia.
  f_equal. by apply IH.
Qed.

Lemma insert_name_perm x l : insert_name x l ≡ₚ x :: l.
Proof.
  induction l as [|y l IH]; simpl; [done|].
  destruct (str_le x y); [done|]. by rewrite IH, Permutation_swap.
Qed.

Lemma sorted_perm l : sorted l ≡ₚ l.
Proof.
  induction l as [|x l IH]; simpl; [done|]. by rewrite insert_name_perm, IH.
Qed.

Lemma insert_name_sorted x l :
  StronglySorted le_name l -> StronglySorted le_name (insert_name x l).
Proof.
  intros Hl. induction Hl as [|y l Hl IH Hy]; simpl.
  - repeat constructor.
  - destruct (str_le x y) eqn:E.
    + constructor; [by constructor|]. constructor; [done|].
      eapply Forall_impl; [exact Hy|]. intros z Hz. by eapply str_le_trans.
    + constructor; [done|]. rewrite insert_name_perm. constructor; [|done].
      destruct (str_le_total x y) as [H|H]; [congruence|done].
Qed.

Lemma sorted_sorted l : StronglySorted le_name (sorted l).
Proof.
  induction l as [|x l IH]; simpl; [constructor|]. by apply insert_name_sorted.
Qed.

Lemma elem_of_backups folder f :
  f ∈ backups folder <-> is_Some (folder !! f) /\ starts_with backup_prefix f = true.
Proof.
  unfold backups. rewrite sorted_perm, list_elem_of_filter, list_elem_of_fmap. split.
  - intros [Hp ([g v] & -> & H)]. apply elem_of_map_to_list in H. simpl in *. eauto.
  - intros [[v Hv] Hp]. split; [done|]. exists (f, v). split; [done|].
    by apply elem_of_map_to_list.
Qed.

Lemma backups_NoDup folder : NoDup (backups folder).
Proof.
  unfold backups. rewrite sorted_perm. apply NoDup_filter, NoDup_fst_map_to_list.
Qed.

Lemma remove_all_lookup fs fails folder f :
  f ∉ fs -> remove_all fs fails folder !! f = folder !! f.
Proof.
  revert fails folder. induction fs as [|g fs IH]; intros fails folder Hf; simpl; [done|].
  apply not_elem_of_cons in Hf as [Hne Hf].
  destruct fails as [|[|] fails]; rewrite IH by done; [|done|];
    apply lookup_delete_ne; congruence.
Qed.

Lemma remove_all_subseteq fs fails folder : remove_all fs fails folder ⊆ folder.
Proof.
  revert fails folder. induction fs as [|g fs IH]; intros fails folder; simpl; [done|].
  destruct fails as [|[|] fails]; try apply IH;
    (etrans; [apply IH|apply delete_subseteq]).
Qed.

Lemma remove_all_gone fs folder f :
  f ∈ fs -> remove_all fs [] folder !! f = None.
Proof.
  revert folder. induction fs as [|g fs IH]; intros folder Hf; simpl.
  - by apply elem_of_nil in Hf.
  - destruct (decide (f ∈ fs)) as [Hin|Hout]; [by apply IH|].
    apply elem_of_cons in Hf as [->|Hf]; [|done].
    rewrite remove_all_lookup by done. apply lookup_delete_eq.
Qed.

Lemma all_but_last_pos n files :
  0 < n -> all_but_last n files = take (length files - Z.to_nat n) files.
Proof. intros H. unfold all_but_last. by rewrite (proj2 (Z.ltb_lt _ _) H). Qed.

Lemma NoDup_take_drop {A} (l : list A) k x :
  NoDup l -> x ∈ take k l -> x ∈ drop k l -> False.
Proof.
  intros Hl H1 H2. rewrite <- (take_drop k l) in Hl.
  apply NoDup_app in Hl as (_ & Hd & _). by apply (Hd x).
Qed.

Lemma retention_spares n fails folder :
  keep_last_n_backups n fails folder ⊆ folder /\
  (forall f, starts_with backup_prefix f = false ->
             keep_last_n_backups n fails folder !! f = folder !! f) /\
  (0 < n ->
   forall f, f ∈ drop (length (backups folder) - Z.to_nat n) (backups folder) ->
             keep_last_n_backups n fails folder !! f = folder !! f) /\
  (n = 0 -> keep_last_n_backups n fails folder = folder).
Proof.
  unfold keep_last_n_backups. cbv zeta.
  destruct (n <? Z.of_nat (length (backups folder))) eqn:E; [|done].
  repeat split.
  - apply remove_all_subseteq.
  - intros f Hf. apply remove_all_lookup. intros Hin.
    assert (Hb : f ∈ backups folder).
    { unfold all_but_last in Hin.
      destruct (0 <? n); eapply elem_of_sublist; try exact Hin; apply sublist_take. }
    apply elem_of_backups in Hb as [_ Hb]. congruence.
  - intros Hn f Hf. apply remove_all_lookup. rewrite all_but_last_pos by done.
    intros Hin. by eapply NoDup_take_drop; [apply (backups_NoDup folder)| |].
  - intros ->. reflexivity.
Qed.

Lemma backups_split folder k :
  (forall f g, f ∈ take k (backups folder) -> g ∈ drop k (backups folder) ->
               str_le f g = true) /\
  StronglySorted le_name (drop k (backups folder)) /\
  NoDup (drop k (backups folder)).
Proof.
  pose proof (sorted_sorted
                (filter (fun f => starts_with backup_prefix f = true)
                        (map fst (map_to_list folder)))) as Hs.
  fold (backups folder) in Hs.
  rewrite <- (take_drop k (backups folder)) in Hs.
  apply StronglySorted_app in Hs as (Ho & _ & Hd).
  split; [exact Ho|]. split; [exact Hd|].
  eapply sublist_NoDup; [apply (backups_NoDup folder)|apply sublist_drop].
Qed.

Lemma retention_exact n folder :
  0 < n ->
  let folder' := keep_last_n_backups n [] folder in
  backups folder' = drop (length (backups folder) - Z.to_nat n) (backups folder) /\
  Z.of_nat (length (backups folder')) <= n /\
  (forall f g, f ∈ backups folder -> f ∉ backups folder' -> g ∈ backups folder' ->
               str_le f g = true).
Proof.
  intros Hn folder'.
  set (k := (length (backups folder) - Z.to_nat n)%nat).
  destruct (backups_split folder k) as (Ho & Hd & Hnd).
  assert (Heq : backups folder' = drop k (backups folder)).
  { unfold folder', keep_last_n_backups. cbv zeta.
    destruct (n <? Z.of_nat (length (backups folder))) eqn:E.
    - rewrite all_but_last_pos by done. fold k.
      apply (StronglySorted_unique_strong le_name).
      + intros x1 x2 _ _. apply str_le_antisym.
      + apply sorted_sorted.
      + exact Hd.
      + apply NoDup_Permutation; [apply backups_NoDup|exact Hnd|].
        intros x. rewrite elem_of_backups. split.
        * intros [Hx Hp].
          assert (Hnot : x ∉ take k (backups folder)).
          { intros Hin. rewrite (remove_all_gone _ _ _ Hin) in Hx. by destruct Hx. }
          assert (Hb : x ∈ backups folder).
          { apply elem_of_backups. split; [|done].
            destruct Hx as [v Hv]. exists v.
            eapply lookup_weaken; [exact Hv|apply remove_all_subseteq]. }
          rewrite <- (take_drop k (backups folder)) in Hb.
          apply elem_of_app in Hb as [Hb|Hb]; done.
        * intros Hx.
          assert (Hb : x ∈ backups folder)
            by (eapply elem_of_sublist; [exact Hx|apply sublist_drop]).
          apply elem_of_backups in Hb as [Hs Hp]. split; [|done].
          rewrite remove_all_lookup; [done|].
          intros Hin. by eapply NoDup_take_drop; [apply (backups_NoDup folder)| |].
    - apply Z.ltb_ge in E. replace k with 0%nat by lia. done. }
  split; [exact Heq|]. split.
  - rewrite Heq, length_drop. lia.
  - intros f g Hf Hnf Hg. rewrite Heq in Hnf, Hg. apply Ho; [|done].
    rewrite <- (take_drop k (backups folder)) in Hf.
    apply elem_of_app in Hf as [Hf|Hf]; done.
Qed.

Lemma starts_with_app pre s : starts_with pre (pre ++ s) = true.
Proof. induction pre as [|c pre IH]; simpl; [done|]. by rewrite N.eqb_refl, IH. Qed.

(** X17 (keep_last_n_backups): what the retention never touches.
    Whichever removals fail, the retention adds and changes no file and
    removes no file whose name does not start with the backup prefix; when
    asked to keep a positive number [n] it removes none of the last [n]
    backups in name order; asked to keep none, it removes nothing. *)
Theorem keep_last_n_backups_spares n fails folder :
  keep_last_n_backups n fails folder ⊆ folder /\
  (forall f, starts_with backup_prefix f = false ->
             keep_last_n_backups n fails folder !! f = folder !! f) /\
  (0 < n ->
   forall f, f ∈ drop (length (backups folder) - Z.to_nat n) (backups folder) ->
             keep_last_n_backups n fails folder !! f = folder !! f) /\
  (n = 0 -> keep_last_n_backups n fails folder = folder).
Proof. apply retention_spares. Qed.

(** X18 (keep_last_n_backups): the retention when every removal succeeds.
    Asked to keep a positive number [n], it leaves as backups the last [n]
    in name order (all of them when there are no more than [n]): at most
    [n] are left, and every backup removed comes before every backup kept. *)
Theorem keep_last_n_backups_exact n folder :
  0 < n ->
  let folder' := keep_last_n_backups n [] folder in
  backups folder' = drop (length (backups folder) - Z.to_nat n) (backups folder) /\
  Z.of_nat (length (backups folder')) <= n /\
  (forall f g, f ∈ backups folder -> f ∉ backups folder' -> g ∈ backups folder' ->
               str_le f g = true).
Proof. apply retention_exact. Qed.



(** ** The sales history *)

Lemma StronglySorted_any {A} (l : list A) : StronglySorted (fun _ _ => True) l.
Proof.
  induction l as [|x l IH]; constructor; [done|]. by apply Forall_forall.
Qed.

Lemma sales_history_rows d :
  let rows := sales_history d in
  (length rows <= 2000)%nat /\
  NoDup (map hist_id rows) /\
  StronglySorted (fun a b => hist_time b <= hist_time a) rows /\
  (forall row, row ∈ rows ->
     exists x, sales_log d !! hist_id row = Some x /\
               row = history_row d (hist_id row, x)) /\
  ((size (sales_log d) <= 2000)%nat ->
   forall s x, sales_log d !! s = Some x -> history_row d (s, x) ∈ rows) /\
  (forall s x row, sales_log d !! s = Some x -> s ∉ map hist_id rows -> row ∈ rows ->
                   timestamp x <= hist_time row).
Proof.
  intros rows. unfold rows, sales_history.
  set (all := sort_by (fun kr : Z * Sale => - timestamp kr.2) (scan (sales_log d))).
  assert (Hall : all ≡ₚ map_to_list (sales_log d)).
  { unfold all, scan. by rewrite !sort_by_perm. }
  assert (Hsorted : StronglySorted (fun a b : Z * Sale => timestamp b.2 <= timestamp a.2) all).
  { eapply StronglySorted_mono;
      [|apply (sort_by_sorted _ (fun _ _ => True)), StronglySorted_any].
    intros x y _ _ [H|[H _]]; simpl in *; lia. }
  assert (Hnd : NoDup (map fst all)).
  { rewrite Hall. apply NoDup_fst_map_to_list. }
  assert (Hin : forall s x, (s, x) ∈ all <-> sales_log d !! s = Some x).
  { intros s x. rewrite Hall. apply elem_of_map_to_list. }
  assert (Hids : map hist_id (map (history_row d) (take 2000 all)) = map fst (take 2000 all)).
  { rewrite map_map. by apply map_ext. }
  rewrite <- (take_drop 2000 all) in Hsorted.
  apply StronglySorted_app in Hsorted as (Hcross & Htake & _).
  repeat split.
  - rewrite length_map, length_take. lia.
  - rewrite Hids. eapply sublist_NoDup; [exact Hnd|].
    apply (fmap_sublist fst), sublist_take.
  - by eapply StronglySorted_map_in; [|exact Htake].
  - intros row Hrow. apply list_elem_of_fmap in Hrow as ([s x] & -> & Hsx).
    exists x. split; [|done]. apply Hin.
    eapply elem_of_sublist; [exact Hsx|apply sublist_take].
  - intros Hsize s x Hsx. apply list_elem_of_fmap. exists (s, x). split; [done|].
    rewrite take_ge; [by apply Hin|].
    rewrite Hall, length_map_to_list. exact Hsize.
  - intros s x row Hsx Hout Hrow.
    apply list_elem_of_fmap in Hrow as ([s' x'] & -> & Hrow). simpl.
    apply (Hcross (s', x') (s, x)); [done|].
    apply Hin in Hsx. rewrite <- (take_drop 2000 all) in Hsx.
    apply elem_of_app in Hsx as [Hsx|Hsx]; [|done].
    exfalso. apply Hout. rewrite Hids. apply list_elem_of_fmap. by exists (s, x).
Qed.

(** X20 (open_sales_history): the lines of the sales history.  When the
    connection does not fail, the window is filled with at most 2000 lines,
    one per sale and no sale twice, latest first; each line shows its
    sale's quantity, prices and profit, and the name of the product the
    sale points to, if it points to one; every sale is there when the log
    has no more than 2000, and a sale left out is no later than any sale
    shown.  The file is not changed. *)
Theorem open_sales_history_rows st :
  faults st = [] ->
  exists rows,
    open_sales_history st = (Val rows, st) /\
    (length rows <= 2000)%nat /\
    NoDup (map hist_id rows) /\
    StronglySorted (fun a b => hist_time b <= hist_time a) rows /\
    (forall row, row ∈ rows ->
       exists x, sales_log (db st) !! hist_id row = Some x /\
                 row = history_row (db st) (hist_id row, x)) /\
    ((size (sales_log (db st)) <= 2000)%nat ->
     forall s x, sales_log (db st) !! s = Some x -> history_row (db st) (s, x) ∈ rows) /\
    (forall s x row, sales_log (db st) !! s = Some x -> s ∉ map hist_id rows ->
                     row ∈ rows -> timestamp x <= hist_time row).
Proof.
  intros Hf. exists (sales_history (db st)).
  split; [by apply db_query_ok|]. apply sales_history_rows.
Qed.

(** ** The foreign key of the sales log *)

Lemma linked_mono d d' :
  (forall s x, sales_log d' !! s = Some x -> sales_log d !! s = Some x) ->
  (forall k, is_Some (products d !! k) -> is_Some (products d' !! k)) ->
  linked d -> linked d'.
Proof.
  intros Hs Hp H s x Hx k Hk. apply Hp. by apply (H s x (Hs s x Hx)).
Qed.

(** [linked], checked row by row. *)
Lemma linked_checked d :
  map_Forall (fun _ x => match product_id x with
                         | Some k => bool_decide (is_Some (products d !! k))
                         | None => true
                         end = true) (sales_log d) ->
  linked d.
Proof.
  intros H s x Hx k Hk. specialize (H s x Hx). simpl in H. rewrite Hk in H.
  by apply bool_decide_eq_true in H.
Qed.

Lemma linked_delete_product k d : linked d -> linked (delete_product k d).
Proof.
  intros H. unfold delete_product. destruct (products d !! k) eqn:E; [|done].
  intros s x Hx k' Hk'. simpl in *.
  rewrite lookup_fmap in Hx. destruct (sales_log d !! s) as [x0|] eqn:E0; [|done].
  simpl in Hx. injection Hx as <-. rewrite forget_product_shape in Hk'.
  case_bool_decide; [done|].
  rewrite lookup_delete_ne by congruence. by apply (H s x0).
Qed.

Lemma linked_alter f k d d' :
  sales_log d' = sales_log d -> products d' = alter f k (products d) ->
  linked d -> linked d'.
Proof.
  intros Hs Hp. apply linked_mono.
  - intros s x. by rewrite Hs.
  - intros k' [r Hr]. rewrite Hp.
    destruct (decide (k = k')) as [<-|Hne].
    + rewrite lookup_alter_eq, Hr. by eexists.
    + rewrite lookup_alter_ne by done. by eexists.
Qed.

Lemma linked_insert_sale pid n b s pr ts d sid d' :
  linked d -> insert_sale pid n b s pr ts d = Some (sid, d') -> linked d'.
Proof.
  intros H Hs. unfold insert_sale in Hs.
  destruct (products d !! pid) eqn:E; [|done]. injection Hs as _ <-.
  intros s' x Hx k Hk. simpl in *.
  destruct (decide (next_rowid (sales_log d) (sales_log_seq d) = s')) as [<-|Hne].
  - rewrite lookup_insert_eq in Hx. injection Hx as <-. simpl in Hk.
    injection Hk as <-. by eexists.
  - rewrite lookup_insert_ne in Hx by done. by apply (H s' x).
Qed.

Lemma linked_where_id k stmt d :
  (forall k' d0, linked d0 -> linked (stmt k' d0)) -> linked d -> linked (where_id k stmt d).
Proof. intros H Hd. destruct k; simpl; [by apply H|done]. Qed.

Lemma linked_insert_product row d : linked d -> linked (insert_product row d).2.
Proof.
  apply linked_mono; [done|]. intros k Hk. simpl.
  destruct (decide (next_rowid (products d) (products_seq d) = k)) as [<-|Hne].
  - rewrite lookup_insert_eq. by eexists.
  - by rewrite lookup_insert_ne.
Qed.

Lemma linked_delete_sale k d : linked d -> linked (delete_sale k d).
Proof.
  apply linked_mono; [|done]. intros s x. simpl. intros Hx.
  destruct (decide (k = s)) as [<-|Hne]; [by rewrite lookup_delete_eq in Hx|].
  by rewrite lookup_delete_ne in Hx.
Qed.

Ltac linked_step :=
  first
    [ apply keeps_ret
    | apply keeps_refresh_list; intros; by apply linked_delete_product
    | apply keeps_update_report
    | apply keeps__push_undo; intros ? ?; by apply linked_mono
    | apply keeps_log_action; intros ?; by apply linked_mono
    | apply keeps_db_query
    | by apply keeps_pure
    | apply keeps_bind; [|intros ?]
    | apply keeps_try
    | case_match ].

Section ForeignKey.

Variable name_like : string -> string -> bool.

Lemma linked_add_product n q b s : keeps linked (add_product name_like n q b s).
Proof.
  unfold add_product. repeat linked_step.
  apply keeps_connect. intros d k d' HI [= _ <-]. by apply linked_insert_product.
Qed.

Lemma linked_sell_item q yes : keeps linked (sell_item name_like q yes).
Proof.
  unfold sell_item. cbv zeta. repeat linked_step;
    apply keeps_connect; intros d k d' HI Hs;
    (eapply linked_insert_sale; [|exact Hs]);
    by eapply (linked_alter _ _ d).
Qed.

Lemma linked_delete_item yes : keeps linked (delete_item name_like yes).
Proof.
  unfold delete_item. repeat linked_step.
  apply keeps_db_execute. intros; by apply linked_delete_product.
Qed.

Lemma linked_undo_last : keeps linked (undo_last name_like).
Proof.
  unfold undo_last. cbv zeta.
  apply keeps_bind.
  { apply keeps_try; [|apply keeps_ret].
    apply keeps_bind; [|intros [[uid r]|]; repeat linked_step].
    apply keeps_connect. intros d a d' HI Hc.
    destruct (last_row (undo_stack d)) as [[uid r]|]; injection Hc as _ <-; [|done].
    revert HI. by apply linked_mono. }
  intros [e|]; [|by apply keeps_pure].
  apply keeps_bind; [by apply keeps_pure|]. intros held.
  apply keeps_bind; [|intros _; apply keeps_undo_refresh; intros; by apply linked_delete_product].
  apply keeps_try; [|by apply keeps_pure].
  repeat case_match.
  - unfold undo_add. repeat linked_step.
    apply keeps_db_execute. intros d. apply linked_where_id.
    intros; by apply linked_delete_product.
  - unfold undo_sell. cbv zeta.
    apply keeps_bind.
    { repeat case_match; apply keeps_db_execute; intros d; apply linked_where_id;
        intros k' d0; by eapply (linked_alter _ k' d0). }
    intros _. apply keeps_bind.
    { case_match; [|apply keeps_ret].
      apply keeps_try.
      - apply keeps_db_execute. intros d. apply linked_where_id.
        intros; by apply linked_delete_sale.
      - apply keeps_try; [|apply keeps_ret].
        apply keeps_connect. intros d a d' HI Hc.
        destruct (find_sale _ _ d); injection Hc as _ <-; [|done].
        by apply linked_delete_sale. }
    intros _. repeat linked_step.
  - apply keeps_undo_delete.
    + intros d a d' HI Hc. unfold restore_row in Hc.
      destruct (pl_data (entry_payload e)) as [row|]; [|done].
      destruct (pl_product_id (entry_payload e)) as [pid|].
      * unfold insert_product_with_id in Hc.
        destruct (products d !! pid) eqn:E; [done|]. injection Hc as _ <-.
        revert HI. apply linked_mono; [done|]. intros k Hk. simpl.
        destruct (decide (pid = k)) as [<-|Hne];
          [rewrite lookup_insert_eq; by eexists|by rewrite lookup_insert_ne].
      * injection Hc as _ <-. by apply linked_insert_product.
    + intros d a d' HI Hc. unfold fallback_row in Hc.
      destruct (pl_data (entry_payload e)) as [row|]; [|done].
      injection Hc as _ <-. by apply linked_insert_product.
    + intros d. by apply linked_mono.
  - by apply keeps_pure.
Qed.

Lemma linked__delete_sales_record sel yes : keeps linked (_delete_sales_record sel yes).
Proof.
  unfold _delete_sales_record. repeat linked_step.
  apply keeps_db_execute. intros; by apply linked_delete_sale.
Qed.

(** X21 (init_db, the commands): the foreign key of the sales log.  In a
    file in which every sale that points to a product points to an existing
    one, every command leaves it so, whichever connections fail: a sale is
    recorded only for a product that has a row, and deleting a product, by
    hand or by the refresh, unsets the references to it. *)
Theorem sales_stay_linked st :
  linked (db st) ->
  (forall n q b s, linked (db (run (add_product name_like n q b s) st))) /\
  (forall q yes, linked (db (run (sell_item name_like q yes) st))) /\
  (forall yes, linked (db (run (delete_item name_like yes) st))) /\
  linked (db (run (undo_last name_like) st)) /\
  (forall sel yes, linked (db (run (_delete_sales_record sel yes) st))) /\
  (forall q, linked (db (run (search_typed name_like q) st))) /\
  (forall f, linked (db (run (filter_chosen name_like f) st))) /\
  linked (db (run (startup name_like) st)).
Proof.
  intros H.
  split; [intros; by apply linked_add_product|].
  split; [intros; by apply linked_sell_item|].
  split; [intros; by apply linked_delete_item|].
  split; [by apply linked_undo_last|].
  split; [intros; by apply linked__delete_sales_record|].
  assert (Href : keeps linked (refresh_list name_like)).
  { apply keeps_refresh_list. intros; by apply linked_delete_product. }
  split; [|split]; intros; revert H.
  - apply keeps_bind; [by apply keeps_pure|intros _; exact Href].
  - apply keeps_bind; [by apply keeps_pure|intros _; exact Href].
  - unfold startup. apply keeps_bind; [by apply keeps_db_execute|intros _].
    apply keeps_bind; [|intros _; exact Href].
    unfold _load_undo_stack. repeat linked_step.
Qed.

(** X22 (refresh_list): what a refresh deletes.  When no connection fails,
    a refresh of the list deletes exactly the products that the search text
    matches and that have no stock left, and keeps every other product as
    it is; it pushes nothing on the undo stack, writes no log line, and
    removes no sales row. *)
Theorem refresh_list_sweeps st :
  faults st = [] ->
  let st' := run (refresh_list name_like) st in
  (forall k, products (db st') !! k =
             match products (db st) !! k with
             | Some r => if listed name_like (var_search st) r && (qty r <=? 0)
                         then None else Some r
             | None => None
             end) /\
  undo_stack (db st') = undo_stack (db st) /\
  _undo_stack st' = _undo_stack st /\
  logs (db st') = logs (db st) /\
  dom (sales_log (db st')) = dom (sales_log (db st)).
Proof.
  intros Hf st'.
  destruct (refresh_list_exact name_like st Hf)
    as (st1 & Hrun & (_ & _ & _ & Hdb & _ & _ & _ & _ & Hl) & _).
  unfold st'. rewrite (run_eq _ _ _ _ Hrun), Hdb.
  split; [intros k; apply sweep_lookup|].
  split; [apply sweep_undo_stack|]. split; [exact Hl|].
  split; [|apply sweep_sales_dom].
  unfold sweep. generalize (listing name_like (var_search st) (var_filter st) (db st)).
  intros rows. generalize (db st). induction rows as [|[k r] rows IH]; intros d; simpl; [done|].
  destruct (qty r <=? 0); [|apply IH]. rewrite IH.
  unfold delete_product. by destruct (products d !! k).
Qed.

End ForeignKey.

(** ** The theorems on backups, history and the file at concrete inputs *)

Lemma keep_last_n_backups_spares_at_shelf :
  backup_name (codes "20240103_000000")
    ∈ drop (length (backups backup_shelf) - Z.to_nat 2) (backups backup_shelf) /\
  keep_last_n_backups 2 [true] backup_shelf !! backup_name (codes "20240103_000000")
  = backup_shelf !! backup_name (codes "20240103_000000").
Proof.
  assert (H : backup_name (codes "20240103_000000")
                ∈ drop (length (backups backup_shelf) - Z.to_nat 2) (backups backup_shelf))
    by (apply (bool_decide_unpack _); vm_compute; exact I).
  split; [exact H|].
  apply (proj1 (proj2 (proj2 (keep_last_n_backups_spares 2 [true] backup_shelf)))
               ltac:(lia) _ H).
Defined.

Lemma keep_last_n_backups_exact_at_shelf :
  0 < 2 /\
  Z.of_nat (length (backups (keep_last_n_backups 2 [] backup_shelf))) <= 2.
Proof.
  split; [lia|].
  apply (keep_last_n_backups_exact 2 backup_shelf). lia.
Defined.


Lemma open_sales_history_rows_at_coffee :
  faults coffee_sold_twice = [] /\
  exists rows,
    open_sales_history coffee_sold_twice = (Val rows, coffee_sold_twice) /\
    (length rows <= 2000)%nat /\
    NoDup (map hist_id rows).
Proof.
  split; [reflexivity|].
  destruct (open_sales_history_rows coffee_sold_twice) as (rows & Hrun & Hlen & Hnd & _);
    [reflexivity|].
  exists rows. auto.
Defined.

Lemma sales_stay_linked_at_coffee :
  (sales_log (db coffee_sold_once) !! 1 =
     Some (mkSale (Some 1) 1 1000 1500 500 1) /\
   linked (db coffee_sold_once)) /\
  linked (db (run (delete_item contains true) coffee_sold_once)).
Proof.
  assert (H : linked (db coffee_sold_once)).
  { apply linked_checked. apply (bool_decide_unpack _). vm_compute. exact I. }
  split; [split; [reflexivity|exact H]|].
  apply (proj1 (proj2 (proj2 (sales_stay_linked contains coffee_sold_once H)))).
Defined.

Lemma refresh_list_sweeps_at_shelf :
  faults shelf = [] /\
  undo_stack (db (run (refresh_list contains) shelf)) = undo_stack (db shelf).
Proof.
  split; [reflexivity|].
  apply (refresh_list_sweeps contains shelf). reflexivity.
Defined.

(** ** Delete, Undo and the sales of the product *)

Section DeleteUndo.

Variable name_like : string -> string -> bool.

(** X23 (delete_item, undo_last, open_sales_history): the sales of a
    product that was deleted and brought back.  When no connection fails
    and no listed product is out of stock, deleting the selected product,
    which is in stock, and undoing right away leaves the sales log as the
    delete left it: the product is back, but the sales that pointed to it
    no longer do, and the sales history shows them without a name. *)
Theorem delete_then_undo_sales st p sel r :
  faults st = [] -> selection st = p :: sel -> products (db st) !! p = Some r ->
  0 < qty r -> clean name_like (var_search st) (db st) ->
  let st1 := run (delete_item name_like true) st in
  let st2 := run (undo_last name_like) st1 in
  products (db st2) !! p = Some r /\
  sales_log (db st2) = forget_product p <$> sales_log (db st) /\
  (forall s x, sales_log (db st) !! s = Some x -> product_id x = Some p ->
     exists x', sales_log (db st2) !! s = Some x' /\ joined_name (db st2) x' = None).
Proof.
  intros Hf Hsel Hp Hq Hc st1 st2.
  destruct (delete_item_ok name_like st p sel r Hf Hsel Hp) as
    (st1' & Hrun1 & Hf1 & Hs1 & Hv1 & Hdb1 & _).
  assert (Hst1 : st1 = st1') by (eapply run_eq; exact Hrun1).
  clearbody st1. subst st1'.
  set (pl := mkPayload (Some p) None None None None (Some r)) in Hdb1.
  set (uid := next_rowid (undo_stack (db st)) (undo_stack_seq (db st))).
  match type of Hdb1 with _ = sweep _ _ _ ?d => set (D := d) in Hdb1 end.
  assert (HDp : products D = delete p (products (db st))).
  { unfold D, delete_product. simpl. by rewrite Hp. }
  assert (HDs : sales_log D = forget_product p <$> sales_log (db st)).
  { unfold D, delete_product. simpl. by rewrite Hp. }
  assert (HDu : undo_stack D = <[uid := mkUndoRow "DELETE" pl (clock st)]> (undo_stack (db st))).
  { unfold D. simpl. by rewrite delete_product_undo_stack. }
  assert (HDc : clean name_like (var_search st) D).
  { apply (clean_sub name_like _ (db st)); [exact Hc|].
    intros k r0. rewrite HDp. intros H.
    destruct (decide (p = k)) as [<-|Hne]; [by rewrite lookup_delete_eq in H|].
    by rewrite lookup_delete_ne in H. }
  rewrite (sweep_id name_like _ _ _ HDc) in Hdb1.
  assert (Hp1 : products (db st1) !! p = None).
  { rewrite Hdb1, HDp. apply lookup_delete_eq. }
  assert (Hlast : last_row (undo_stack (db st1)) = Some (uid, mkUndoRow "DELETE" pl (clock st))).
  { rewrite Hdb1, HDu. apply last_row_insert_next. }
  pose proof (undo_delete_ok pl p r
                (set_undo_list (forget_entry uid (_undo_stack st1))
                               (set_db (delete_undo uid (db st1)) st1)) Hf1
                eq_refl eq_refl Hp1) as Hbody.
  pose proof (proj2 (held_after_free pl p r
                (set_undo_list (forget_entry uid (_undo_stack st1))
                               (set_db (delete_undo uid (db st1)) st1)) Hf1
                eq_refl eq_refl Hp1)) as Hheld.
  destruct (undo_last_ok name_like st1 uid _ _ Hf1 Hlast Hbody Hheld Hf1) as (t & rep & Hrun2 & _).
  assert (Hst2 : st2 = _) by (eapply run_eq; exact Hrun2).
  clearbody st2. clear Hrun2 Hbody. subst st2. simpl.
  match goal with |- context [sweep _ _ _ ?d0] => set (D2 := d0) end.
  assert (HD2p : products D2 = <[p := r]> (products D)).
  { unfold D2. simpl. by rewrite Hdb1. }
  assert (HD2s : sales_log D2 = forget_product p <$> sales_log (db st)).
  { unfold D2. simpl. by rewrite Hdb1. }
  assert (HD2c : clean name_like (var_search st1) D2).
  { rewrite Hs1. intros k r0 Hk Hl. rewrite HD2p in Hk.
    destruct (decide (p = k)) as [<-|Hne].
    - rewrite lookup_insert_eq in Hk. by injection Hk as <-.
    - rewrite lookup_insert_ne in Hk by done. by apply (HDc k r0). }
  rewrite (sweep_id name_like _ _ _ HD2c).
  split; [rewrite HD2p; apply lookup_insert_eq|]. split; [exact HD2s|].
  intros s x Hx Hpx. exists (unlink x). split.
  - rewrite HD2s, lookup_fmap, Hx. simpl. rewrite forget_product_shape.
    by rewrite bool_decide_eq_true_2.
  - reflexivity.
Qed.

End DeleteUndo.

(** ** The counter of the product ids *)

Lemma covered_mono d d' :
  (forall k, is_Some (products d' !! k) -> is_Some (products d !! k)) ->
  products_seq d <= products_seq d' -> covered d -> covered d'.
Proof.
  intros Hp Hs H k r Hk. destruct (Hp k (mk_is_Some _ _ Hk)) as [r0 Hr0].
  pose proof (H k r0 Hr0) as Hle. simpl in *. lia.
Qed.

Lemma covered_delete_product k d : covered d -> covered (delete_product k d).
Proof.
  unfold delete_product. destruct (products d !! k); [|done].
  apply covered_mono; [|done]. simpl. intros k' [r Hr].
  destruct (decide (k = k')) as [<-|Hne]; [by rewrite lookup_delete_eq in Hr|].
  rewrite lookup_delete_ne in Hr by done. by eexists.
Qed.

Lemma covered_alter f k d d' :
  products d' = alter f k (products d) -> products_seq d' = products_seq d ->
  covered d -> covered d'.
Proof.
  intros Hp Hs. apply covered_mono; [|lia]. intros k' [r Hr]. rewrite Hp in Hr.
  destruct (decide (k = k')) as [<-|Hne].
  - rewrite lookup_alter_eq in Hr. destruct (products d !! k); [by eexists|done].
  - rewrite lookup_alter_ne in Hr by done. by eexists.
Qed.

Lemma covered_insert k row seq d d' :
  products d' = <[k := row]> (products d) -> products_seq d' = seq ->
  k <= seq -> products_seq d <= seq -> covered d -> covered d'.
Proof.
  intros Hp Hs Hk Hle H k' r Hr. rewrite Hp in Hr. rewrite Hs.
  destruct (decide (k = k')) as [<-|Hne]; [done|].
  rewrite lookup_insert_ne in Hr by done. pose proof (H k' r Hr). simpl in *. lia.
Qed.

Lemma covered_insert_product row d : covered d -> covered (insert_product row d).2.
Proof.
  unfold insert_product. simpl.
  apply (covered_insert (next_rowid (products d) (products_seq d)) row
                        (next_rowid (products d) (products_seq d)) d);
    try done; unfold next_rowid; lia.
Qed.

Lemma covered_where_id k stmt d :
  (forall k' d0, covered d0 -> covered (stmt k' d0)) -> covered d ->
  covered (where_id k stmt d).
Proof. intros H Hd. destruct k; simpl; [by apply H|done]. Qed.

Lemma delete_product_products_seq k d :
  products_seq (delete_product k d) = products_seq d.
Proof. unfold delete_product. by destruct (products d !! k). Qed.

Lemma sweep_rows_products_seq rows d :
  products_seq (sweep_rows rows d) = products_seq d.
Proof.
  revert d. induction rows as [|[k r] rows IH]; intros d; simpl; [done|].
  destruct (qty r <=? 0); [|apply IH]. by rewrite IH, delete_product_products_seq.
Qed.

Ltac covered_step :=
  first
    [ apply keeps_ret
    | apply keeps_refresh_list; intros; by apply covered_delete_product
    | apply keeps_update_report
    | apply keeps__push_undo; intros ? ?; by apply covered_mono
    | apply keeps_log_action; intros ?; by apply covered_mono
    | apply keeps_db_query
    | by apply keeps_pure
    | apply keeps_bind; [|intros ?]
    | apply keeps_try
    | case_match ].

Section Counter.

Variable name_like : string -> string -> bool.

Lemma covered_add_product n q b s : keeps covered (add_product name_like n q b s).
Proof.
  unfold add_product. repeat covered_step.
  apply keeps_connect. intros d k d' HI [= _ <-]. by apply covered_insert_product.
Qed.

Lemma covered_sell_item q yes : keeps covered (sell_item name_like q yes).
Proof.
  unfold sell_item. cbv zeta. repeat covered_step;
    apply keeps_connect; intros d k d' HI Hs; unfold insert_sale in Hs;
    (destruct (products (update_product _ _ _ d) !! _); [|done]);
    injection Hs as _ <-; by eapply (covered_alter _ _ d).
Qed.

Lemma covered_delete_item yes : keeps covered (delete_item name_like yes).
Proof.
  unfold delete_item. repeat covered_step.
  apply keeps_db_execute. intros; by apply covered_delete_product.
Qed.

Lemma covered_undo_last : keeps covered (undo_last name_like).
Proof.
  unfold undo_last. cbv zeta.
  apply keeps_bind.
  { apply keeps_try; [|apply keeps_ret].
    apply keeps_bind; [|intros [[uid r]|]; repeat covered_step].
    apply keeps_connect. intros d a d' HI Hc.
    destruct (last_row (undo_stack d)) as [[uid r]|]; injection Hc as _ <-; [|done].
    revert HI. by apply covered_mono. }
  intros [e|]; [|by apply keeps_pure].
  apply keeps_bind; [by apply keeps_pure|]. intros held.
  apply keeps_bind; [|intros _; apply keeps_undo_refresh; intros; by apply covered_delete_product].
  apply keeps_try; [|by apply keeps_pure].
  repeat case_match.
  - unfold undo_add. repeat covered_step.
    apply keeps_db_execute. intros d. apply covered_where_id.
    intros; by apply covered_delete_product.
  - unfold undo_sell. cbv zeta.
    apply keeps_bind.
    { repeat case_match; apply keeps_db_execute; intros d; apply covered_where_id;
        intros k' d0; by eapply (covered_alter _ k' d0). }
    intros _. apply keeps_bind.
    { case_match; [|apply keeps_ret].
      apply keeps_try.
      - apply keeps_db_execute. intros d. apply covered_where_id.
        intros k' d0. by apply covered_mono.
      - apply keeps_try; [|apply keeps_ret].
        apply keeps_connect. intros d a d' HI Hc.
        destruct (find_sale _ _ d); injection Hc as _ <-; [|done].
        revert HI. by apply covered_mono. }
    intros _. repeat covered_step.
  - apply keeps_undo_delete.
    + intros d a d' HI Hc. unfold restore_row in Hc.
      destruct (pl_data (entry_payload e)) as [row|]; [|done].
      destruct (pl_product_id (entry_payload e)) as [pid|].
      * unfold insert_product_with_id in Hc.
        destruct (products d !! pid) eqn:E; [done|]. injection Hc as _ <-.
        revert HI. apply (covered_insert pid row (Z.max (products_seq d) pid) d);
          try done; simpl; lia.
      * injection Hc as _ <-. by apply covered_insert_product.
    + intros d a d' HI Hc. unfold fallback_row in Hc.
      destruct (pl_data (entry_payload e)) as [row|]; [|done].
      injection Hc as _ <-. by apply covered_insert_product.
    + intros d. by apply covered_mono.
  - by apply keeps_pure.
Qed.

Lemma covered__delete_sales_record sel yes : keeps covered (_delete_sales_record sel yes).
Proof.
  unfold _delete_sales_record. repeat covered_step.
  apply keeps_db_execute. intros d. by apply covered_mono.
Qed.

(** X24 (init_db, the commands): the ids that have been given out.  The
    AUTOINCREMENT counter of the products starts, on a new file, not below
    any id in the table, and every command leaves it so, whichever
    connections fail; so the id of a product deleted when no connection
    fails is from then on one that has been given out and has no row. *)
Theorem ids_are_counted :
  covered init_db /\
  (forall st, covered (db st) ->
     (forall n q b s, covered (db (run (add_product name_like n q b s) st))) /\
     (forall q yes, covered (db (run (sell_item name_like q yes) st))) /\
     (forall yes, covered (db (run (delete_item name_like yes) st))) /\
     covered (db (run (undo_last name_like) st)) /\
     (forall sel yes, covered (db (run (_delete_sales_record sel yes) st))) /\
     (forall q, covered (db (run (search_typed name_like q) st))) /\
     (forall f, covered (db (run (filter_chosen name_like f) st))) /\
     covered (db (run (startup name_like) st)) /\
     (forall p sel r,
        faults st = [] -> selection st = p :: sel -> products (db st) !! p = Some r ->
        retired p (db (run (delete_item name_like true) st)))).
Proof.
  split; [apply map_Forall_empty|]. intros st H.
  split; [intros; by apply covered_add_product|].
  split; [intros; by apply covered_sell_item|].
  split; [intros; by apply covered_delete_item|].
  split; [by apply covered_undo_last|].
  split; [intros; by apply covered__delete_sales_record|].
  assert (Href : keeps covered (refresh_list name_like)).
  { apply keeps_refresh_list. intros; by apply covered_delete_product. }
  split; [|split; [|split]].
  - intros q. revert H. apply keeps_bind; [by apply keeps_pure|intros _; exact Href].
  - intros f. revert H. apply keeps_bind; [by apply keeps_pure|intros _; exact Href].
  - revert H. unfold startup. apply keeps_bind; [by apply keeps_db_execute|intros _].
    apply keeps_bind; [|intros _; exact Href].
    unfold _load_undo_stack. repeat covered_step.
  - intros p sel r Hf Hsel Hp.
    destruct (delete_item_ok name_like st p sel r Hf Hsel Hp) as
      (st' & Hrun & _ & _ & _ & Hdb & _).
    rewrite (run_eq _ _ _ _ Hrun), Hdb. split.
    + unfold sweep. rewrite sweep_rows_products_seq. simpl.
      rewrite delete_product_products_seq. simpl. exact (H p r Hp).
    + apply sweep_absent. simpl. rewrite delete_product_lookup.
      by rewrite bool_decide_eq_true_2.
Qed.

End Counter.

Lemma delete_then_undo_sales_at_coffee :
  (products (db coffee_sold_once) !! 1 = Some (mkProduct "Coffee" 2 1000 1500 1) /\
   clean contains (var_search coffee_sold_once) (db coffee_sold_once)) /\
  sales_log (db (run (undo_last contains)
                     (run (delete_item contains true) coffee_sold_once)))
  = forget_product 1 <$> sales_log (db coffee_sold_once).
Proof.
  assert (H : clean contains (var_search coffee_sold_once) (db coffee_sold_once))
    by (apply (bool_decide_unpack _); vm_compute; exact I).
  split; [split; [reflexivity|exact H]|].
  apply (delete_then_undo_sales contains coffee_sold_once 1 []
           (mkProduct "Coffee" 2 1000 1500 1));
    [reflexivity|reflexivity|reflexivity|simpl; lia|exact H].
Defined.

Lemma ids_are_counted_at_shelf :
  covered (db shelf) /\ retired 2 (db (run (delete_item contains true) shelf)).
Proof.
  assert (H : covered (db shelf))
    by (apply (bool_decide_unpack _); vm_compute; exact I).
  split; [exact H|].
  apply (proj2 (proj2 (proj2 (proj2 (proj2 (proj2 (proj2 (proj2
           (proj2 (ids_are_counted contains) shelf H)))))))) 2 [] tea_row);
    reflexivity.
Defined.
